(** * Earnings-call transcript parser: the extraction engine of
    [src/enhanced_parse_transcripts.py], embedded and verified.

    Conventions of the embedding.
    - A Python [str] is a [string]; only the ASCII range is modelled (a
      character above 127 is neither whitespace, digit, letter nor word
      character).
    - A Python [float] is a primitive binary64 [float]; the two decimal
      conversions the code relies on ([float(str)] and [round(x, 3)]) are
      computed exactly over [Z] with [SpecFloat]'s correctly rounded
      division.
    - A Python [int] is a [Z]; [int(str)] refuses a literal of more than
      4300 digits, CPython's default [sys.int_max_str_digits].
    - [re] is a backtracking matcher over a parsed pattern; each matcher
      keeps its pattern as the text written in the source.
    - spaCy's sentence segmenter is not part of the repository: it is a
      parameter [nlp_sents] giving the texts of [doc.sents]. The
      pipeline refuses a text longer than [nlp.max_length] (1,000,000
      characters, spaCy's default) with a ValueError; the sentence
      matchers and classifiers are given what [nlp] returns, and the
      refusal is raised in [extract_metrics], at the first call of
      [nlp] on the cleaned text.
    - An uncaught Python exception is the [Raise] outcome of [res].
    - The file system is a parameter of [main]: each entry of the input
      directory comes with what opening and reading it gives (its text,
      or the exception raised), and writing the output is a function
      [dump] that may raise. [parse_transcript_file] takes the text
      read and the file's name. *)

From Stdlib Require Import ZArith List String Ascii Bool Lia PeanoNat.
From Stdlib Require Import Floats DecimalString.
Import ListNotations.
Open Scope string_scope.
Set Warnings "-inexact-float".

(** ** Python floats *)

Module PyFloat.

Definition prec : Z := 53.
Definition emax : Z := 1024.

(** The binary64 nearest to [(-1)^s * n / d] (ties to even), for positive
    [n] and [d]: what [strtod] returns for a decimal literal. *)
Definition nearest_ratio (s : bool) (n d : positive) : float :=
  SF2Prim (SFdiv prec emax (S754_finite s n 0) (S754_finite false d 0)).

(** The binary64 nearest to [(-1)^s * n * 10^e]. *)
Definition of_decimal (s : bool) (n : Z) (e : Z) : float :=
  match n with
  | Zpos p =>
      match e with
      | Zneg k => nearest_ratio s p (Pos.pow 10 k)
      | Z0 => nearest_ratio s p 1
      | Zpos k => nearest_ratio s (p * Pos.pow 10 k) 1
      end
  | _ => if s then (-0)%float else 0%float
  end.

(** The binary64 nearest to the integer [z]; an infinity when [z] is
    out of range. *)
Definition of_Z (z : Z) : float := of_decimal (z <? 0)%Z (Z.abs z) 0.

(** Round-half-even of [n / d] to an integer. *)
Definition div_half_even (n d : Z) : Z :=
  let (q, r) := Z.div_eucl n d in
  match Z.compare (2 * r) d with
  | Lt => q
  | Gt => q + 1
  | Eq => if Z.even q then q else q + 1
  end.

(** [round(x, ndigits)] for [0 <= ndigits]: the exact value of [x] is
    rounded half-even to [ndigits] decimals, and the decimal result is
    converted back to the nearest binary64. *)
Definition round (x : float) (ndigits : positive) : float :=
  match Prim2SF x with
  | S754_finite s m e =>
      match e with
      | Zneg k =>
          let scaled := div_half_even (Zpos m * Zpos (Pos.pow 10 ndigits))
                                      (Zpos (Pos.pow 2 k)) in
          of_decimal s scaled (Zneg ndigits)
      | _ => x
      end
  | _ => x
  end.

End PyFloat.

(** ** Characters and strings, as Python's [str] methods see them *)

Definition code (c : ascii) : nat := nat_of_ascii c.

(** [str.isspace] on one ASCII character, which is also the class [\s]. *)
Definition is_space (c : ascii) : bool :=
  let n := code c in
  (((9 <=? n) && (n <=? 13)) || ((28 <=? n) && (n <=? 32)))%nat.

(** The class [\d]. *)
Definition is_digit (c : ascii) : bool :=
  let n := code c in ((48 <=? n) && (n <=? 57))%nat.

Definition is_upper (c : ascii) : bool :=
  let n := code c in ((65 <=? n) && (n <=? 90))%nat.

Definition is_lower (c : ascii) : bool :=
  let n := code c in ((97 <=? n) && (n <=? 122))%nat.

(** The class [\w]. *)
Definition is_word (c : ascii) : bool :=
  is_digit c || is_upper c || is_lower c || Ascii.eqb c "_".

Definition lower_char (c : ascii) : ascii :=
  if is_upper c then ascii_of_nat (code c + 32)%nat else c.

Definition upper_char (c : ascii) : ascii :=
  if is_lower c then ascii_of_nat (code c - 32)%nat else c.

Fixpoint str_map (f : ascii -> ascii) (s : string) : string :=
  match s with
  | EmptyString => EmptyString
  | String c s' => String (f c) (str_map f s')
  end.

(** [s.lower()] and [s.upper()]. *)
Definition lower (s : string) : string := str_map lower_char s.
Definition upper (s : string) : string := str_map upper_char s.

(** [s.replace(c, by)] for a one-character [c]. *)
Fixpoint replace_char (c : ascii) (by_ : string) (s : string) : string :=
  match s with
  | EmptyString => EmptyString
  | String a s' =>
      if Ascii.eqb a c then by_ ++ replace_char c by_ s'
      else String a (replace_char c by_ s')
  end.

(** [s.lstrip()], [s.rstrip()] and [s.strip()]. *)
Fixpoint lstrip (s : string) : string :=
  match s with
  | String c s' => if is_space c then lstrip s' else s
  | EmptyString => EmptyString
  end.

Fixpoint rstrip (s : string) : string :=
  match s with
  | EmptyString => EmptyString
  | String c s' =>
      match rstrip s' with
      | EmptyString => if is_space c then EmptyString else String c EmptyString
      | t => String c t
      end
  end.

Definition strip (s : string) : string := rstrip (lstrip s).

(** [needle in hay]. *)
Fixpoint contains (needle hay : string) : bool :=
  String.prefix needle hay ||
  match hay with
  | EmptyString => false
  | String _ hay' => contains needle hay'
  end.

(** [s.split()]: the maximal runs of non-whitespace characters. [cur] is
    the run being read, reversed. *)
Fixpoint rev_string (acc s : string) : string :=
  match s with
  | EmptyString => acc
  | String c s' => rev_string (String c acc) s'
  end.

Fixpoint split_ws_aux (cur : string) (s : string) : list string :=
  match s with
  | EmptyString =>
      match cur with
      | EmptyString => []
      | _ => [rev_string EmptyString cur]
      end
  | String c s' =>
      if is_space c then
        match cur with
        | EmptyString => split_ws_aux EmptyString s'
        | _ => rev_string EmptyString cur :: split_ws_aux EmptyString s'
        end
      else split_ws_aux (String c cur) s'
  end.

Definition split_ws (s : string) : list string := split_ws_aux EmptyString s.

(** [s.split(sep)] for a one-character separator: never empty, and empty
    fields are kept. *)
Fixpoint split_char_aux (sep : ascii) (cur : string) (s : string) : list string :=
  match s with
  | EmptyString => [rev_string EmptyString cur]
  | String c s' =>
      if Ascii.eqb c sep then
        rev_string EmptyString cur :: split_char_aux sep EmptyString s'
      else split_char_aux sep (String c cur) s'
  end.

Definition split_char (sep : ascii) (s : string) : list string :=
  split_char_aux sep EmptyString s.

(** [sep.join(parts)]. *)
Fixpoint join (sep : string) (parts : list string) : string :=
  match parts with
  | [] => EmptyString
  | [p] => p
  | p :: ps => p ++ sep ++ join sep ps
  end.

(** ** Python's [re]: patterns *)

Module Re.

(** One member of a character set. *)
Inductive citem :=
| CChar (c : ascii)
| CRange (lo hi : ascii)
| CDigit
| CSpace
| CWord.

Inductive regex :=
| REmpty
| RChar (c : ascii)
| RAny
| RSet (neg : bool) (items : list citem)
| RBol
| REol
| RWordB
| RSeq (a b : regex)
| RAlt (a b : regex)
| RRep (greedy : bool) (lo : nat) (hi : option nat) (a : regex)
| RGroup (n : nat) (a : regex).

(** *** Reading a pattern: the part of [re]'s syntax the matchers use *)

Definition is_alnum (c : ascii) : bool := is_digit c || is_upper c || is_lower c.

(** An escape [\x], outside or inside a set: a class, or a literal
    when [x] is not alphanumeric. *)
Definition escape_item (x : ascii) : option citem :=
  if Ascii.eqb x "d" then Some CDigit
  else if Ascii.eqb x "s" then Some CSpace
  else if Ascii.eqb x "w" then Some CWord
  else if is_alnum x then None
  else Some (CChar x).

(** The members of a set, after the opening bracket (and [^]), up to the
    closing bracket. A [-] between two characters makes a range. *)
Fixpoint parse_set (fuel : nat) (s : string) : option (list citem * string) :=
  match fuel with
  | O => None
  | S f =>
      match s with
      | EmptyString => None
      | String "]" rest => Some ([], rest)
      | String "\" (String x rest) =>
          match escape_item x, parse_set f rest with
          | Some it, Some (its, rest') => Some (it :: its, rest')
          | _, _ => None
          end
      | String lo (String "-" (String hi rest)) =>
          if Ascii.eqb hi "]" then
            Some ([CChar lo; CChar "-"], rest)
          else
            match parse_set f rest with
            | Some (its, rest') => Some (CRange lo hi :: its, rest')
            | None => None
            end
      | String c rest =>
          match parse_set f rest with
          | Some (its, rest') => Some (CChar c :: its, rest')
          | None => None
          end
      end
  end.

Fixpoint parse_nat_aux (acc : nat) (s : string) : nat * string :=
  match s with
  | String c rest =>
      if is_digit c then parse_nat_aux (10 * acc + (code c - 48)) rest
      else (acc, s)
  | EmptyString => (acc, s)
  end.

(** A decimal number at the head of [s]; [None] when there is no digit. *)
Definition parse_nat (s : string) : option (nat * string) :=
  match s with
  | String c _ => if is_digit c then Some (parse_nat_aux 0 s) else None
  | EmptyString => None
  end.

(** The bounds of a quantifier at the head of [s]. *)
Definition parse_bounds (s : string) : option (nat * option nat * string) :=
  match s with
  | String "*" rest => Some (0, None, rest)
  | String "+" rest => Some (1, None, rest)
  | String "?" rest => Some (0, Some 1, rest)
  | String "{" rest =>
      match parse_nat rest with
      | Some (lo, String "}" rest') => Some (lo, Some lo, rest')
      | Some (lo, String "," (String "}" rest')) => Some (lo, None, rest')
      | Some (lo, String "," rest') =>
          match parse_nat rest' with
          | Some (hi, String "}" rest'') => Some (lo, Some hi, rest'')
          | _ => None
          end
      | _ => None
      end
  | _ => None
  end.

(** An atom followed by its quantifier, if any; a trailing [?] makes the
    quantifier lazy. *)
Definition parse_quant (a : regex) (s : string) : regex * string :=
  match parse_bounds s with
  | Some (lo, hi, String "?" rest) => (RRep false lo hi a, rest)
  | Some (lo, hi, rest) => (RRep true lo hi a, rest)
  | None => (a, s)
  end.

Definition res3 : Type := regex * string * nat.

(** Alternatives, sequences and atoms. [g] is the number the next
    capturing group gets. *)
Fixpoint parse_alt (fuel : nat) (s : string) (g : nat) : option res3 :=
  match fuel with
  | O => None
  | S f =>
      match parse_seq f s g with
      | Some (a, String "|" rest, g') =>
          match parse_alt f rest g' with
          | Some (b, rest', g'') => Some (RAlt a b, rest', g'')
          | None => None
          end
      | r => r
      end
  end
with parse_seq (fuel : nat) (s : string) (g : nat) : option res3 :=
  match fuel with
  | O => None
  | S f =>
      match s with
      | EmptyString => Some (REmpty, s, g)
      | String "|" _ => Some (REmpty, s, g)
      | String ")" _ => Some (REmpty, s, g)
      | _ =>
          match parse_atom f s g with
          | Some (a, rest, g') =>
              let (q, rest') := parse_quant a rest in
              match parse_seq f rest' g' with
              | Some (REmpty, rest'', g'') => Some (q, rest'', g'')
              | Some (b, rest'', g'') => Some (RSeq q b, rest'', g'')
              | None => None
              end
          | None => None
          end
      end
  end
with parse_atom (fuel : nat) (s : string) (g : nat) : option res3 :=
  match fuel with
  | O => None
  | S f =>
      match s with
      | EmptyString => None
      | String "(" (String "?" (String ":" rest)) =>
          match parse_alt f rest g with
          | Some (a, String ")" rest', g') => Some (a, rest', g')
          | _ => None
          end
      | String "(" (String "?" _) => None
      | String "(" rest =>
          match parse_alt f rest (S g) with
          | Some (a, String ")" rest', g') => Some (RGroup g a, rest', g')
          | _ => None
          end
      | String "[" (String "^" rest) =>
          match parse_set f rest with
          | Some (its, rest') => Some (RSet true its, rest', g)
          | None => None
          end
      | String "[" rest =>
          match parse_set f rest with
          | Some (its, rest') => Some (RSet false its, rest', g)
          | None => None
          end
      | String "\" (String "b" rest) => Some (RWordB, rest, g)
      | String "\" (String x rest) =>
          match escape_item x with
          | Some (CChar c) => Some (RChar c, rest, g)
          | Some it => Some (RSet false [it], rest, g)
          | None => None
          end
      | String "\" EmptyString => None
      | String "." rest => Some (RAny, rest, g)
      | String "^" rest => Some (RBol, rest, g)
      | String "$" rest => Some (REol, rest, g)
      | String "*" _ | String "+" _ | String "?" _ | String "{" _ => None
      | String c rest => Some (RChar c, rest, g)
      end
  end.

(** The whole pattern; [None] is a syntax error ([re.error]) or syntax
    outside the modelled part. *)
Definition parse (pat : string) : option regex :=
  match parse_alt (3 * String.length pat + 3) pat 1 with
  | Some (r, EmptyString, _) => Some r
  | _ => None
  end.

(** [re.compile(pat)]. A pattern that does not parse becomes the set
    that matches nothing; every pattern of the program parses
    (see [patterns_parse]). *)
Definition compile (pat : string) : regex :=
  match parse pat with
  | Some r => r
  | None => RSet false []
  end.

(** *** Matching: [re]'s backtracking search *)

(** Where the matcher stands in the subject: the number of characters
    before it, the character just before it, and what is left. *)
Record cursor := Cursor { pos : nat; prev : option ascii; rest : string }.

Definition start_of (s : string) : cursor := Cursor 0 None s.

(** Captured groups, the most recent capture of a group first. *)
Definition groups := list (nat * string).

Definition outcome : Type := cursor * groups.
Definition cont : Type := cursor -> groups -> option outcome.

Fixpoint take (n : nat) (s : string) : string :=
  match n, s with
  | S n', String c s' => String c (take n' s')
  | _, _ => EmptyString
  end.

(** The text between two cursors of one subject. *)
Definition between (c c' : cursor) : string := take (pos c' - pos c) (rest c).

Definition item_has (it : citem) (a : ascii) : bool :=
  match it with
  | CChar c => Ascii.eqb a c
  | CRange lo hi => (code lo <=? code a)%nat && (code a <=? code hi)%nat
  | CDigit => is_digit a
  | CSpace => is_space a
  | CWord => is_word a
  end.

Definition set_has (items : list citem) (a : ascii) : bool :=
  existsb (fun it => item_has it a) items.

Section Matcher.

(** The flag [re.IGNORECASE]. *)
Variable ignorecase : bool.

Definition char_matches (c a : ascii) : bool :=
  if ignorecase then Ascii.eqb (lower_char a) (lower_char c) else Ascii.eqb a c.

Definition set_matches (neg : bool) (items : list citem) (a : ascii) : bool :=
  let hit :=
    if ignorecase then set_has items (lower_char a) || set_has items (upper_char a)
    else set_has items a in
  xorb neg hit.

(** One character of the subject satisfying [p]. *)
Definition step (p : ascii -> bool) (c : cursor) (g : groups) (k : cont)
  : option outcome :=
  match rest c with
  | String a s' => if p a then k (Cursor (S (pos c)) (Some a) s') g else None
  | EmptyString => None
  end.

Definition word_before (c : cursor) : bool :=
  match prev c with Some a => is_word a | None => false end.

Definition word_after (c : cursor) : bool :=
  match rest c with String a _ => is_word a | EmptyString => false end.

Definition at_end (c : cursor) : bool :=
  match rest c with
  | EmptyString => true
  | String a EmptyString => Ascii.eqb a "010"
  | _ => false
  end.

Definition or_else (x y : option outcome) : option outcome :=
  match x with Some _ => x | None => y end.

(** The optional rounds of a repetition whose one round is [body]:
    at most [fuel] of them, each consuming at least one character.
    A greedy repetition tries one more round before it tries to stop, a
    lazy one the other way round. *)
Fixpoint rep_more (body : cursor -> groups -> cont -> option outcome)
    (greedy : bool) (k : cont) (fuel : nat) (c : cursor) (g : groups)
    {struct fuel} : option outcome :=
  match fuel with
  | O => k c g
  | S f =>
      let again :=
        body c g (fun c' g' =>
          if (pos c <? pos c')%nat then rep_more body greedy k f c' g' else None) in
      if greedy then or_else again (k c g) else or_else (k c g) again
  end.

(** The [n] required rounds, then [after]. *)
Fixpoint rep_required (body : cursor -> groups -> cont -> option outcome)
    (after : cont) (n : nat) (c : cursor) (g : groups) {struct n}
  : option outcome :=
  match n with
  | O => after c g
  | S n' => body c g (fun c' g' => rep_required body after n' c' g')
  end.

(** The number of optional rounds there can be: the bound [hi - lo], or
    the number of characters left. *)
Definition rep_fuel (lo : nat) (hi : option nat) (c : cursor) : nat :=
  match hi with
  | Some h => h - lo
  | None => String.length (rest c)
  end.

(** [run r c g k]: the first way, in [re]'s order of preference, to match
    [r] at [c] such that the continuation [k] succeeds on what follows.
    A different way is tried whenever [k] fails: this is backtracking. *)
Fixpoint run (r : regex) (c : cursor) (g : groups) (k : cont) {struct r}
  : option outcome :=
  match r with
  | REmpty => k c g
  | RChar x => step (char_matches x) c g k
  | RAny => step (fun a => negb (Ascii.eqb a "010")) c g k
  | RSet neg items => step (set_matches neg items) c g k
  | RBol => match prev c with None => k c g | Some _ => None end
  | REol => if at_end c then k c g else None
  | RWordB => if xorb (word_before c) (word_after c) then k c g else None
  | RSeq a b => run a c g (fun c' g' => run b c' g' k)
  | RAlt a b => or_else (run a c g k) (run b c g k)
  | RGroup n a => run a c g (fun c' g' => k c' ((n, between c c') :: g'))
  | RRep greedy lo hi a =>
      rep_required (run a)
        (fun c' g' => rep_more (run a) greedy k (rep_fuel lo hi c') c' g')
        lo c g
  end.

(** A successful match: where it starts, where it ends, its groups. *)
Record rmatch := RMatch { m_start : cursor; m_end : cursor; m_groups : groups }.

(** [pattern.match(s)] from a cursor: the pattern must match there. *)
Definition match_at (r : regex) (c : cursor) : option rmatch :=
  match run r c [] (fun c' g' => Some (c', g')) with
  | Some (c', g') => Some (RMatch c c' g')
  | None => None
  end.

Definition advance (c : cursor) : option cursor :=
  match rest c with
  | String a s' => Some (Cursor (S (pos c)) (Some a) s')
  | EmptyString => None
  end.

(** [pattern.search]: the match at the leftmost position that has one.
    [fuel] counts the positions still to try. *)
Fixpoint search_from (fuel : nat) (r : regex) (c : cursor) : option rmatch :=
  match match_at r c with
  | Some m => Some m
  | None =>
      match fuel, advance c with
      | S f, Some c' => search_from f r c'
      | _, _ => None
      end
  end.

Definition search_cursor (r : regex) (c : cursor) : option rmatch :=
  search_from (String.length (rest c)) r c.

Definition search (r : regex) (s : string) : option rmatch :=
  search_cursor r (start_of s).

(** [re.match(pat, s)]. *)
Definition match_ (r : regex) (s : string) : option rmatch :=
  match_at r (start_of s).

(** [pattern.findall]'s matches: the successive non-overlapping matches,
    left to right. After an empty match the scan moves on by one
    character. *)
Fixpoint findall_from (fuel : nat) (r : regex) (c : cursor) : list rmatch :=
  match fuel with
  | O => []
  | S f =>
      match search_cursor r c with
      | None => []
      | Some m =>
          m ::
          (if (pos (m_start m) <? pos (m_end m))%nat then findall_from f r (m_end m)
           else match advance (m_end m) with
                | Some c' => findall_from f r c'
                | None => []
                end)
      end
  end.

Definition findall (r : regex) (s : string) : list rmatch :=
  findall_from (S (String.length s)) r (start_of s).

(** [pattern.sub(repl, s)] when [repl] refers to no group: what stands
    between the successive matches is kept and each match gives way to
    [repl]. After an empty match the scan copies one character and
    moves on. *)
Fixpoint sub_from (fuel : nat) (r : regex) (repl : string) (c : cursor) : string :=
  match fuel with
  | O => rest c
  | S f =>
      match search_cursor r c with
      | None => rest c
      | Some m =>
          between c (m_start m) ++ repl ++
          (if (pos (m_start m) <? pos (m_end m))%nat
           then sub_from f r repl (m_end m)
           else match rest (m_end m) with
                | String a s' =>
                    String a (sub_from f r repl
                                (Cursor (S (pos (m_end m))) (Some a) s'))
                | EmptyString => EmptyString
                end)
      end
  end.

Definition sub (r : regex) (repl : string) (s : string) : string :=
  sub_from (S (String.length s)) r repl (start_of s).

End Matcher.

(** [m.group(n)]: [None] when group [n] took no part in the match. *)
Definition group (m : rmatch) (n : nat) : option string :=
  match n with
  | O => Some (between (m_start m) (m_end m))
  | _ =>
      match find (fun e => Nat.eqb (fst e) n) (m_groups m) with
      | Some (_, t) => Some t
      | None => None
      end
  end.

(** A group as [findall] reports it: the empty string when it took no
    part. *)
Definition group_or_empty (m : rmatch) (n : nat) : string :=
  match group m n with Some t => t | None => EmptyString end.

End Re.

(** ** Python's conversions between [str], [int] and [float] *)

Module Conv.

Definition digit_val (c : ascii) : Z := Z.of_nat (code c - 48).

(** A run of digits in which single underscores may separate digits:
    its value, its number of digits, and what follows it. *)
Fixpoint digits_loop (acc : Z) (n : nat) (s : string) : Z * nat * string :=
  match s with
  | String c s' =>
      if is_digit c then digits_loop (10 * acc + digit_val c) (S n) s'
      else if Ascii.eqb c "_" then
        match s' with
        | String c' s'' =>
            if is_digit c' then digits_loop (10 * acc + digit_val c') (S n) s''
            else (acc, n, s)
        | EmptyString => (acc, n, s)
        end
      else (acc, n, s)
  | EmptyString => (acc, n, s)
  end.

Definition read_digits (s : string) : option (Z * nat * string) :=
  match s with
  | String c _ => if is_digit c then Some (digits_loop 0 0 s) else None
  | EmptyString => None
  end.

(** An optional sign: [true] for minus. *)
Definition read_sign (s : string) : bool * string :=
  match s with
  | String "-" s' => (true, s')
  | String "+" s' => (false, s')
  | _ => (false, s)
  end.

(** CPython's default [sys.int_max_str_digits]. *)
Definition int_max_str_digits : nat := 4300.

(** [int(s)] in base 10; [None] is [ValueError], which a literal of
    more than [int_max_str_digits] digits raises too. *)
Definition int_of_string (s : string) : option Z :=
  let (neg, body) := read_sign (strip s) in
  match read_digits body with
  | Some (v, n, EmptyString) =>
      if (int_max_str_digits <? n)%nat then None
      else Some (if neg then (- v)%Z else v)
  | _ => None
  end.

(** The exponent part of a float literal, if any; [None] when what is
    left is not an exponent. *)
Definition read_exponent (s : string) : option Z :=
  match s with
  | EmptyString => Some 0%Z
  | String c s' =>
      if Ascii.eqb (lower_char c) "e" then
        let (neg, body) := read_sign s' in
        match read_digits body with
        | Some (v, _, EmptyString) => Some (if neg then (- v)%Z else v)
        | _ => None
        end
      else None
  end.

(** The value of [number [exponent]]: mantissa digits and decimal
    exponent. *)
Definition read_number (s : string) : option (Z * Z) :=
  match read_digits s with
  | Some (i, _, String "." r1) =>
      match read_digits r1 with
      | Some (f, nf, r2) =>
          match read_exponent r2 with
          | Some e => Some ((i * 10 ^ Z.of_nat nf + f)%Z, (e - Z.of_nat nf)%Z)
          | None => None
          end
      | None =>
          match read_exponent r1 with
          | Some e => Some (i, e)
          | None => None
          end
      end
  | Some (i, _, r1) =>
      match read_exponent r1 with
      | Some e => Some (i, e)
      | None => None
      end
  | None =>
      match s with
      | String "." r1 =>
          match read_digits r1 with
          | Some (f, nf, r2) =>
              match read_exponent r2 with
              | Some e => Some (f, (e - Z.of_nat nf)%Z)
              | None => None
              end
          | None => None
          end
      | _ => None
      end
  end.

(** [float(s)]; [None] is [ValueError]. *)
Definition float_of_string (s : string) : option float :=
  let (neg, body) := read_sign (strip s) in
  let word := lower body in
  if String.eqb word "inf" || String.eqb word "infinity" then
    Some (if neg then neg_infinity else infinity)
  else if String.eqb word "nan" then Some nan
  else
    match read_number body with
    | Some (n, e) => Some (PyFloat.of_decimal neg n e)
    | None => None
    end.

(** [str(n)] for a natural number. *)
Definition string_of_nat (n : nat) : string :=
  DecimalString.NilZero.string_of_uint (Nat.to_uint n).

End Conv.

(** ** The program: helpers *)

(** Uncaught exceptions; the last two are what opening, reading or
    writing a file raises. *)
Inductive exn := ValueError | OverflowError | OSError | UnicodeDecodeError.

Inductive res (A : Type) : Type :=
| Ok (a : A)
| Raise (e : exn).
Arguments Ok {A} a.
Arguments Raise {A} e.

Definition bind {A B : Type} (x : res A) (f : A -> res B) : res B :=
  match x with
  | Ok a => f a
  | Raise e => Raise e
  end.

Notation "x <- c1 ;; c2" := (bind c1 (fun x => c2))
  (at level 61, c1 at next level, right associativity).
Notation "c1 ;; c2" := (bind c1 (fun _ => c2))
  (at level 61, right associativity).

Definition whitespace_pattern : string := "\s+".

Definition clean_text (text : string) : string :=
  strip (Re.sub false (Re.compile whitespace_pattern) " "
           (replace_char "010" " " text)).

(** Values stored in the result mapping. *)
Inductive pyval :=
| VNone
| VFloat (f : float)
| VList (l : list string).

(** A Python [dict] with string keys, in insertion order. *)
Definition dict := list (string * pyval).

Fixpoint dict_get (k : string) (d : dict) : option pyval :=
  match d with
  | [] => None
  | (k', v) :: d' => if String.eqb k' k then Some v else dict_get k d'
  end.

(** [d[k] = v]. *)
Fixpoint dict_set (k : string) (v : pyval) (d : dict) : dict :=
  match d with
  | [] => [(k, v)]
  | (k', v') :: d' =>
      if String.eqb k' k then (k', v) :: d' else (k', v') :: dict_set k v d'
  end.

Definition is_none (v : pyval) : bool :=
  match v with VNone => true | _ => false end.

Definition remove_null_metrics (metrics_dict : dict) : dict :=
  filter (fun kv => negb (is_none (snd kv))) metrics_dict.

Definition of_opt (o : option float) : pyval :=
  match o with Some f => VFloat f | None => VNone end.

Definition NUM_WORDS : list (string * nat) :=
  [ ("zero", 0); ("one", 1); ("two", 2); ("three", 3); ("four", 4); ("five", 5);
    ("six", 6); ("seven", 7); ("eight", 8); ("nine", 9); ("ten", 10);
    ("eleven", 11); ("twelve", 12); ("thirteen", 13); ("fourteen", 14);
    ("fifteen", 15); ("sixteen", 16); ("seventeen", 17); ("eighteen", 18);
    ("nineteen", 19); ("twenty", 20); ("thirty", 30); ("forty", 40);
    ("fifty", 50); ("sixty", 60); ("seventy", 70); ("eighty", 80);
    ("ninety", 90); ("hundred", 100) ].

Fixpoint num_word (tok : string) (table : list (string * nat)) : option nat :=
  match table with
  | [] => None
  | (w, n) :: table' => if String.eqb w tok then Some n else num_word tok table'
  end.

Definition mem (x : string) (l : list string) : bool :=
  existsb (String.eqb x) l.

Definition is_some {A : Type} (o : option A) : bool :=
  match o with Some _ => true | None => false end.

Definition digit_token_pattern : string := "^\d+$".

(** One token of [spoken_to_number]: the digits it contributes, or
    [None] when it is none of the three kinds. *)
Definition spoken_piece (tok : string) : option string :=
  let small :=
    match num_word tok NUM_WORDS with
    | Some n => if (n <? 100)%nat then Some (Conv.string_of_nat n) else None
    | None => None
    end in
  match small with
  | Some d => Some d
  | None =>
      if mem tok ["oh"; "o"] then Some "0"
      else if is_some (Re.match_ false (Re.compile digit_token_pattern) tok) then Some tok
      else None
  end.

(** The loop of [spoken_to_number]: the digit strings appended until the
    first token that contributes none ([break]). *)
Fixpoint spoken_digits (tokens : list string) : list string :=
  match tokens with
  | [] => []
  | tok :: tokens' =>
      match spoken_piece tok with
      | Some d => d :: spoken_digits tokens'
      | None => []
      end
  end.

Definition spoken_to_number (text : string) : option Z :=
  let tokens := split_ws (lower text) in
  let digits := spoken_digits tokens in
  match digits with
  | [] => None
  | _ => Conv.int_of_string (String.concat "" digits)
  end.

(** [unit or ""]. *)
Definition or_empty (unit : option string) : string :=
  match unit with Some u => u | None => EmptyString end.

Definition round3 (x : float) : float := PyFloat.round x 3.

(** [num_str] is [None] when the caller passes a group that took no
    part in the match; the attribute error is caught like the parse
    error. *)
Definition normalize_number (num_str : option string) (unit : option string)
  : option float :=
  match num_str with
  | None => None
  | Some num_str =>
      match Conv.float_of_string (replace_char "$" "" (replace_char "," "" num_str)) with
      | None => None
      | Some num =>
          let u := strip (lower (or_empty unit)) in
          if mem u ["billion"; "bn"; "b"] then Some (round3 (num * 1000))
          else if mem u ["million"; "mn"; "mm"; "m"] then Some (round3 num)
          else if mem u ["thousand"; "k"] then Some (round3 (num / 1000))
          else if (1000000 <=? num)%float then Some (round3 (num / 1000000))
          else Some (round3 num)
      end
  end.

(** ** The program: metric matchers *)

(** [re.escape]. *)
Definition special_char (c : ascii) : bool :=
  existsb (Ascii.eqb c)
    (list_ascii_of_string "()[]{}?*+-|^$\.&~# " ++
     ["009"; "010"; "013"; "011"; "012"]%char).

Fixpoint re_escape (s : string) : string :=
  match s with
  | EmptyString => EmptyString
  | String c s' =>
      if special_char c then String "\" (String c (re_escape s'))
      else String c (re_escape s')
  end.

(** The pattern of [parse_metric] for a keyword. *)
Definition metric_pattern (keyword : string) : string :=
  re_escape keyword ++
  "(?:\s+\w+)*?\s*" ++
  "(?:was|were|of|at|totaled|amounted to|came in at|reported at|reached)?\s*" ++
  "(?:approximately|about|around|nearly|over|~)?\s*" ++
  "\$?\s*([\d,\.]+)(?:\s*(billion|million|thousand|k|bn|mn|mm|m|b))?".

Definition parse_metric (text keyword : string) : option float :=
  let t := clean_text text in
  let pattern := Re.compile (metric_pattern keyword) in
  match Re.search true pattern t with
  | Some m => normalize_number (Re.group m 1) (Re.group m 2)
  | None => None
  end.

(** The loop over [findall]'s tuples in [parse_revenue]: the first
    candidate that normalizes to a value. *)
Fixpoint revenue_first_value (matches : list Re.rmatch) : option float :=
  match matches with
  | [] => None
  | m :: matches' =>
      match normalize_number (Some (Re.group_or_empty m 2))
                             (Some (Re.group_or_empty m 3)) with
      | Some val => Some val
      | None => revenue_first_value matches'
      end
  end.

Definition revenue_pattern : string :=
  "\b(revenue)\b(?:\s+\w+){0,5}?" ++
  "(?:was|were|of|at|totaled|amounted to|came in at|reported at|reached)?\s*" ++
  "(?:approximately|about|around|nearly|over|~)?\s*" ++
  "\$?\s*([\d,]+(?:\.\d+)?)\s*" ++
  "(billion|million|thousand|k|bn|mn|mm|m|b)?".

Definition revenue_fallback_pattern : string := "\$([\d,]{7,})(?:\.\d+)?".

(** The fallback stage of [parse_revenue]. *)
Definition revenue_fallback (t : string) : option float :=
  if contains "revenue" (lower t) then
    match Re.search true (Re.compile revenue_fallback_pattern) t with
    | Some fallback_match => normalize_number (Re.group fallback_match 1) None
    | None => None
    end
  else None.

Definition parse_revenue (text : string) : option float :=
  let t := clean_text text in
  let matches := Re.findall true (Re.compile revenue_pattern) t in
  match revenue_first_value matches with
  | Some val => Some val
  | None => revenue_fallback t
  end.

Definition parse_consolidated_net_sales (text : string) := parse_metric text "consolidated net sales".
Definition parse_consolidated_operating_income (text : string) := parse_metric text "consolidated operating income".
Definition parse_marketplace_gov (text : string) := parse_metric text "marketplace gov".
Definition parse_total_orders (text : string) := parse_metric text "total orders".
Definition parse_gaap_net_income (text : string) := parse_metric text "gaap net income".

Definition net_income_pattern : string :=
  "\bnet\s+(income|earnings|profit|loss)\b" ++
  "(?:\s+\w+){0,6}?\s*" ++
  "(?:was|were|of|at|totaled|amounted to|came in at|reported at|came to|reached)?\s*" ++
  "(?:approximately|about|around|nearly|over|~)?\s*" ++
  "\$?\s*([\d,]+(?:\.\d+)?)\s*" ++
  "(billion|million|thousand|bn|mn|mm|m|b|k)?".

(** What [parse_net_income] returns from the sentence whose match is
    [m]. *)
Definition net_income_value (m : Re.rmatch) : option float :=
  match normalize_number (option_map (replace_char "," "") (Re.group m 2))
                         (Re.group m 3) with
  | Some val =>
      if String.eqb (lower (or_empty (Re.group m 1))) "loss"
      then Some (- val)%float else Some val
  | None => None
  end.

(** A [for sent in ...] loop whose body either returns ([Some ret]) or
    falls through to the next sentence ([None]); after the loop the
    function returns [None]. *)
Fixpoint for_sentences (body : string -> option (option float))
    (sentences : list string) : option float :=
  match sentences with
  | [] => None
  | s :: sentences' =>
      match body s with
      | Some ret => ret
      | None => for_sentences body sentences'
      end
  end.

(** The body of the loop of [parse_net_income]: it returns at the first
    sentence the pattern matches, whatever the value. *)
Definition net_income_body (s : string) : option (option float) :=
  match Re.search true (Re.compile net_income_pattern) s with
  | Some m => Some (net_income_value m)
  | None => None
  end.

(** [nlp.max_length], spaCy's default. *)
Definition max_length : Z := 1000000.

(** What [nlp(t)] does before anything else: a text longer than
    [nlp.max_length] raises a ValueError. *)
Definition nlp_check (t : string) : res unit :=
  if (max_length <? Z.of_nat (String.length t))%Z then Raise ValueError else Ok tt.

Section Program.

(** spaCy's pipeline: the texts of [doc.sents] for [doc = nlp(t)]. *)
Variable nlp_sents : string -> list string.

Definition parse_net_income (text : string) : option float :=
  let t := clean_text text in
  let sentences :=
    filter (fun s => negb (contains "adjusted net income" (lower s))) (nlp_sents t) in
  for_sentences net_income_body sentences.

Definition adjusted_ebitda_pattern_after : string :=
  "adjusted\s+ebitda(?:\s+\w+){0,3}?\s*" ++
  "(?:was|were|of|at|totaled|amounted to|came in at|reported at|came to|reached)?\s*" ++
  "(?:approximately|about|around|nearly|over|~)?\s*" ++
  "\$?\s*([\d,]+(?:\.\d+)?)\s*" ++
  "(billion|million|thousand|k|bn|mn|mm|m|b)?".

Definition adjusted_ebitda_pattern_before : string :=
  "\$?\s*([\d,]+(?:\.\d+)?)\s*" ++
  "(billion|million|thousand|k|bn|mn|mm|m|b)?\s+adjusted\s+ebitda".

Definition parse_adjusted_ebitda (text : string) : option float :=
  let t := clean_text text in
  let pattern_after := Re.compile adjusted_ebitda_pattern_after in
  match Re.search true pattern_after t with
  | Some m =>
      normalize_number (option_map (replace_char "," "") (Re.group m 1)) (Re.group m 2)
  | None =>
      let pattern_before := Re.compile adjusted_ebitda_pattern_before in
      match Re.search true pattern_before t with
      | Some m =>
          normalize_number (option_map (replace_char "," "") (Re.group m 1)) (Re.group m 2)
      | None => None
      end
  end.

Definition available_liquidity_pattern : string :=
  "\$?\s*([\d,\.]+)\s*(billion|million|thousand|k|bn|mn|mm|m|b)?\s+(?:in|of|was)\s+available\s+liquidity".

Definition parse_available_liquidity (text : string) : option float :=
  match parse_metric text "available liquidity" with
  | Some val => Some val
  | None =>
      let t := clean_text text in
      let pattern := Re.compile available_liquidity_pattern in
      match Re.search true pattern t with
      | Some m => normalize_number (Re.group m 1) (Re.group m 2)
      | None => None
      end
  end.

Definition net_cash_balance_pattern : string :=
  "net cash balance\s+(?:at|of|was)?\s*\$?\s*([\d,\.]+)\s*(billion|million|thousand|k|bn|mn|mm|m|b)?".

Definition parse_net_cash_balance (text : string) : option float :=
  let t := clean_text text in
  let pattern := Re.compile net_cash_balance_pattern in
  match Re.search true pattern t with
  | Some m => normalize_number (Re.group m 1) (Re.group m 2)
  | None => None
  end.

Definition credit_facility_pattern : string :=
  "\$?\s*([\d,\.]+)\s*(billion|million|thousand|bn|mn|mm|m|b|k)?\s+(?:credit facility)".

Definition parse_credit_facility (text : string) : option float :=
  let t := clean_text text in
  let pattern := Re.compile credit_facility_pattern in
  match Re.search true pattern t with
  | Some m => normalize_number (Re.group m 1) (Re.group m 2)
  | None => None
  end.

Definition share_buybacks_and_dividends_pattern : string :=
  "(?:(?:nearly|approximately|~|about|around|over)?\s*\$?\s*([\d,]+(?:\.\d+)?)(?:\s*(billion|million|thousand|k|bn|mn|mm|m|b))?)" ++
  "(?:\s*(?:of|in|towards|for|used for|was|were|deployed towards)?\s*(?:\w+\s*){0,6})" ++
  "(share buybacks|share repurchases|dividends)".

Definition share_buybacks_and_dividends_pattern_rev : string :=
  "(share buybacks|share repurchases|dividends)" ++
  "(?:\s*(?:of|in|towards|for|used for|was|were|deployed towards)?\s*(?:\w+\s*){0,6})" ++
  "\$?\s*([\d,]+(?:\.\d+)?)(?:\s*(billion|million|thousand|k|bn|mn|mm|m|b))?".

Definition parse_share_buybacks_and_dividends (text : string) : option float :=
  let t := clean_text text in
  let pattern := Re.compile share_buybacks_and_dividends_pattern in
  match Re.search true pattern t with
  | Some m => normalize_number (Re.group m 1) (Re.group m 2)
  | None =>
      let pattern_rev := Re.compile share_buybacks_and_dividends_pattern_rev in
      match Re.search true pattern_rev t with
      | Some m => normalize_number (Re.group m 2) (Re.group m 3)
      | None => None
      end
  end.

(** [float(g.replace(",", ""))] on a group. *)
Definition float_of_group (g : option string) : option float :=
  match g with
  | Some num => Conv.float_of_string (replace_char "," "" num)
  | None => None
  end.

Definition combined_rate_ar6_pattern : string :=
  "preliminary combined rate for AR6\s*(?:is|of|was)?\s*([\d,.]+)\s*%".

Definition parse_combined_rate_ar6 (text : string) : option float :=
  let t := clean_text text in
  let pattern := Re.compile combined_rate_ar6_pattern in
  match Re.search true pattern t with
  | Some m => float_of_group (Re.group m 1)
  | None => None
  end.

Definition lumber_segment_adjusted_ebitda_pattern : string :=
  "lumber segment.*?adjusted ebitda\s*(?:of|was)?\s*\$?\s*([\d,]+(?:\.\d+)?)\s*(billion|million|thousand|k|bn|mn|mm|m|b)?".

Definition parse_lumber_segment_adjusted_ebitda (text : string) : option float :=
  let t := clean_text text in
  let pattern := Re.compile lumber_segment_adjusted_ebitda_pattern in
  match Re.search true pattern t with
  | Some m => normalize_number (Re.group m 1) (Re.group m 2)
  | None => None
  end.

Definition orders_pattern : string :=
  "orders\s+(?:of|were|was|totaled|amounted to)?\s*\$?([\d,.]+)".

Definition parse_orders (text : string) : option float :=
  let t := clean_text text in
  for_sentences (fun sent =>
    if contains "orders" (lower sent) then
      let pattern := Re.compile orders_pattern in
      match Re.search true pattern sent with
      | Some m => Some (normalize_number (Re.group m 1) None)
      | None => None
      end
    else None) (nlp_sents t).

Definition cash_flow_pattern : string :=
  "(?:generated|was|were|of|totaled|amounted to)\s*\$?([\d,.]+)".

Definition parse_cash_flow (text : string) : option float :=
  let t := clean_text text in
  for_sentences (fun sent =>
    let s := lower sent in
    if contains "free cash flow" s then None
    else if contains "cash flow" s || contains "cash from operations" s then
      let pattern := Re.compile cash_flow_pattern in
      match Re.search true pattern sent with
      | Some m => Some (normalize_number (Re.group m 1) None)
      | None => None
      end
    else None) (nlp_sents t).

Definition gaap_diluted_eps_pattern : string :=
  "gaap diluted eps.*?\$?\s*([\d,\.-]+)".

Definition parse_gaap_diluted_eps (text : string) : option float :=
  let t := clean_text text in
  let pattern := Re.compile gaap_diluted_eps_pattern in
  match Re.search true pattern t with
  | Some m => float_of_group (Re.group m 1)
  | None => None
  end.

Definition adjusted_eps_pattern : string :=
  "\b(?:was|were|of|at|totaled|amounted to)\s*\$?(-?[\d]+\.[\d]+)".

Definition parse_adjusted_eps (text : string) : option float :=
  let t := clean_text text in
  for_sentences (fun sent =>
    if contains "adjusted" (lower sent) && contains "eps" (lower sent) then
      let pattern := Re.compile adjusted_eps_pattern in
      match Re.search true pattern sent with
      | Some m =>
          Some (match Re.group m 1 with
                | Some g => Conv.float_of_string g
                | None => None
                end)
      | None => None
      end
    else None) (nlp_sents t).

Definition loss_marker_pattern : string := "\b(loss|negative|deficit)\b".

(** [re.search(r"\b(loss|negative|deficit)\b", t, re.IGNORECASE)] as a
    condition. *)
Definition has_loss_marker (t : string) : bool :=
  is_some (Re.search true (Re.compile loss_marker_pattern) t).

(** [float(i)] for a Python [int]. *)
Definition float_of_int (z : Z) : res float :=
  let f := PyFloat.of_Z z in
  if PrimFloat.is_infinity f then Raise OverflowError else Ok f.

Definition actual_eps_pattern : string := "actual\s+eps[:\s]*\$?\s*(-?[\d,.]+)".

Definition actual_eps_spoken_pattern : string :=
  "actual\s+eps\s+(?:of|was|were|at|totaled)?\s*([a-z\s]+)\s*(cents?|dollars?)".

Definition parse_actual_eps (text : string) : res (option float) :=
  let t := clean_text text in
  match Re.search true (Re.compile actual_eps_pattern) t with
  | Some m =>
      match float_of_group (Re.group m 1) with
      | Some eps =>
          let eps := abs eps in
          let eps := if has_loss_marker t then (- eps)%float else eps in
          Ok (Some (round3 eps))
      | None => Ok None
      end
  | None =>
      match Re.search true (Re.compile actual_eps_spoken_pattern) t with
      | Some m =>
          match spoken_to_number (or_empty (Re.group m 1)) with
          | Some num_val =>
              val <- float_of_int num_val ;;
              let val :=
                if contains "cent" (lower (or_empty (Re.group m 2)))
                then (val / 100)%float else val in
              let val := if has_loss_marker t then (- val)%float else val in
              Ok (Some (round3 val))
          | None => Ok None
          end
      | None => Ok None
      end
  end.

Definition net_revenue_margin_pattern : string :=
  "net revenue margin.*?([\d,.]+)\s*%".

Definition parse_net_revenue_margin (text : string) : res (option float) :=
  let t := clean_text text in
  let pattern := Re.compile net_revenue_margin_pattern in
  match Re.search true pattern t with
  | Some m =>
      match float_of_group (Re.group m 1) with
      | Some x => Ok (Some x)
      | None => Raise ValueError
      end
  | None => Ok None
  end.

Definition total_net_sales_pattern : string :=
  "total\s+net\s+sales(?:\s+\w+){0,5}?" ++
  "\s*(?:was|were|of|at|totaled|amounted to|came in at|reported at|reached)?\s*" ++
  "(?:approximately|about|around|nearly|over|~)?\s*" ++
  "\$" ++
  "\s*([\d,]+(?:\.\d+)?)\s*" ++
  "(billion|million|thousand|k|bn|mn|mm|m|b)?".

Definition total_net_sales_pattern2 : string :=
  "total\s+net\s+sales(?:\s+\w+){0,5}?\s*" ++
  "(?:was|were|of|at|totaled|amounted to|came in at|reported at|reached)?\s*" ++
  "(?:approximately|about|around|nearly|over|~)?\s*" ++
  "([\d,.]+)\s*(billion|million|thousand|k|bn|mn|mm|m|b)".

Definition parse_total_net_sales (text : string) : option float :=
  let t := clean_text text in
  let pattern := Re.compile total_net_sales_pattern in
  match Re.search true pattern t with
  | Some m => normalize_number (Re.group m 1) (Re.group m 2)
  | None =>
      let pattern2 := Re.compile total_net_sales_pattern2 in
      match Re.search true pattern2 t with
      | Some m => normalize_number (Re.group m 1) (Re.group m 2)
      | None => None
      end
  end.

Definition liquidity_pattern_total : string :=
  "\btotal\s+liquidity(?:\s+\w+){0,3}?\s*" ++
  "(?:was|were|of|at|totaled|amounted to|reported at|came in at|reached|stood at)?\s*" ++
  "\$?\s*([\d,\.]+)\s*" ++
  "(billion|million|thousand|bn|mn|mm|m|b|k)\b".

Definition liquidity_pattern_before : string :=
  "\$?\s*([\d,\.]+)\s*" ++
  "(billion|million|thousand|bn|mn|mm|m|b|k)\s+" ++
  "(?:in|of|at|was|for|representing)?\s*liquidity".

Definition liquidity_pattern_after : string :=
  "\bliquidity(?:\s+\w+){0,3}?\s*" ++
  "(?:was|were|of|at|totaled|amounted to|reported at|came in at|stood at|reached)?\s*" ++
  "\$?\s*([\d,\.]+)\s*" ++
  "(billion|million|thousand|bn|mn|mm|m|b|k)\b".

Definition parse_liquidity (text : string) : option float :=
  let t := clean_text text in
  let pattern_total := Re.compile liquidity_pattern_total in
  match Re.search true pattern_total t with
  | Some m => normalize_number (Re.group m 1) (Re.group m 2)
  | None =>
      let pattern_before := Re.compile liquidity_pattern_before in
      match Re.search true pattern_before t with
      | Some m => normalize_number (Re.group m 1) (Re.group m 2)
      | None =>
          let pattern_after := Re.compile liquidity_pattern_after in
          match Re.search true pattern_after t with
          | Some m => normalize_number (Re.group m 1) (Re.group m 2)
          | None => None
          end
      end
  end.

Definition free_cash_flow_pattern : string :=
  "free\s+cash\s+flow\s*(?:of|was|were)?\s*\$?\s*([\d]{1,3}(?:,\d{3})*(?:\.\d+)?|\d+(?:\.\d+)?)\s*" ++
  "(billion|million|thousand|k|bn|mn|mm|m|b)?".

(** The text is not cleaned here. *)
Definition parse_free_cash_flow (text : string) : option float :=
  let t := text in
  let pattern := Re.compile free_cash_flow_pattern in
  match Re.search true pattern t with
  | Some m =>
      let number_str := Re.group m 1 in
      let unit := Re.group m 2 in
      normalize_number number_str unit
  | None => None
  end.

Definition interest_expense_pattern_after : string :=
  "interest\s+expense(?:\s+\w+){0,5}?\s*" ++
  "(?:was|were|is|of|at|to|for|totaled|amounted to|came in at|reported at|reached)?\s*" ++
  "(?:approximately|about|around|nearly|over|~)?\s*" ++
  "\$?\s*([\d,\.]+)\s*" ++
  "(billion|million|thousand|k|bn|mn|mm|m|b)?".

Definition interest_expense_pattern_before : string :=
  "\$?\s*([\d,\.]+)\s*" ++
  "(billion|million|thousand|k|bn|mn|mm|m|b)?" ++
  "(?:\s+\w+){0,5}?\s+interest\s+expense".

Definition parse_interest_expense (text : string) : option float :=
  let t := clean_text text in
  let pattern_after := Re.compile interest_expense_pattern_after in
  match Re.search true pattern_after t with
  | Some m => normalize_number (Re.group m 1) (Re.group m 2)
  | None =>
      let pattern_before := Re.compile interest_expense_pattern_before in
      match Re.search true pattern_before t with
      | Some m => normalize_number (Re.group m 1) (Re.group m 2)
      | None => None
      end
  end.

Definition adjusted_net_income_before : string :=
  "\$?\s*([\d]{1,3}(?:,\d{3})+|\d+(?:\.\d+)?)\s*" ++
  "(billion|million|thousand|bn|mn|mm|m|b|k)?" ++
  "(?:\s+\w+){0,3}?\s+adjusted\s+net\s+income\b".

Definition adjusted_net_income_after : string :=
  "\badjusted\s+net\s+income(?:\s+\w+){0,3}?\s*" ++
  "(?:was|were|is|of|at|totaled|amounted to|came in at|reported at|reached|came to)?\s*" ++
  "(?:approximately|about|around|nearly|over|~)?\s*" ++
  "\$?\s*([\d]{1,3}(?:,\d{3})+|\d+(?:\.\d+)?)\s*" ++
  "(billion|million|thousand|bn|mn|mm|m|b|k)\b".

Definition parse_adjusted_net_income (text : string) : option float :=
  let t := clean_text text in
  match Re.search true (Re.compile adjusted_net_income_before) t with
  | Some m => normalize_number (Re.group m 1) (Re.group m 2)
  | None =>
      match Re.search true (Re.compile adjusted_net_income_after) t with
      | Some m => normalize_number (Re.group m 1) (Re.group m 2)
      | None => None
      end
  end.

Definition num_unit_number_pattern : string := "\$?([\d,.]+)".
Definition num_unit_unit_pattern : string :=
  "(billion|million|thousand|bn|mn|mm|m|b|k)".

(** The number and the unit [parse_gaap_operating_income] takes out of
    the captured [num_unit], then normalized; [None] when the stage
    falls through ([if number:] is false). *)
Definition split_num_unit (num_unit : string) : option (option float) :=
  let num_match := Re.match_ false (Re.compile num_unit_number_pattern) num_unit in
  let unit_match :=
    Re.search true (Re.compile num_unit_unit_pattern) num_unit in
  let number := match num_match with Some nm => Re.group nm 1 | None => None end in
  let unit := match unit_match with Some um => Re.group um 1 | None => None end in
  match number with
  | Some EmptyString => None
  | Some n => Some (normalize_number (Some n) unit)
  | None => None
  end.

Definition gaap_operating_income_pattern : string :=
  "(\$?[\d,.]+(?:\.\d+)?(?:\s*(?:billion|million|thousand|bn|mn|mm|m|b|k))?)" ++
  "(?:\s*(?:of|in|for|quarterly|this quarter)?)\s*gaap operating income".

Definition gaap_operating_income_pattern_after : string :=
  "gaap operating income\s*(?:was|were|of|at|totaled|amounted to|came in at|reported at|reached)?\s*(\$?[\d,.]+(?:\.\d+)?(?:\s*(?:billion|million|thousand|bn|mn|mm|m|b|k))?)".

Definition parse_gaap_operating_income (text : string) : option float :=
  let t := clean_text text in
  let pattern := Re.compile gaap_operating_income_pattern in
  let after (_ : unit) :=
    let pattern_after := Re.compile gaap_operating_income_pattern_after in
    match Re.search true pattern_after t with
    | Some m =>
        match split_num_unit (or_empty (Re.group m 1)) with
        | Some ret => ret
        | None => None
        end
    | None => None
    end in
  match Re.search true pattern t with
  | Some m =>
      match split_num_unit (or_empty (Re.group m 1)) with
      | Some ret => ret
      | None => after tt
      end
  | None => after tt
  end.

Definition total_available_liquidity_pattern_before : string :=
  "\$?\s*([\d,\.]+)\s*(billion|million|thousand|k|bn|mn|mm|m|b)?\s+of\s+total\s+available\s+liquidity".

Definition total_available_liquidity_pattern_after : string :=
  "total\s+available\s+liquidity\s*(?:was|were|of|at|totaled|amounted to|reported at|came in at|stood at|reached)?\s*\$?\s*([\d,\.]+)\s*(billion|million|thousand|k|bn|mn|mm|m|b)?".

Definition parse_total_available_liquidity (text : string) : option float :=
  let t := clean_text text in
  let pattern_before := Re.compile total_available_liquidity_pattern_before in
  match Re.search true pattern_before t with
  | Some m => normalize_number (Re.group m 1) (Re.group m 2)
  | None =>
      let pattern_after := Re.compile total_available_liquidity_pattern_after in
      match Re.search true pattern_after t with
      | Some m => normalize_number (Re.group m 1) (Re.group m 2)
      | None => parse_available_liquidity text
      end
  end.

(** ** The program: sentence classifiers *)

(** [[s.text.strip() for s in doc.sents if keep(s.text)]]. *)
Definition sentences_where (keep : string -> bool) (text : string) : list string :=
  map strip (filter keep (nlp_sents (clean_text text))).

(** [any(x in s for x in words)]. *)
Definition any_in (words : list string) (s : string) : bool :=
  existsb (fun x => contains x s) words.

(** [re.search(pat, s, re.IGNORECASE)] as a condition. *)
Definition found (pat : string) (s : string) : bool :=
  is_some (Re.search true (Re.compile pat) s).

Definition year_over_year_pattern : string := "year[-\s]?over[-\s]?year".
Definition raising_pattern : string := "\brais(?:e|ed|ing)\b".
Definition refinance_pattern : string := "\brefinanc(?:e|ed)\b".
Definition challenge_pattern : string := "\bchalleng(?:e|ed|ing|es)\b".

Definition extract_demand_sentences (text : string) : list string :=
  sentences_where (fun s => contains "demand" (lower s)) text.

Definition extract_forward_looking_statements (text : string) : list string :=
  let phrases := ["we expect"; "we anticipate"; "looking ahead"; "we forecast";
                  "we believe"; "we see"; "we project"] in
  sentences_where (fun s => any_in phrases (lower s)) text.

Definition extract_prior_year_comparisons (text : string) : list string :=
  sentences_where
    (fun s => any_in ["prior year"; "last year"; "last year's"] (lower s)) text.

Definition extract_year_over_year_sentences (text : string) : list string :=
  sentences_where (found year_over_year_pattern) text.

Definition extract_guidance_sentences (text : string) : list string :=
  sentences_where (fun s => contains "guidance" (lower s)) text.

Definition extract_compared_to_sentences (text : string) : list string :=
  sentences_where (fun s => contains "compared to" (lower s)) text.

Definition extract_raising_sentences (text : string) : list string :=
  sentences_where (found raising_pattern) text.

Definition extract_refinance_sentences (text : string) : list string :=
  sentences_where (found refinance_pattern) text.

Definition extract_production_sentences (text : string) : list string :=
  sentences_where (fun s => contains "production" (lower s)) text.

Definition extract_outlook_sentences (text : string) : list string :=
  let keywords := ["outlook"; "expectation"; "expectations"; "forecast"] in
  sentences_where (fun s => any_in keywords (lower s)) text.

Definition extract_challenge_sentences (text : string) : list string :=
  sentences_where (found challenge_pattern) text.

(** ** The program: the orchestrator *)

(** The assignments of [extract_metrics] before the pruning: one key
    per matcher, in the order of the source. A matcher that raises
    ends the extraction. [parse_orders] is the first to call [nlp], on
    the cleaned text, as every later call does: the call is refused
    there or never. *)
Definition metric_results (text : string) : res dict :=
  let results : dict := [] in
  let results := dict_set "revenue" (of_opt (parse_revenue text)) results in
  let results := dict_set "consolidated_net_sales" (of_opt (parse_consolidated_net_sales text)) results in
  let results := dict_set "consolidated_operating_income" (of_opt (parse_consolidated_operating_income text)) results in
  nlp_check (clean_text text) ;;
  let results := dict_set "orders" (of_opt (parse_orders text)) results in
  let results := dict_set "total_orders" (of_opt (parse_total_orders text)) results in
  let results := dict_set "marketplace_gov" (of_opt (parse_marketplace_gov text)) results in
  let results := dict_set "adjusted_ebitda" (of_opt (parse_adjusted_ebitda text)) results in
  let results := dict_set "lumber_segment_adjusted_ebitda" (of_opt (parse_lumber_segment_adjusted_ebitda text)) results in
  let results := dict_set "available_liquidity" (of_opt (parse_available_liquidity text)) results in
  let results := dict_set "liquidity" (of_opt (parse_liquidity text)) results in
  let results := dict_set "net_cash_balance" (of_opt (parse_net_cash_balance text)) results in
  let results := dict_set "credit_facility" (of_opt (parse_credit_facility text)) results in
  let results := dict_set "cash_flow" (of_opt (parse_cash_flow text)) results in
  net_revenue_margin <- parse_net_revenue_margin text ;;
  let results := dict_set "net_revenue_margin" (of_opt net_revenue_margin) results in
  let results := dict_set "gaap_net_income" (of_opt (parse_gaap_net_income text)) results in
  let results := dict_set "net_income" (of_opt (parse_net_income text)) results in
  let results := dict_set "gaap_diluted_eps" (of_opt (parse_gaap_diluted_eps text)) results in
  let results := dict_set "adjusted_eps" (of_opt (parse_adjusted_eps text)) results in
  actual_eps <- parse_actual_eps text ;;
  let results := dict_set "actual_eps" (of_opt actual_eps) results in
  let results := dict_set "share_buybacks_and_dividends" (of_opt (parse_share_buybacks_and_dividends text)) results in
  let results := dict_set "combined_rate_ar6" (of_opt (parse_combined_rate_ar6 text)) results in
  let results := dict_set "total_net_sales" (of_opt (parse_total_net_sales text)) results in
  let results := dict_set "free_cash_flow" (of_opt (parse_free_cash_flow text)) results in
  let results := dict_set "interest_expense" (of_opt (parse_interest_expense text)) results in
  let results := dict_set "adjusted_net_income" (of_opt (parse_adjusted_net_income text)) results in
  let results := dict_set "gaap_operating_income" (of_opt (parse_gaap_operating_income text)) results in
  let results := dict_set "total_available_liquidity" (of_opt (parse_total_available_liquidity text)) results in
  Ok results.

(** The assignments of [extract_metrics] after the pruning. *)
Definition add_narrative (text : string) (results : dict) : dict :=
  let results := dict_set "guidance" (VList (extract_guidance_sentences text)) results in
  let results := dict_set "forward_look" (VList (extract_forward_looking_statements text)) results in
  let results := dict_set "prior_year_mentions" (VList (extract_prior_year_comparisons text)) results in
  let results := dict_set "year_over_year_mentions" (VList (extract_year_over_year_sentences text)) results in
  let results := dict_set "compared_to_mentions" (VList (extract_compared_to_sentences text)) results in
  let results := dict_set "raising_mentions" (VList (extract_raising_sentences text)) results in
  let results := dict_set "refinance_mentions" (VList (extract_refinance_sentences text)) results in
  let results := dict_set "production" (VList (extract_production_sentences text)) results in
  let results := dict_set "outlook" (VList (extract_outlook_sentences text)) results in
  let results := dict_set "demand_mentions" (VList (extract_demand_sentences text)) results in
  let results := dict_set "challenge_mentions" (VList (extract_challenge_sentences text)) results in
  results.

Definition extract_metrics (text : string) : res dict :=
  results <- metric_results text ;;
  let results := remove_null_metrics results in
  Ok (add_narrative text results).

(** ** The program: document identity *)

(** (ticker, quarter, year, earnings_date). *)
Definition identity : Type :=
  (option string * option string * option string * option string)%type.

Definition ticker_pattern : string := "\(([A-Z]+):([A-Z]+)\)".
Definition quarter_year_pattern : string := "\b(Q[1-4])\s+(\d{4})\b".
Definition date_pattern : string :=
  "(January|February|March|April|May|June|July|August|September|October|November|December)\s+\d{1,2},\s+\d{4}".
Definition filename_year_pattern : string := "\d{4}".

Definition extract_ticker_quarter_year_date (text : string) : identity :=
  let first_lines := join (String "010" "") (firstn 3 (split_char "010" text)) in
  let ticker_match := Re.search false (Re.compile ticker_pattern) first_lines in
  let quarter_year_match := Re.search false (Re.compile quarter_year_pattern) first_lines in
  let date_match := Re.search false (Re.compile date_pattern) first_lines in
  let ticker := match ticker_match with Some m => Re.group m 2 | None => None end in
  let quarter := match quarter_year_match with Some m => Re.group m 1 | None => None end in
  let year := match quarter_year_match with Some m => Re.group m 2 | None => None end in
  let earnings_date := match date_match with Some m => Re.group m 0 | None => None end in
  (ticker, quarter, year, earnings_date).

(** The position of the last [.] of [s], if any. *)
Fixpoint rfind_dot (i : nat) (s : string) : option nat :=
  match s with
  | EmptyString => None
  | String c s' =>
      match rfind_dot (S i) s' with
      | Some j => Some j
      | None => if Ascii.eqb c "." then Some i else None
      end
  end.

(** [Path(file_name).stem] for a final path component: the name without
    its last suffix; a leading or trailing dot starts no suffix. *)
Definition stem (file_name : string) : string :=
  match rfind_dot 0 file_name with
  | Some i =>
      if (0 <? i)%nat && (i <? String.length file_name - 1)%nat
      then Re.take i file_name else file_name
  | None => file_name
  end.

(** [parts[2:-1]]. *)
Definition middle (parts : list string) : list string :=
  skipn 2 (removelast parts).

Definition extract_from_filename (file_name : string) : identity :=
  let name := stem file_name in
  let parts := split_char "_" name in
  let ticker := match parts with p0 :: _ => Some (upper p0) | [] => None end in
  let quarter := match parts with _ :: p1 :: _ => Some p1 | _ => None end in
  if (4 <=? List.length parts)%nat
     && is_some (Re.match_ false (Re.compile filename_year_pattern) (last parts EmptyString))
  then
    let year := last parts EmptyString in
    let month_day := join " " (middle parts) in
    (ticker, quarter, Some year, Some (month_day ++ " " ++ year))
  else (ticker, quarter, None, None).

(** [not x] for an optional string. *)
Definition py_not (x : option string) : bool :=
  match x with
  | None => true
  | Some EmptyString => true
  | Some _ => false
  end.

(** The identity [parse_transcript_file] keeps. *)
Definition resolve_identity (text file_name : string) : identity :=
  let '(ticker, quarter, year, earnings_date) := extract_ticker_quarter_year_date text in
  if py_not ticker || py_not quarter || py_not year || py_not earnings_date
  then extract_from_filename file_name
  else (ticker, quarter, year, earnings_date).

Record transcript := Transcript {
  r_ticker : option string;
  r_quarter : option string;
  r_year : option string;
  r_earnings_date : option string;
  r_file_name : string;
  r_metrics : dict
}.

(** [text] is the content read from the file, [file_name] is
    [file_path.name]. *)
Definition parse_transcript_file (text file_name : string) : res transcript :=
  let '(ticker, quarter, year, earnings_date) := resolve_identity text file_name in
  metrics <- extract_metrics text ;;
  Ok (Transcript ticker quarter year earnings_date file_name metrics).

End Program.

(** ** The program: the margin matcher nothing calls, and the batch *)

(** [hay.find(needle)]: the index of the first occurrence; [None] is
    [-1]. *)
Fixpoint str_find (needle hay : string) (i : nat) : option nat :=
  if String.prefix needle hay then Some i
  else match hay with
       | EmptyString => None
       | String _ hay' => str_find needle hay' (S i)
       end.

(** [s[n:]]. *)
Fixpoint drop (n : nat) (s : string) : string :=
  match n, s with
  | S n', String _ s' => drop n' s'
  | _, _ => s
  end.

Definition net_income_margin_pattern : string := "([\d,.]+)\s*%".

(** [parse_net_income_margin] from [t = clean_text(text).lower()] on. *)
Definition net_income_margin_in (t : string) : option float :=
  match str_find "net income margin" t 0 with
  | None => None
  | Some keyword_pos =>
      let snippet := Re.take 200 (drop keyword_pos t) in
      match Re.search false (Re.compile net_income_margin_pattern) snippet with
      | Some m => float_of_group (Re.group m 1)
      | None => None
      end
  end.

Definition parse_net_income_margin (text : string) : option float :=
  net_income_margin_in (lower (clean_text text)).

(** Whether a directory entry matches [*.txt]. *)
Fixpoint ends_with_txt (name : string) : bool :=
  String.eqb name ".txt" ||
  match name with
  | EmptyString => false
  | String _ name' => ends_with_txt name'
  end.

(** An entry of the input directory: its name, and what opening it and
    reading it as UTF-8 gives: the text, or the exception raised (an
    [OSError] for a directory or an unreadable file, a
    [UnicodeDecodeError] for bytes that do not decode). *)
Definition entry : Type := (string * res string)%type.

(** The entries [INPUT_DIR.glob("*.txt")] yields, in its order. *)
Definition txt_entries (directory : list entry) : list entry :=
  filter (fun f => ends_with_txt (fst f)) directory.

Section Batch.

Variable nlp_sents : string -> list string.

(** Creating the output directory, opening the output file and writing
    the list as JSON: done, or the exception raised. *)
Variable dump : list transcript -> res unit.

(** [parse_transcript_file(file_path)] from the entry met at
    [file_path]: nothing is computed when the read raises. *)
Definition parse_entry (f : entry) : res transcript :=
  text <- snd f ;;
  parse_transcript_file nlp_sents text (fst f).

(** The loop of [main] over the entries [glob] yields, in its order.
    The first entry that raises ends the run. *)
Fixpoint parse_files (files : list entry) : res (list transcript) :=
  match files with
  | [] => Ok []
  | f :: files' =>
      r <- parse_entry f ;;
      rs <- parse_files files' ;;
      Ok (r :: rs)
  end.

(** [main], from the entries of the input directory to the list it
    has written; nothing is written when an entry raises. *)
Definition main (directory : list entry) : res (list transcript) :=
  parsed_results <- parse_files (txt_entries directory) ;;
  dump parsed_results ;;
  Ok parsed_results.

End Batch.
(** * Notions the statements use *)

(** ** Normalized text *)

(** Every maximal run of whitespace becomes one space. [in_run] tells
    that the previous character was whitespace. *)
Fixpoint sub_ws (in_run : bool) (s : string) : string :=
  match s with
  | EmptyString => EmptyString
  | String c s' =>
      if is_space c then
        if in_run then sub_ws true s' else String " " (sub_ws true s')
      else String c (sub_ws false s')
  end.

(** A text is collapsed when its only whitespace characters are spaces
    and no two of them are adjacent; [after_ws] tells that a whitespace
    character stands just before [s]. *)
Fixpoint collapsed (after_ws : bool) (s : string) : bool :=
  match s with
  | EmptyString => true
  | String c s' =>
      if is_space c then Ascii.eqb c " " && negb after_ws && collapsed true s'
      else collapsed false s'
  end.

(** A text is normalized when it is collapsed and neither starts nor
    ends with whitespace. *)
Definition normalized (s : string) : Prop :=
  collapsed true s = true /\ rstrip s = s.

(** ** What a successful match guarantees *)

Module ReSpec.
Import Re.

(** [nonnull r]: by its shape, [r] matches no empty text. *)
Fixpoint nonnull (r : regex) : bool :=
  match r with
  | RChar _ | RAny | RSet _ _ => true
  | RSeq a b => nonnull a || nonnull b
  | RAlt a b => nonnull a && nonnull b
  | RRep _ lo _ a => (0 <? lo)%nat && nonnull a
  | RGroup _ a => nonnull a
  | REmpty | RBol | REol | RWordB => false
  end.

(** [groups_nonnull r]: every capturing group of [r] encloses a pattern
    that matches no empty text. *)
Fixpoint groups_nonnull (r : regex) : bool :=
  match r with
  | RSeq a b | RAlt a b => groups_nonnull a && groups_nonnull b
  | RRep _ _ _ a => groups_nonnull a
  | RGroup _ a => nonnull a && groups_nonnull a
  | _ => true
  end.

(** [c'] is further along the same subject than [c]. *)
Definition extends (c c' : cursor) : Prop :=
  exists pre, rest c = pre ++ rest c' /\ pos c' = (pos c + String.length pre)%nat.

Definition all_nonempty (g : groups) : Prop :=
  forall n t, In (n, t) g -> t <> EmptyString.

(** What a piece [f] of the matcher guarantees when it succeeds: the
    continuation succeeded with the same outcome at a cursor further
    along; strictly further when [strict]; and, when [gn], captures
    stay non-empty. *)
Definition sound (strict gn : bool)
    (f : cursor -> groups -> cont -> option outcome) : Prop :=
  forall c g k o, f c g k = Some o ->
  exists c' g', k c' g' = Some o /\ extends c c' /\
    (strict = true -> (pos c < pos c')%nat) /\
    (gn = true -> all_nonempty g -> all_nonempty g').

Definition is_newline (a : ascii) : bool := Ascii.eqb a "010".

(** The continuation that accepts wherever the pattern ends. *)
Definition accept : cont := fun c g => Some (c, g).

(** The cursor after the longest run of characters satisfying [p]. *)
Fixpoint skip_run (p : ascii -> bool) (n : nat) (before : option ascii) (s : string)
  : cursor :=
  match s with
  | String a s' => if p a then skip_run p (S n) (Some a) s' else Cursor n before s
  | EmptyString => Cursor n before EmptyString
  end.

(** The leftmost run of whitespace, as a match. *)
Fixpoint find_ws (n : nat) (before : option ascii) (s : string) : option rmatch :=
  match s with
  | EmptyString => None
  | String a s' =>
      if is_space a
      then Some (RMatch (Cursor n before s) (skip_run is_space (S n) (Some a) s') [])
      else find_ws (S n) (Some a) s'
  end.

(** The continuation of a pattern that ends with [$]. *)
Definition stop_at_end : cont :=
  fun c g => if at_end c then Some (c, g) else None.

End ReSpec.

(** ** The spoken-number decoder, as the specification words it *)

Fixpoint str_forallb (p : ascii -> bool) (s : string) : bool :=
  match s with
  | EmptyString => true
  | String c s' => p c && str_forallb p s'
  end.

(** A literal digit run: one or more digits and nothing else. *)
Definition digit_run (tok : string) : bool :=
  match tok with
  | EmptyString => false
  | _ => str_forallb is_digit tok
  end.

(** The digits a recognized token stands for: a number-word below one
    hundred gives its decimal writing, the fillers give [0], a digit run
    gives itself; any other token is unrecognized. *)
Definition recognized (tok : string) : option string :=
  match num_word tok NUM_WORDS with
  | Some n => if (n <? 100)%nat then Some (Conv.string_of_nat n) else None
  | None =>
      if String.eqb tok "oh" || String.eqb tok "o" then Some "0"
      else if digit_run tok then Some tok
      else None
  end.

Fixpoint take_while {A : Type} (p : A -> bool) (l : list A) : list A :=
  match l with
  | [] => []
  | x :: l' => if p x then x :: take_while p l' else []
  end.

(** The integer a string of decimal digits writes, most significant
    digit first. *)
Fixpoint decimal_from (acc : Z) (digits : string) : Z :=
  match digits with
  | EmptyString => acc
  | String c s' => decimal_from (10 * acc + Conv.digit_val c)%Z s'
  end.

Definition decimal_value (digits : string) : Z := decimal_from 0 digits.

(** Tokenize on whitespace, consume the leading recognized tokens,
    concatenate their digits, read the result as one integer; no value
    when no token was consumed. *)
Definition decode_spoken (span : string) : option Z :=
  let consumed := take_while (fun tok => is_some (recognized tok))
                             (split_ws (lower span)) in
  match consumed with
  | [] => None
  | _ =>
      Some (decimal_value
              (String.concat "" (map (fun tok => or_empty (recognized tok)) consumed)))
  end.

(** The digits of the leading recognized tokens of a span, concatenated. *)
Definition spoken_digit_string (span : string) : string :=
  String.concat ""
    (map (fun tok => or_empty (recognized tok))
         (take_while (fun tok => is_some (recognized tok)) (split_ws (lower span)))).

(** [n] times the character [c]. *)
Fixpoint repeat_char (c : ascii) (n : nat) : string :=
  match n with
  | O => EmptyString
  | S n' => String c (repeat_char c n')
  end.

(** A span of one token: the digit 1, 4301 times. *)
Definition long_digit_run : string := repeat_char "1" 4301.

(** ** Scale units *)

(** The unit tokens of the three families. *)
Definition scale_words : list string :=
  ["billion"; "bn"; "b"; "million"; "mn"; "mm"; "m"; "thousand"; "k"].

(** ** The result mapping *)

Definition narrative_keys : list string :=
  ["guidance"; "forward_look"; "prior_year_mentions"; "year_over_year_mentions";
   "compared_to_mentions"; "raising_mentions"; "refinance_mentions"; "production";
   "outlook"; "demand_mentions"; "challenge_mentions"].

(** Which matcher's value each metric key is assigned, [nrm] and [eps]
    being what the two matchers that can raise returned. *)
Definition metric_table (nlp : string -> list string) (text : string)
    (nrm eps : option float) : dict :=
  [ ("revenue", of_opt (parse_revenue text));
    ("consolidated_net_sales", of_opt (parse_consolidated_net_sales text));
    ("consolidated_operating_income", of_opt (parse_consolidated_operating_income text));
    ("orders", of_opt (parse_orders nlp text));
    ("total_orders", of_opt (parse_total_orders text));
    ("marketplace_gov", of_opt (parse_marketplace_gov text));
    ("adjusted_ebitda", of_opt (parse_adjusted_ebitda text));
    ("lumber_segment_adjusted_ebitda", of_opt (parse_lumber_segment_adjusted_ebitda text));
    ("available_liquidity", of_opt (parse_available_liquidity text));
    ("liquidity", of_opt (parse_liquidity text));
    ("net_cash_balance", of_opt (parse_net_cash_balance text));
    ("credit_facility", of_opt (parse_credit_facility text));
    ("cash_flow", of_opt (parse_cash_flow nlp text));
    ("net_revenue_margin", of_opt nrm);
    ("gaap_net_income", of_opt (parse_gaap_net_income text));
    ("net_income", of_opt (parse_net_income nlp text));
    ("gaap_diluted_eps", of_opt (parse_gaap_diluted_eps text));
    ("adjusted_eps", of_opt (parse_adjusted_eps nlp text));
    ("actual_eps", of_opt eps);
    ("share_buybacks_and_dividends", of_opt (parse_share_buybacks_and_dividends text));
    ("combined_rate_ar6", of_opt (parse_combined_rate_ar6 text));
    ("total_net_sales", of_opt (parse_total_net_sales text));
    ("free_cash_flow", of_opt (parse_free_cash_flow text));
    ("interest_expense", of_opt (parse_interest_expense text));
    ("adjusted_net_income", of_opt (parse_adjusted_net_income text));
    ("gaap_operating_income", of_opt (parse_gaap_operating_income text));
    ("total_available_liquidity", of_opt (parse_total_available_liquidity text)) ].

(** No string occurs twice. *)
Fixpoint distinct (l : list string) : bool :=
  match l with
  | [] => true
  | x :: l' => negb (mem x l') && distinct l'
  end.

(** ** Example documents *)

(** "revenue" with a near number, then, more than forty words later, a
    dollar literal of seven digits. *)
Definition revenue_then_literal : string :=
  "Total revenue was 500 million this quarter during the period our teams " ++
  "across every region continued to execute on the plan we shared with " ++
  "investors last spring while costs stayed flat and hiring slowed as " ++
  "expected before the board approved a one time legal settlement payment " ++
  "of $1,234,567 in fees".

(** A transcript whose first lines resolve the four identity fields. *)
Definition header_example : string :=
  "Acme Corp (NYSE:ACME) Q3 2024 Earnings Call" ++ String "010" (
  "October 24, 2024" ++ String "010" (
  "Operator: Good morning and welcome.")).

(** ** The patterns of the program *)

(** Every pattern the program compiles, the generic one of [parse_metric]
    at each keyword it is called with. *)
Definition program_patterns : list string :=
  [ whitespace_pattern; digit_token_pattern; metric_pattern "consolidated net sales";
    metric_pattern "consolidated operating income"; metric_pattern "marketplace gov";
    metric_pattern "total orders"; metric_pattern "gaap net income";
    metric_pattern "available liquidity"; revenue_pattern; revenue_fallback_pattern;
    net_income_pattern; adjusted_ebitda_pattern_after; adjusted_ebitda_pattern_before;
    available_liquidity_pattern; net_cash_balance_pattern; credit_facility_pattern;
    share_buybacks_and_dividends_pattern; share_buybacks_and_dividends_pattern_rev;
    combined_rate_ar6_pattern; lumber_segment_adjusted_ebitda_pattern; orders_pattern;
    cash_flow_pattern; gaap_diluted_eps_pattern; adjusted_eps_pattern;
    loss_marker_pattern; actual_eps_pattern; actual_eps_spoken_pattern;
    net_revenue_margin_pattern; total_net_sales_pattern; total_net_sales_pattern2;
    liquidity_pattern_total; liquidity_pattern_before; liquidity_pattern_after;
    free_cash_flow_pattern; interest_expense_pattern_after;
    interest_expense_pattern_before; adjusted_net_income_before;
    adjusted_net_income_after; num_unit_number_pattern; num_unit_unit_pattern;
    gaap_operating_income_pattern; gaap_operating_income_pattern_after;
    total_available_liquidity_pattern_before; total_available_liquidity_pattern_after;
    year_over_year_pattern; raising_pattern; refinance_pattern; challenge_pattern;
    ticker_pattern; quarter_year_pattern; date_pattern; filename_year_pattern ].

(** * Notions the further properties use *)

(** ** The texts a pattern can match *)

Module ReLang.
Import Re.

(** [n] texts of [L], one after the other. *)
Fixpoint iter (L : string -> Prop) (n : nat) (w : string) : Prop :=
  match n with
  | O => w = EmptyString
  | S n' => exists u v, w = (u ++ v)%string /\ L u /\ iter L n' v
  end.

Section Lang.
Variable ignorecase : bool.

(** [lang r w]: by the shape of [r] alone, [w] is a text [r] can
    consume (anchors and word boundaries consume nothing and are not
    checked; greedy and lazy repetitions consume the same texts). *)
Fixpoint lang (r : regex) (w : string) : Prop :=
  match r with
  | REmpty | RBol | REol | RWordB => w = EmptyString
  | RChar x => exists a, w = String a EmptyString /\ char_matches ignorecase x a = true
  | RAny => exists a, w = String a EmptyString /\ Ascii.eqb a "010" = false
  | RSet neg items =>
      exists a, w = String a EmptyString /\ set_matches ignorecase neg items a = true
  | RSeq a b => exists u v, w = (u ++ v)%string /\ lang a u /\ lang b v
  | RAlt a b => lang a w \/ lang b w
  | RGroup _ a => lang a w
  | RRep _ lo hi a =>
      exists n, (lo <= n)%nat /\
                match hi with Some h => (n <= lo + (h - lo))%nat | None => True end /\
                iter (lang a) n w
  end.

(** [glang r n t]: group [n] of [r] can capture [t]. *)
Fixpoint glang (r : regex) (n : nat) (t : string) : Prop :=
  match r with
  | RGroup m a => (m = n /\ lang a t) \/ glang a n t
  | RSeq a b | RAlt a b => glang a n t \/ glang b n t
  | RRep _ _ _ a => glang a n t
  | _ => False
  end.

(** What a piece [f] of the matcher guarantees when it succeeds: the
    continuation succeeded with the same outcome after a text of [L]
    was consumed, and every capture is an old one or one of [G]. *)
Definition consumes (L : string -> Prop) (G : nat -> string -> Prop)
    (f : cursor -> groups -> cont -> option outcome) : Prop :=
  forall c g k o, f c g k = Some o ->
  exists c' g' w, k c' g' = Some o /\
    rest c = (w ++ rest c')%string /\ pos c' = (pos c + String.length w)%nat /\
    L w /\ (forall n t, In (n, t) g' -> In (n, t) g \/ G n t).

End Lang.

(** *** Two analyses of a pattern *)

Definition all_ascii : list ascii := map ascii_of_nat (seq 0 256).

(** [chars_ok ic p r]: every character [r] can consume satisfies [p]. *)
Fixpoint chars_ok (ic : bool) (p : ascii -> bool) (r : regex) : bool :=
  match r with
  | RChar x => forallb (fun a => implb (char_matches ic x a) (p a)) all_ascii
  | RAny => forallb (fun a => implb (negb (Ascii.eqb a "010")) (p a)) all_ascii
  | RSet neg items => forallb (fun a => implb (set_matches ic neg items a) (p a)) all_ascii
  | RSeq a b | RAlt a b => chars_ok ic p a && chars_ok ic p b
  | RRep _ _ _ a | RGroup _ a => chars_ok ic p a
  | REmpty | RBol | REol | RWordB => true
  end.

(** [group_chars ic p n r]: every character group [n] of [r] can capture
    satisfies [p]. *)
Fixpoint group_chars (ic : bool) (p : ascii -> bool) (n : nat) (r : regex) : bool :=
  match r with
  | RGroup m a => (negb (Nat.eqb m n) || chars_ok ic p a) && group_chars ic p n a
  | RSeq a b | RAlt a b => group_chars ic p n a && group_chars ic p n b
  | RRep _ _ _ a => group_chars ic p n a
  | _ => true
  end.

(** [lit_prefix kw r]: every text of [r] starts, letter case apart,
    with the lower-case word [kw]. *)
Fixpoint lit_prefix (kw : string) (r : regex) : bool :=
  match kw with
  | EmptyString => true
  | String k kw' =>
      match r with
      | RChar x =>
          Ascii.eqb (lower_char x) k && match kw' with EmptyString => true | _ => false end
      | RSeq (RChar x) b => Ascii.eqb (lower_char x) k && lit_prefix kw' b
      | _ => false
      end
  end.

(** [needs kws r]: every text of [r] contains, letter case apart, one
    of the lower-case words [kws]. *)
Fixpoint needs (kws : list string) (r : regex) : bool :=
  existsb (fun kw => lit_prefix kw r) kws ||
  match r with
  | RSeq a b => needs kws a || needs kws b
  | RAlt a b => needs kws a && needs kws b
  | RGroup _ a => needs kws a
  | RRep _ lo _ a => (0 <? lo)%nat && needs kws a
  | _ => false
  end.

End ReLang.


(** ** Keywords a metric cannot do without *)

(** One of [kws] occurs in [t], whatever the case of [t]'s letters. *)
Definition mentions (kws : list string) (t : string) : bool :=
  existsb (fun kw => contains kw (lower t)) kws.

(** For the metric keys whose matchers search the cleaned text as a
    whole: lower-case texts one of which every match contains. *)
Definition metric_keywords : list (string * list string) :=
  [ ("revenue", ["revenue"]);
    ("consolidated_net_sales", ["consolidated net sales"]);
    ("consolidated_operating_income", ["consolidated operating income"]);
    ("total_orders", ["total orders"]);
    ("marketplace_gov", ["marketplace gov"]);
    ("adjusted_ebitda", ["ebitda"]);
    ("lumber_segment_adjusted_ebitda", ["lumber segment"]);
    ("available_liquidity", ["liquidity"]);
    ("liquidity", ["liquidity"]);
    ("net_cash_balance", ["net cash balance"]);
    ("credit_facility", ["credit facility"]);
    ("net_revenue_margin", ["net revenue margin"]);
    ("gaap_net_income", ["gaap net income"]);
    ("gaap_diluted_eps", ["gaap diluted eps"]);
    ("actual_eps", ["actual"]);
    ("share_buybacks_and_dividends",
     ["share buybacks"; "share repurchases"; "dividends"]);
    ("combined_rate_ar6", ["preliminary combined rate for ar6"]);
    ("total_net_sales", ["sales"]);
    ("interest_expense", ["interest"]);
    ("adjusted_net_income", ["adjusted"]);
    ("gaap_operating_income", ["gaap operating income"]);
    ("total_available_liquidity", ["liquidity"]) ].

(** ** Texts the pipeline refuses *)

(** The cleaned text has more than 1,000,000 characters. *)
Definition over_max_length (text : string) : bool :=
  (1000000 <? Z.of_nat (String.length (clean_text text)))%Z.

(** ** Entries of the batch *)

Section Entries.
Variable nlp : string -> list string.

(** An entry is parsed when it is read and its extraction returns. *)
Definition parsed (f : entry) : Prop :=
  exists text d, snd f = Ok text /\ extract_metrics nlp text = Ok d.

(** An entry fails with [e] when reading it raises [e], or it is read
    and its extraction raises [e]. *)
Definition fails (f : entry) (e : exn) : Prop :=
  snd f = Raise e \/ exists text, snd f = Ok text /\ extract_metrics nlp text = Raise e.

(** The record of an entry. *)
Definition record_of (r : transcript) (f : entry) : Prop :=
  r_file_name r = fst f /\
  exists text,
    snd f = Ok text /\ extract_metrics nlp text = Ok (r_metrics r) /\
    (r_ticker r, r_quarter r, r_year r, r_earnings_date r) = resolve_identity text (fst f).

End Entries.

(** ** Headers that resolve the identity *)

(** The header gives a non-empty value for each of the four fields. *)
Definition header_complete (text : string) : bool :=
  let '(ticker, quarter, year, earnings_date) := extract_ticker_quarter_year_date text in
  negb (py_not ticker || py_not quarter || py_not year || py_not earnings_date).

(** ** Sentences a per-sentence matcher reads *)

Definition orders_sentence (s : string) : bool := contains "orders" (lower s).

Definition cash_flow_sentence (s : string) : bool :=
  negb (contains "free cash flow" (lower s)) &&
  (contains "cash flow" (lower s) || contains "cash from operations" (lower s)).

Definition adjusted_eps_sentence (s : string) : bool :=
  contains "adjusted" (lower s) && contains "eps" (lower s).

Definition net_income_sentence (s : string) : bool :=
  negb (contains "adjusted net income" (lower s)) && contains "net" (lower s).

(** ** Alternations of literals *)

Module ReLit.
Import Re.

(** The text of a pattern that is a plain word. *)
Fixpoint literal (r : regex) : option string :=
  match r with
  | RChar x => Some (String x EmptyString)
  | RSeq (RChar x) b => option_map (String x) (literal b)
  | _ => None
  end.

(** The words of an alternation of plain words, grouped or not. *)
Fixpoint literals (r : regex) : option (list string) :=
  match r with
  | RAlt a b =>
      match literals a, literals b with
      | Some la, Some lb => Some (la ++ lb)%list
      | _, _ => None
      end
  | RGroup _ a => literals a
  | _ => option_map (fun s => [s]) (literal r)
  end.

End ReLit.

(** ** Header fields *)

Definition month_names : list string :=
  ["January"; "February"; "March"; "April"; "May"; "June"; "July"; "August";
   "September"; "October"; "November"; "December"].

(** One or more whitespace characters. *)
Definition blank_run (s : string) : bool :=
  negb (String.eqb s EmptyString) && str_forallb is_space s.

(** Between [lo] and [hi] digits and nothing else. *)
Definition digits_between (lo hi : nat) (s : string) : bool :=
  (lo <=? String.length s)%nat && (String.length s <=? hi)%nat && str_forallb is_digit s.

(** [sep] does not occur in [s]. *)
Definition free_of (sep : ascii) (s : string) : bool :=
  str_forallb (fun c => negb (Ascii.eqb c sep)) s.

(** ** Signs *)

(** Zero, finite or infinite, with a clear sign bit. *)
Definition sf_nonneg (f : spec_float) : bool :=
  match f with
  | S754_zero s | S754_infinity s | S754_finite s _ _ => negb s
  | S754_nan => false
  end.

(** [x] is the positive zero, a positive number or the positive
    infinity: neither negative, nor the negative zero, nor a NaN. *)
Definition non_negative (x : float) : bool := sf_nonneg (Prim2SF x).

(** A character of an unsigned decimal literal with separators. *)
Definition amount_char (c : ascii) : bool :=
  is_digit c || Ascii.eqb c "," || Ascii.eqb c ".".

(** The metric keys whose matchers read no sign. *)
Definition unsigned_keys : list string :=
  ["revenue"; "consolidated_net_sales"; "consolidated_operating_income"; "orders";
   "total_orders"; "marketplace_gov"; "adjusted_ebitda"; "lumber_segment_adjusted_ebitda";
   "available_liquidity"; "liquidity"; "net_cash_balance"; "credit_facility"; "cash_flow";
   "net_revenue_margin"; "gaap_net_income"; "share_buybacks_and_dividends";
   "combined_rate_ar6"; "total_net_sales"; "free_cash_flow"; "interest_expense";
   "adjusted_net_income"; "gaap_operating_income"; "total_available_liquidity"].

(** ** The keys of the result *)

(** The metric keys, in the order [extract_metrics] assigns them. *)
Definition metric_keys : list string :=
  ["revenue"; "consolidated_net_sales"; "consolidated_operating_income"; "orders";
   "total_orders"; "marketplace_gov"; "adjusted_ebitda"; "lumber_segment_adjusted_ebitda";
   "available_liquidity"; "liquidity"; "net_cash_balance"; "credit_facility"; "cash_flow";
   "net_revenue_margin"; "gaap_net_income"; "net_income"; "gaap_diluted_eps";
   "adjusted_eps"; "actual_eps"; "share_buybacks_and_dividends"; "combined_rate_ar6";
   "total_net_sales"; "free_cash_flow"; "interest_expense"; "adjusted_net_income";
   "gaap_operating_income"; "total_available_liquidity"].

(** ** Where a pattern can match *)

Module ReAccept.
Import Re.

(** The cursor after [pre], from a cursor at position [n] that has [p]
    before it. *)
Fixpoint seek (n : nat) (p : option ascii) (pre suf : string) : cursor :=
  match pre with
  | EmptyString => Cursor n p suf
  | String a pre' => seek (S n) (Some a) pre' suf
  end.

(** [n] rounds of [A] in a row; when [strict], each one moves on. *)
Fixpoint rounds (A : cursor -> cursor -> Prop) (strict : bool) (n : nat)
    (c c' : cursor) : Prop :=
  match n with
  | O => c' = c
  | S n' =>
      exists c1, A c c1 /\ (strict = true -> (pos c < pos c1)%nat) /\
                 rounds A strict n' c1 c'
  end.

Section Accepts.
Variable ignorecase : bool.

(** [accepts r c c']: [r] can match from [c] to [c'], anchors and word
    boundaries included; the optional rounds of a repetition each move
    on and are no more than the matcher allows. *)
Fixpoint accepts (r : regex) (c c' : cursor) : Prop :=
  match r with
  | REmpty => c' = c
  | RChar x =>
      exists a s, rest c = String a s /\ char_matches ignorecase x a = true /\
                  c' = Cursor (S (pos c)) (Some a) s
  | RAny =>
      exists a s, rest c = String a s /\ negb (Ascii.eqb a "010") = true /\
                  c' = Cursor (S (pos c)) (Some a) s
  | RSet neg items =>
      exists a s, rest c = String a s /\ set_matches ignorecase neg items a = true /\
                  c' = Cursor (S (pos c)) (Some a) s
  | RBol => prev c = None /\ c' = c
  | REol => at_end c = true /\ c' = c
  | RWordB => xorb (word_before c) (word_after c) = true /\ c' = c
  | RSeq a b => exists c1, accepts a c c1 /\ accepts b c1 c'
  | RAlt a b => accepts a c c' \/ accepts b c c'
  | RGroup _ a => accepts a c c'
  | RRep _ lo hi a =>
      exists c1 m, rounds (accepts a) false lo c c1 /\
                   rounds (accepts a) true m c1 c' /\ (m <= rep_fuel lo hi c1)%nat
  end.

End Accepts.

(** The continuation succeeds at [c'], whatever was captured. *)
Definition succeeds_at (k : cont) (c' : cursor) : Prop := forall g', k c' g' <> None.

(** A piece [f] of the matcher succeeds wherever [A] accepts and the
    continuation succeeds. *)
Definition complete (A : cursor -> cursor -> Prop)
    (f : cursor -> groups -> cont -> option outcome) : Prop :=
  forall c c' g k, A c c' -> succeeds_at k c' -> f c g k <> None.

(** A piece [f] of the matcher only succeeds where [A] accepts and the
    continuation succeeded. *)
Definition finds (A : cursor -> cursor -> Prop)
    (f : cursor -> groups -> cont -> option outcome) : Prop :=
  forall c g k o, f c g k = Some o -> exists c' g', A c c' /\ k c' g' = Some o.

End ReAccept.

(** ** Whole words *)

Fixpoint last_char (s : string) : option ascii :=
  match s with
  | EmptyString => None
  | String a EmptyString => Some a
  | String _ s' => last_char s'
  end.

(** No word character stands at the end of [pre], or at the start of
    [post]. *)
Definition word_start (pre : string) : bool :=
  match last_char pre with Some a => negb (is_word a) | None => true end.

Definition word_end (post : string) : bool :=
  match post with String a _ => negb (is_word a) | EmptyString => true end.

(** One of [forms], in any letter case, stands in [s] as a whole
    word. *)
Definition has_whole_word (forms : list string) (s : string) : Prop :=
  exists pre w post,
    s = (pre ++ w ++ post)%string /\ In (lower w) forms /\
    word_start pre = true /\ word_end post = true.

(** Nothing, a hyphen, or one whitespace character. *)
Definition is_joint (x : string) : Prop :=
  x = EmptyString \/ x = "-" \/ exists a, x = String a EmptyString /\ is_space a = true.

(** "year over year" in one of its spellings, in any letter case,
    occurs in [s]. *)
Definition has_year_over_year (s : string) : Prop :=
  exists pre y1 j1 o j2 y2 post,
    s = (pre ++ y1 ++ j1 ++ o ++ j2 ++ y2 ++ post)%string /\
    lower y1 = "year" /\ is_joint j1 /\ lower o = "over" /\ is_joint j2 /\
    lower y2 = "year".
(** * Verification *)

(** ** The matcher: a successful match consumes what it says *)

Module ReFacts.
Import Re ReSpec.

Lemma extends_refl : forall c, extends c c.
Proof. intros c. exists EmptyString. simpl. split; [reflexivity | lia]. Qed.

Lemma append_assoc : forall a b c : string, ((a ++ b) ++ c = a ++ (b ++ c))%string.
Proof. induction a as [|x a IH]; intros; simpl; [reflexivity | rewrite IH; reflexivity]. Qed.

Lemma length_append : forall a b : string,
  String.length (a ++ b) = (String.length a + String.length b)%nat.
Proof. induction a as [|x a IH]; intros; simpl; [reflexivity | rewrite IH; reflexivity]. Qed.

Lemma extends_trans : forall c1 c2 c3, extends c1 c2 -> extends c2 c3 -> extends c1 c3.
Proof.
  intros c1 c2 c3 [p [Hp Hn]] [q [Hq Hm]]. exists (p ++ q)%string. split.
  - rewrite Hp, Hq. symmetry. apply append_assoc.
  - rewrite length_append. lia.
Qed.

Lemma extends_le : forall c c', extends c c' -> (pos c <= pos c')%nat.
Proof. intros c c' [p [_ Hn]]. lia. Qed.

Lemma take_append : forall p q : string, take (String.length p) (p ++ q) = p.
Proof. induction p as [|x p IH]; intros q; simpl; [destruct q; reflexivity | rewrite IH; reflexivity]. Qed.

Lemma between_extends : forall c c',
  extends c c' -> (pos c < pos c')%nat -> between c c' <> EmptyString.
Proof.
  intros c c' [p [Hp Hn]] Hlt. unfold between. rewrite Hp, Hn.
  replace (pos c + String.length p - pos c)%nat with (String.length p) by lia.
  rewrite take_append. destruct p; [simpl in Hn; lia | discriminate].
Qed.

Section Soundness.
Variable ignorecase : bool.

Lemma sound_step : forall p, sound true true (step p).
Proof.
  intros p c g k o H. unfold step in H.
  destruct (rest c) as [|a s'] eqn:Hr; [discriminate|].
  destruct (p a); [|discriminate].
  eexists _, g. split; [exact H|]. split; [|split].
  - exists (String a EmptyString). simpl. split; [exact Hr | lia].
  - intros _. simpl. lia.
  - intros _ Hg. exact Hg.
Qed.

Lemma sound_weaken : forall s gn s' gn' f,
  sound s gn f -> (s' = true -> s = true) -> (gn' = true -> gn = true) ->
  sound s' gn' f.
Proof.
  intros s gn s' gn' f Hf Hs Hg c g k o H.
  destruct (Hf c g k o H) as [c' [g' [Hk [He [Hp Hn]]]]].
  exists c', g'. repeat split; auto.
Qed.

Lemma rep_more_S : forall body greedy k f c g,
  rep_more body greedy k (S f) c g =
  let again :=
    body c g (fun c' g' =>
      if (pos c <? pos c')%nat then rep_more body greedy k f c' g' else None) in
  if greedy then or_else again (k c g) else or_else (k c g) again.
Proof. reflexivity. Qed.

Lemma sound_rep_more : forall body gn greedy fuel,
  sound false gn body ->
  sound false gn (fun c g k => rep_more body greedy k fuel c g).
Proof.
  intros body gn greedy fuel Hb.
  induction fuel as [|f IH]; intros c g k o H.
  - simpl in H. exists c, g. repeat split; auto using extends_refl. discriminate.
  - rewrite rep_more_S in H.
    assert (Hstop : k c g = Some o ->
      exists c' g', k c' g' = Some o /\ extends c c' /\
        (false = true -> (pos c < pos c')%nat) /\
        (gn = true -> all_nonempty g -> all_nonempty g')).
    { intros Hk. exists c, g. repeat split; auto using extends_refl. discriminate. }
    assert (Hagain : body c g (fun c' g' =>
        if (pos c <? pos c')%nat then rep_more body greedy k f c' g' else None) = Some o ->
      exists c' g', k c' g' = Some o /\ extends c c' /\
        (false = true -> (pos c < pos c')%nat) /\
        (gn = true -> all_nonempty g -> all_nonempty g')).
    { intros Ha. destruct (Hb _ _ _ _ Ha) as [c1 [g1 [Hk1 [He1 [_ Hn1]]]]].
      destruct (pos c <? pos c1)%nat; [|discriminate].
      destruct (IH _ _ _ _ Hk1) as [c2 [g2 [Hk2 [He2 [_ Hn2]]]]].
      exists c2, g2. repeat split; eauto using extends_trans. discriminate. }
    destruct greedy; unfold or_else in H.
    + destruct (body c g _) eqn:E.
      * apply Hagain. exact H.
      * apply Hstop. exact H.
    + destruct (k c g) eqn:E.
      * apply Hstop. exact H.
      * apply Hagain. exact H.
Qed.

Lemma sound_rep_required : forall body s gn (after : cont) k n c g o,
  sound s gn body ->
  (forall c g o, after c g = Some o ->
     exists c' g', k c' g' = Some o /\ extends c c' /\
       (gn = true -> all_nonempty g -> all_nonempty g')) ->
  rep_required body after n c g = Some o ->
  exists c' g', k c' g' = Some o /\ extends c c' /\
    ((0 <? n)%nat && s = true -> (pos c < pos c')%nat) /\
    (gn = true -> all_nonempty g -> all_nonempty g').
Proof.
  intros body s gn after k n. induction n as [|n IH]; intros c g o Hb Ha H; simpl in H.
  - destruct (Ha _ _ _ H) as [c' [g' [Hk [He Hn]]]].
    exists c', g'. repeat split; auto. simpl. discriminate.
  - destruct (Hb _ _ _ _ H) as [c1 [g1 [Hk1 [He1 [Hp1 Hn1]]]]].
    destruct (IH _ _ _ Hb Ha Hk1) as [c2 [g2 [Hk2 [He2 [_ Hn2]]]]].
    exists c2, g2. repeat split; eauto using extends_trans.
    simpl. intros Hs. specialize (Hp1 Hs). apply extends_le in He2. lia.
Qed.

(** Every pattern is sound: strictly progressing when it is [nonnull],
    keeping captures non-empty when it is [groups_nonnull]. *)
Lemma sound_run : forall r, sound (nonnull r) (groups_nonnull r) (run ignorecase r).
Proof.
  induction r as [| x | | neg items | | | | a IHa b IHb | a IHa b IHb
                  | greedy lo hi a IHa | n a IHa]; simpl.
  - intros c g k o H. exists c, g. repeat split; auto using extends_refl. discriminate.
  - apply sound_step.
  - apply sound_step.
  - apply sound_step.
  - intros c g k o H. simpl in H. destruct (prev c); [discriminate|].
    exists c, g. repeat split; auto using extends_refl. discriminate.
  - intros c g k o H. simpl in H. destruct (at_end c); [|discriminate].
    exists c, g. repeat split; auto using extends_refl. discriminate.
  - intros c g k o H. simpl in H.
    destruct (xorb (word_before c) (word_after c)); [|discriminate].
    exists c, g. repeat split; auto using extends_refl. discriminate.
  - intros c g k o H. simpl in H.
    destruct (IHa _ _ _ _ H) as [c1 [g1 [H1 [He1 [Hp1 Hn1]]]]].
    destruct (IHb _ _ _ _ H1) as [c2 [g2 [H2 [He2 [Hp2 Hn2]]]]].
    exists c2, g2. split; [exact H2|]. split; [eauto using extends_trans|]. split.
    + intros Hs. apply orb_true_iff in Hs. apply extends_le in He1 as L1.
      apply extends_le in He2 as L2. destruct Hs as [Hs|Hs];
        [specialize (Hp1 Hs) | specialize (Hp2 Hs)]; lia.
    + intros Hs Hg. apply andb_true_iff in Hs as [Hsa Hsb]. auto.
  - intros c g k o H. simpl in H. unfold or_else in H.
    destruct (run ignorecase a c g k) eqn:E.
    + rewrite <- H in *. destruct (IHa _ _ _ _ E) as [c1 [g1 [H1 [He1 [Hp1 Hn1]]]]].
      exists c1, g1. repeat split; auto.
      * intros Hs. apply andb_true_iff in Hs as [Hs _]. auto.
      * intros Hs. apply andb_true_iff in Hs as [Hs _]. auto.
    + destruct (IHb _ _ _ _ H) as [c1 [g1 [H1 [He1 [Hp1 Hn1]]]]].
      exists c1, g1. repeat split; auto.
      * intros Hs. apply andb_true_iff in Hs as [_ Hs]. auto.
      * intros Hs. apply andb_true_iff in Hs as [_ Hs]. auto.
  - intros c g k o H. simpl in H.
    apply (sound_rep_required _ (nonnull a) (groups_nonnull a) _ k) in H.
    + destruct H as [c' [g' [Hk [He [Hp Hn]]]]]. exists c', g'. repeat split; auto.
    + exact IHa.
    + intros c0 g0 o0 H0.
      pose proof (sound_rep_more (run ignorecase a) (groups_nonnull a) greedy
                    (rep_fuel lo hi c0)
                    (sound_weaken _ _ false _ _ IHa
                       (fun e => False_ind _ (Bool.diff_false_true e)) (fun e => e))) as Hm.
      destruct (Hm _ _ _ _ H0) as [c' [g' [Hk [He [_ Hn]]]]].
      exists c', g'. repeat split; auto.
  - intros c g k o H. simpl in H.
    destruct (IHa _ _ _ _ H) as [c1 [g1 [H1 [He1 [Hp1 Hn1]]]]].
    exists c1, ((n, between c c1) :: g1). split; [exact H1|]. split; [exact He1|].
    split; [exact Hp1|].
    intros Hs Hg. apply andb_true_iff in Hs as [Hs1 Hs2].
    intros m t [Hin|Hin].
    + inversion Hin; subst. apply between_extends; auto.
    + apply (Hn1 Hs2 Hg m t Hin).
Qed.

Lemma match_at_sound : forall r c m,
  match_at ignorecase r c = Some m ->
  m_start m = c /\ extends c (m_end m) /\
  (nonnull r = true -> (pos c < pos (m_end m))%nat) /\
  (groups_nonnull r = true -> all_nonempty (m_groups m)).
Proof.
  intros r c m H. unfold match_at in H.
  destruct (run ignorecase r c [] _) as [[c' g']|] eqn:E; [|discriminate].
  inversion H; subst; clear H. simpl.
  destruct (sound_run r _ _ _ _ E) as [c1 [g1 [H1 [He1 [Hp1 Hn1]]]]].
  inversion H1; subst. repeat split; auto.
  intros Hs. apply Hn1; auto. intros n t [].
Qed.

Lemma search_from_match_at : forall fuel r c m,
  search_from ignorecase fuel r c = Some m ->
  exists c0, match_at ignorecase r c0 = Some m.
Proof.
  induction fuel as [|f IH]; intros r c m H; simpl in H.
  - destruct (match_at ignorecase r c) eqn:E; [|discriminate].
    exists c. rewrite E. exact H.
  - destruct (match_at ignorecase r c) eqn:E.
    + exists c. rewrite E. exact H.
    + destruct (advance c); [|discriminate]. eapply IH; eauto.
Qed.

(** A group that took part in a match of a [groups_nonnull] pattern is
    not empty, and neither is the whole match of a [nonnull] pattern. *)
Lemma search_group_nonempty : forall r s m n t,
  search ignorecase r s = Some m ->
  group m n = Some t ->
  (n = 0%nat -> nonnull r = true) ->
  (n <> 0%nat -> groups_nonnull r = true) ->
  t <> EmptyString.
Proof.
  intros r s m n t Hs Hg H0 Hn.
  destruct (search_from_match_at _ _ _ _ Hs) as [c0 Hm].
  destruct (match_at_sound _ _ _ Hm) as [Hst [He [Hp Hgn]]].
  destruct n as [|n]; simpl in Hg.
  - inversion Hg as [Ht]. rewrite Hst. apply between_extends; auto.
  - destruct (find _ (m_groups m)) as [[k u]|] eqn:F; [|discriminate].
    inversion Hg as [Ht]. rewrite <- Ht. apply find_some in F as [Hin _].
    apply (Hgn (Hn ltac:(discriminate)) k u Hin).
Qed.

End Soundness.

Lemma step_ext : forall p q c g k, (forall a, p a = q a) -> step p c g k = step q c g k.
Proof. intros p q c g k H. unfold step. destruct (rest c); [reflexivity|]. rewrite H. reflexivity. Qed.

Lemma rep_more_ext : forall body body' greedy k fuel c g,
  (forall c g k k', (forall c' g', k c' g' = k' c' g') -> body c g k = body' c g k') ->
  rep_more body greedy k fuel c g = rep_more body' greedy k fuel c g.
Proof.
  intros body body' greedy k fuel. induction fuel as [|f IH]; intros c g H; [reflexivity|].
  rewrite !rep_more_S. cbv zeta.
  rewrite (H c g _ (fun c' g' =>
     if (pos c <? pos c')%nat then rep_more body' greedy k f c' g' else None)).
  - reflexivity.
  - intros c' g'. destruct (pos c <? pos c')%nat; [apply IH; exact H | reflexivity].
Qed.

Lemma step_cont_ext : forall p c g k k',
  (forall c' g', k c' g' = k' c' g') -> step p c g k = step p c g k'.
Proof.
  intros p c g k k' H. unfold step. destruct (rest c); [reflexivity|].
  destruct (p a); [apply H | reflexivity].
Qed.

Lemma set_space : forall a, set_matches false false [CSpace] a = is_space a.
Proof. intros a. unfold set_matches, set_has. simpl. destruct (is_space a); reflexivity. Qed.

Lemma cursor_eta : forall c, Cursor (pos c) (prev c) (rest c) = c.
Proof. intros [n b s]. reflexivity. Qed.

(** A greedy run of a one-character class that may stop anywhere
    stops after the longest run. *)
Lemma greedy_run_longest : forall p fuel c g,
  (String.length (rest c) <= fuel)%nat ->
  rep_more (step p) true accept fuel c g
  = Some (skip_run p (pos c) (prev c) (rest c), g).
Proof.
  intros p fuel. induction fuel as [|f IH]; intros c g Hlen.
  - destruct c as [n b [|a s]]; [reflexivity | simpl in Hlen; lia].
  - rewrite rep_more_S. cbv zeta. unfold step at 1.
    destruct c as [n b [|a s]]; cbn [rest pos prev skip_run]; [reflexivity|].
    destruct (p a); [|reflexivity].
    replace (n <? S n)%nat with true by (symmetry; apply Nat.ltb_lt; lia).
    rewrite IH by (simpl in *; lia). reflexivity.
Qed.

Lemma compile_whitespace :
  compile whitespace_pattern = RRep true 1 None (RSet false [CSpace]).
Proof. reflexivity. Qed.

Lemma match_at_whitespace : forall n b s,
  match_at false (compile whitespace_pattern) (Cursor n b s) =
  match s with
  | String a s' =>
      if is_space a
      then Some (RMatch (Cursor n b s) (skip_run is_space (S n) (Some a) s') [])
      else None
  | EmptyString => None
  end.
Proof.
  intros n b s. rewrite compile_whitespace. unfold match_at.
  cbn [run rep_required]. unfold step at 1. cbn [rest pos].
  destruct s as [|a s']; [reflexivity|].
  rewrite set_space. destruct (is_space a); [|reflexivity].
  change (fun c' g' => Some (c', g')) with accept.
  rewrite (rep_more_ext _ (step is_space)).
  - rewrite greedy_run_longest by (unfold rep_fuel; simpl; lia). reflexivity.
  - intros c0 g0 k k' Hk. rewrite (step_ext _ is_space) by apply set_space.
    apply step_cont_ext. exact Hk.
Qed.

Lemma search_from_whitespace : forall s fuel n b,
  (String.length s <= fuel)%nat ->
  search_from false fuel (compile whitespace_pattern) (Cursor n b s) = find_ws n b s.
Proof.
  induction s as [|a s IH]; intros fuel n b Hlen.
  - destruct fuel; cbn [search_from]; rewrite match_at_whitespace; reflexivity.
  - destruct fuel as [|f]; [simpl in Hlen; lia|].
    cbn [search_from]. rewrite match_at_whitespace. cbn [find_ws].
    destruct (is_space a); [reflexivity|].
    unfold advance. cbn [rest pos]. apply IH. simpl in Hlen. lia.
Qed.

Lemma skip_run_facts : forall s n b,
  let c := skip_run is_space n b s in
  (n <= pos c)%nat /\ (String.length (rest c) <= String.length s)%nat /\
  sub_ws true s = sub_ws true (rest c) /\
  sub_ws true (rest c) = sub_ws false (rest c).
Proof.
  induction s as [|a s IH]; intros n b; cbn [skip_run].
  - cbv zeta. simpl. repeat split; lia.
  - destruct (is_space a) eqn:Ha.
    + destruct (IH (S n) (Some a)) as [H1 [H2 [H3 H4]]]. cbv zeta in *.
      repeat split; try (simpl; lia).
      * simpl. rewrite Ha. exact H3.
      * exact H4.
    + cbv zeta. cbn [pos rest]. repeat split; try lia.
      simpl. rewrite Ha. reflexivity.
Qed.

(** How the leftmost run of whitespace splits the rewriting of a
    text. *)
Lemma find_ws_sub_ws : forall s n b,
  match find_ws n b s with
  | None => sub_ws false s = s
  | Some m =>
      (n <= pos (m_start m))%nat /\ (pos (m_start m) < pos (m_end m))%nat /\
      (String.length (rest (m_end m)) < String.length s)%nat /\
      sub_ws false s
      = (take (pos (m_start m) - n) s ++ " " ++ sub_ws false (rest (m_end m)))%string
  end.
Proof.
  induction s as [|a s IH]; intros n b; cbn [find_ws]; [reflexivity|].
  destruct (is_space a) eqn:Ha.
  - cbn [m_start m_end pos].
    destruct (skip_run_facts s (S n) (Some a)) as [H1 [H2 [H3 H4]]]. cbv zeta in *.
    repeat split; try (simpl; lia).
    rewrite Nat.sub_diag. cbn [take append]. simpl sub_ws at 1. rewrite Ha, H3, H4.
    reflexivity.
  - specialize (IH (S n) (Some a)). destruct (find_ws (S n) (Some a) s) as [m|].
    + destruct IH as [H1 [H2 [H3 H4]]]. repeat split; try (simpl; lia).
      simpl sub_ws at 1. rewrite Ha, H4.
      replace (pos (m_start m) - n)%nat with (S (pos (m_start m) - S n)) by lia.
      reflexivity.
    + simpl. rewrite Ha, IH. reflexivity.
Qed.

(** [re.sub(r'\s+', ' ', s)] turns every maximal run of whitespace into
    one space. *)
Lemma sub_from_whitespace : forall fuel s n b,
  (String.length s < fuel)%nat ->
  sub_from false fuel (compile whitespace_pattern) " " (Cursor n b s) = sub_ws false s.
Proof.
  induction fuel as [|f IH]; intros s n b Hlen; [lia|].
  cbn [sub_from]. unfold search_cursor. cbn [rest].
  rewrite search_from_whitespace by lia.
  pose proof (find_ws_sub_ws s n b) as F.
  destruct (find_ws n b s) as [m|].
  - destruct F as [H1 [H2 [H3 H4]]].
    replace (pos (m_start m) <? pos (m_end m))%nat with true
      by (symmetry; apply Nat.ltb_lt; exact H2).
    rewrite <- (cursor_eta (m_end m)), IH by (simpl; lia).
    rewrite H4. unfold between. cbn [pos rest]. reflexivity.
  - symmetry. exact F.
Qed.

Lemma sub_whitespace : forall s,
  sub false (compile whitespace_pattern) " " s = sub_ws false s.
Proof. intros s. unfold sub, start_of. apply sub_from_whitespace. lia. Qed.

End ReFacts.

(** ** The text normalizer *)

Lemma sub_ws_collapsed : forall s b, collapsed b (sub_ws b s) = true.
Proof.
  induction s as [|c s IH]; intros b; simpl; [reflexivity|].
  destruct (is_space c) eqn:Hc.
  - destruct b; simpl.
    + apply IH.
    + rewrite IH. reflexivity.
  - simpl. rewrite Hc. apply IH.
Qed.

Lemma collapsed_weaken : forall s b, collapsed b s = true -> collapsed false s = true.
Proof.
  intros [|c s] b H; simpl in *; [reflexivity|].
  destruct (is_space c); [|exact H].
  apply andb_true_iff in H as [H1 H2]. apply andb_true_iff in H1 as [H0 _].
  rewrite H0, H2. reflexivity.
Qed.

Lemma lstrip_collapsed : forall s b,
  collapsed b s = true -> collapsed true (lstrip s) = true.
Proof.
  induction s as [|c s IH]; intros b H; simpl in *; [reflexivity|].
  destruct (is_space c) eqn:Hc.
  - apply andb_true_iff in H as [_ H]. apply (IH true H).
  - simpl. rewrite Hc. exact H.
Qed.

Lemma rstrip_collapsed : forall s b,
  collapsed b s = true -> collapsed b (rstrip s) = true.
Proof.
  induction s as [|c s IH]; intros b H; simpl in *; [reflexivity|].
  destruct (is_space c) eqn:Hc.
  - apply andb_true_iff in H as [H1 H2].
    specialize (IH true H2).
    destruct (rstrip s); simpl; [reflexivity|].
    rewrite Hc, H1. exact IH.
  - specialize (IH false H).
    destruct (rstrip s); simpl; rewrite Hc; [reflexivity | exact IH].
Qed.

Lemma rstrip_idempotent : forall s, rstrip (rstrip s) = rstrip s.
Proof.
  induction s as [|c s IH]; simpl; [reflexivity|].
  destruct (rstrip s) as [|d t] eqn:Hr.
  - destruct (is_space c) eqn:Hc; simpl; [reflexivity|]. rewrite Hc. reflexivity.
  - change (rstrip (String c (String d t))) with
      (match rstrip (String d t) with
       | EmptyString => if is_space c then EmptyString else String c EmptyString
       | String _ _ as u => String c u
       end).
    rewrite IH. reflexivity.
Qed.

Lemma collapsed_no_newline : forall s b,
  collapsed b s = true -> replace_char "010" " " s = s.
Proof.
  induction s as [|c s IH]; intros b H; simpl in *; [reflexivity|].
  destruct (Ascii.eqb c "010") eqn:Hn.
  - apply Ascii.eqb_eq in Hn. subst c. simpl in H. discriminate H.
  - destruct (is_space c).
    + apply andb_true_iff in H as [_ H]. rewrite (IH true H). reflexivity.
    + rewrite (IH false H). reflexivity.
Qed.

Lemma collapsed_sub_ws : forall s b, collapsed b s = true -> sub_ws b s = s.
Proof.
  induction s as [|c s IH]; intros b H; simpl in *; [reflexivity|].
  destruct (is_space c) eqn:Hc.
  - apply andb_true_iff in H as [H1 H2]. apply andb_true_iff in H1 as [Hsp Hb].
    apply Ascii.eqb_eq in Hsp. subst c.
    destruct b; [discriminate Hb|]. rewrite (IH true H2). reflexivity.
  - rewrite (IH false H). reflexivity.
Qed.

Lemma collapsed_lstrip : forall s, collapsed true s = true -> lstrip s = s.
Proof.
  intros [|c s] H; simpl in *; [reflexivity|].
  destruct (is_space c); [|reflexivity].
  rewrite andb_false_r in H. discriminate H.
Qed.

(** [clean_text] collapses the runs of whitespace and trims. *)
Lemma clean_text_collapse : forall text,
  clean_text text = strip (sub_ws false (replace_char "010" " " text)).
Proof. intros text. unfold clean_text. rewrite ReFacts.sub_whitespace. reflexivity. Qed.

Lemma clean_text_normalized : forall text, normalized (clean_text text).
Proof.
  intros text. rewrite clean_text_collapse. unfold normalized, strip. split.
  - apply rstrip_collapsed. apply (lstrip_collapsed _ false). apply sub_ws_collapsed.
  - apply rstrip_idempotent.
Qed.

Lemma clean_text_fixes_normalized : forall s, normalized s -> clean_text s = s.
Proof.
  intros s [Hc Hr]. rewrite clean_text_collapse. unfold strip.
  rewrite (collapsed_no_newline s true Hc).
  rewrite (collapsed_sub_ws s false (collapsed_weaken s true Hc)).
  rewrite (collapsed_lstrip s Hc). exact Hr.
Qed.

(** C9. The text normalizer is idempotent: for every string,
    normalizing twice gives what normalizing once gives; and what one
    application gives is normalized: its only whitespace is single
    spaces, none at either end. *)
Theorem C9_clean_text_idempotent : forall s : string,
  clean_text (clean_text s) = clean_text s /\ normalized (clean_text s).
Proof.
  intros s. split.
  - apply clean_text_fixes_normalized. apply clean_text_normalized.
  - apply clean_text_normalized.
Qed.


(** ** Document identity *)

Lemma py_not_nonempty : forall t : string, t <> EmptyString -> py_not (Some t) = false.
Proof. intros [|c t] H; [contradiction H; reflexivity | reflexivity]. Qed.

Local Opaque Re.group.

(** A field the header patterns resolve is never the empty string, so
    the truth test of [parse_transcript_file] is a test for [None]. *)
Lemma header_fields_truthy : forall text ticker quarter year earnings_date,
  extract_ticker_quarter_year_date text = (ticker, quarter, year, earnings_date) ->
  py_not ticker = negb (is_some ticker) /\
  py_not quarter = negb (is_some quarter) /\
  py_not year = negb (is_some year) /\
  py_not earnings_date = negb (is_some earnings_date).
Proof.
  intros text ticker quarter year earnings_date H.
  unfold extract_ticker_quarter_year_date in H.
  set (first_lines := join _ _) in H.
  set (r1 := Re.compile ticker_pattern) in H.
  set (r2 := Re.compile quarter_year_pattern) in H.
  set (r3 := Re.compile date_pattern) in H.
  assert (G1 : ReSpec.groups_nonnull r1 = true) by (vm_compute; reflexivity).
  assert (G2 : ReSpec.groups_nonnull r2 = true) by (vm_compute; reflexivity).
  assert (N3 : ReSpec.nonnull r3 = true) by (vm_compute; reflexivity).
  clearbody r1 r2 r3 first_lines.
  assert (K : forall r m n t,
            Re.search false r first_lines = Some m -> Re.group m n = Some t ->
            (n = 0%nat -> ReSpec.nonnull r = true) ->
            (n <> 0%nat -> ReSpec.groups_nonnull r = true) ->
            py_not (Some t) = false).
  { intros r m n t Hs Hg H0 Hn. apply py_not_nonempty.
    exact (ReFacts.search_group_nonempty false r first_lines m n t Hs Hg H0 Hn). }
  cbv zeta in H. injection H as A1 A2 A3 A4. subst ticker quarter year earnings_date.
  destruct (Re.search false r1 first_lines) as [m1|] eqn:E1;
  destruct (Re.search false r2 first_lines) as [m2|] eqn:E2;
  destruct (Re.search false r3 first_lines) as [m3|] eqn:E3;
  repeat split; try reflexivity.
  all: match goal with
  | |- py_not (Re.group ?m ?n) = _ =>
      destruct (Re.group m n) as [t|] eqn:G; [|reflexivity];
      change (py_not (Some t) = false);
      first [ apply (K r1 m n t E1 G); [discriminate | intros _; exact G1]
            | apply (K r2 m n t E2 G); [discriminate | intros _; exact G2]
            | apply (K r3 m n t E3 G); [intros _; exact N3 | intros C; contradiction C; reflexivity] ]
  end.
Qed.

Local Transparent Re.group.

(** C8. Document identity: the header-derived fields are returned
    exactly when the header resolves all four of ticker, quarter, year
    and date; otherwise all four come from the file name split on [_],
    where the quarter stays unset without a second part and the year and
    the date stay unset unless there are four parts and the last one
    starts with four digits; and whatever the identity, the document
    yields a record carrying it as soon as the metric extraction
    returns. *)
Theorem C8_identity_resolution :
  forall (nlp : string -> list string) (text file_name : string)
         (ticker quarter year earnings_date : option string),
  extract_ticker_quarter_year_date text = (ticker, quarter, year, earnings_date) ->
  (is_some ticker && is_some quarter && is_some year && is_some earnings_date = true ->
     resolve_identity text file_name = (ticker, quarter, year, earnings_date)) /\
  (is_some ticker && is_some quarter && is_some year && is_some earnings_date = false ->
     resolve_identity text file_name = extract_from_filename file_name) /\
  (let parts := split_char "_" (stem file_name) in
   let dated := (4 <=? List.length parts)%nat
                && is_some (Re.match_ false (Re.compile filename_year_pattern) (last parts EmptyString)) in
   exists t q y d,
     extract_from_filename file_name = (Some t, q, y, d) /\
     (q = None <-> (List.length parts < 2)%nat) /\
     (y = None <-> dated = false) /\ (d = None <-> dated = false)) /\
  (forall metrics, extract_metrics nlp text = Ok metrics ->
     exists t q y d,
       resolve_identity text file_name = (t, q, y, d) /\
       parse_transcript_file nlp text file_name =
         Ok (Transcript t q y d file_name metrics)).
Proof.
  intros nlp text file_name ticker quarter year earnings_date H.
  destruct (header_fields_truthy _ _ _ _ _ H) as [T1 [T2 [T3 T4]]].
  assert (R : resolve_identity text file_name =
              if py_not ticker || py_not quarter || py_not year || py_not earnings_date
              then extract_from_filename file_name
              else (ticker, quarter, year, earnings_date)).
  { unfold resolve_identity. rewrite H. reflexivity. }
  rewrite T1, T2, T3, T4 in R.
  split; [|split; [|split]].
  - intros A. rewrite R.
    destruct ticker, quarter, year, earnings_date; try discriminate A; reflexivity.
  - intros A. rewrite R.
    destruct ticker, quarter, year, earnings_date; try discriminate A; reflexivity.
  - unfold extract_from_filename.
    set (parts := split_char "_" (stem file_name)).
    assert (P : exists p0 ps, parts = p0 :: ps).
    { unfold parts, split_char. generalize EmptyString at 1.
      induction (stem file_name) as [|c s IH]; intros cur; simpl.
      - eexists _, _. reflexivity.
      - destruct (Ascii.eqb c "_"); [eexists _, _; reflexivity | apply IH]. }
    destruct P as [p0 [ps P]]. rewrite P. simpl.
    set (dated := (_ && _)%bool).
    destruct dated eqn:D.
    + eexists _, _, _, _. split; [reflexivity|]. repeat split; try discriminate.
      * destruct ps; [intros _; simpl; lia | discriminate].
      * destruct ps; [reflexivity | simpl; lia].
    + eexists _, _, _, _. split; [reflexivity|]. repeat split; try reflexivity.
      * destruct ps; [intros _; simpl; lia | discriminate].
      * destruct ps; [reflexivity | simpl; lia].
  - intros metrics M. unfold parse_transcript_file.
    destruct (resolve_identity text file_name) as [[[t q] y] d].
    exists t, q, y, d. split; [reflexivity|]. rewrite M. reflexivity.
Qed.

Lemma C8_identity_witness :
  resolve_identity header_example "acme_Q3_Oct_24_2024.txt"
    = (Some "ACME", Some "Q3", Some "2024", Some "October 24, 2024") /\
  resolve_identity "Acme Corp third quarter call" "acme_Q3_Oct_24_2024.txt"
    = (Some "ACME", Some "Q3", Some "2024", Some "Oct 24 2024") /\
  resolve_identity "Acme Corp (NYSE:ACME) Q3 2024 Earnings Call" "acme.txt"
    = (Some "ACME", None, None, None).
Proof.
  split; [|split].
  - apply (proj1 (C8_identity_resolution (fun t => [t]) header_example
                    "acme_Q3_Oct_24_2024.txt"
                    (Some "ACME") (Some "Q3") (Some "2024") (Some "October 24, 2024")
                    ltac:(vm_compute; reflexivity))).
    reflexivity.
  - rewrite (proj1 (proj2 (C8_identity_resolution (fun t => [t])
                    "Acme Corp third quarter call" "acme_Q3_Oct_24_2024.txt"
                    None None None None ltac:(vm_compute; reflexivity)))).
    + vm_compute. reflexivity.
    + reflexivity.
  - rewrite (proj1 (proj2 (C8_identity_resolution (fun t => [t])
                    "Acme Corp (NYSE:ACME) Q3 2024 Earnings Call" "acme.txt"
                    (Some "ACME") (Some "Q3") (Some "2024") None
                    ltac:(vm_compute; reflexivity)))).
    + vm_compute. reflexivity.
    + reflexivity.
Defined.

(** ** The spoken-number decoder *)

Module SpokenFacts.
Import Re ReSpec ReFacts.

Lemma set_digit : forall a, set_matches false false [CDigit] a = is_digit a.
Proof. intros a. unfold set_matches, set_has. simpl. destruct (is_digit a); reflexivity. Qed.

Lemma at_end_no_newline : forall c,
  str_forallb (fun a => negb (is_newline a)) (rest c) = true ->
  at_end c = match rest c with EmptyString => true | _ => false end.
Proof.
  intros c H. unfold at_end. destruct (rest c) as [|a [|b s]]; try reflexivity.
  simpl in H. unfold is_newline in H. destruct (Ascii.eqb a "010"); [discriminate H | reflexivity].
Qed.

(** The greedy run of a one-character class before the end of the
    subject succeeds exactly when all that is left is in the class. *)
Lemma greedy_run_to_end : forall p fuel c g,
  (String.length (rest c) <= fuel)%nat ->
  str_forallb (fun a => negb (is_newline a)) (rest c) = true ->
  is_some (rep_more (step p) true stop_at_end fuel c g) = str_forallb p (rest c).
Proof.
  intros p fuel. induction fuel as [|f IH]; intros c g Hlen Hnl.
  - destruct (rest c) as [|a s] eqn:R; [|simpl in Hlen; lia].
    simpl. unfold stop_at_end, at_end. rewrite R. reflexivity.
  - rewrite rep_more_S. cbv zeta.
    pose proof (at_end_no_newline c Hnl) as E.
    unfold step at 1. destruct (rest c) as [|a s] eqn:R.
    + simpl. unfold stop_at_end. rewrite E. reflexivity.
    + simpl in Hnl. apply andb_true_iff in Hnl as [_ Hnl]. simpl in Hlen.
      simpl str_forallb. destruct (p a); simpl.
      * replace (pos c <? S (pos c))%nat with true by (symmetry; apply Nat.ltb_lt; lia).
        specialize (IH (Cursor (S (pos c)) (Some a) s) g ltac:(simpl; lia) Hnl).
        simpl rest in IH. rewrite <- IH.
        destruct (rep_more (step p) true stop_at_end f _ g); [reflexivity|].
        simpl. unfold stop_at_end. rewrite E. reflexivity.
      * unfold stop_at_end. rewrite E. reflexivity.
Qed.

Lemma compile_digit_run :
  compile digit_token_pattern = RSeq RBol (RSeq (RRep true 1 None (RSet false [CDigit])) REol).
Proof. reflexivity. Qed.

(** [re.match(r"^\d+$", tok)] on a token without a newline: it matches
    exactly the digit runs. *)
Lemma digit_run_match : forall tok,
  str_forallb (fun a => negb (is_newline a)) tok = true ->
  is_some (match_ false (compile digit_token_pattern) tok) = digit_run tok.
Proof.
  intros tok Hnl. rewrite compile_digit_run. unfold match_, match_at, start_of.
  cbn [run prev rep_required].
  assert (K : forall c g,
    (String.length (rest c) <= rep_fuel 1 None c)%nat ->
    str_forallb (fun a => negb (is_newline a)) (rest c) = true ->
    is_some (rep_more (step (set_matches false false [CDigit])) true
               (fun c' g' => if at_end c' then Some (c', g') else None)
               (rep_fuel 1 None c) c g)
    = str_forallb is_digit (rest c)).
  { intros c g Hl Hn.
    change (fun c' g' => if at_end c' then Some (c', g') else None) with stop_at_end.
    rewrite (rep_more_ext _ (step is_digit)).
    - apply greedy_run_to_end; assumption.
    - intros c0 g0 k k' Hk. rewrite (step_ext _ is_digit) by apply set_digit.
      apply step_cont_ext. exact Hk. }
  unfold step at 1. cbn [rest]. destruct tok as [|a s]; [reflexivity|].
  rewrite set_digit. simpl digit_run. simpl in Hnl.
  apply andb_true_iff in Hnl as [_ Hnl].
  destruct (is_digit a); [|reflexivity]. simpl andb.
  specialize (K (Cursor 1 (Some a) s) [] ltac:(simpl; lia) Hnl).
  cbn [rest] in K. rewrite <- K.
  match goal with
  | |- is_some (match ?x with _ => _ end) = is_some ?y =>
      change y with x; destruct x as [[? ?]|]; reflexivity
  end.
Qed.


Lemma forallb_rev_string : forall p s acc,
  str_forallb p acc = true -> str_forallb p s = true ->
  str_forallb p (rev_string acc s) = true.
Proof.
  intros p s. induction s as [|c s IH]; intros acc Ha Hs; simpl in *; [exact Ha|].
  apply andb_true_iff in Hs as [Hc Hs]. apply IH; [simpl; rewrite Hc, Ha; reflexivity | exact Hs].
Qed.

(** The tokens of [split] hold no whitespace. *)
Lemma split_ws_aux_no_space : forall s cur tok,
  str_forallb (fun a => negb (is_space a)) cur = true ->
  In tok (split_ws_aux cur s) ->
  str_forallb (fun a => negb (is_space a)) tok = true.
Proof.
  induction s as [|c s IH]; intros cur tok Hcur Hin; simpl in Hin.
  - destruct cur; [contradiction|]. destruct Hin as [<-|[]].
    apply forallb_rev_string; [reflexivity | exact Hcur].
  - destruct (is_space c) eqn:Hc.
    + destruct cur.
      * apply (IH EmptyString tok); [reflexivity | exact Hin].
      * destruct Hin as [<-|Hin].
        -- apply forallb_rev_string; [reflexivity | exact Hcur].
        -- apply (IH EmptyString tok); [reflexivity | exact Hin].
    + apply (IH (String c cur) tok); [simpl; rewrite Hc; exact Hcur | exact Hin].
Qed.

Lemma no_space_no_newline : forall s,
  str_forallb (fun a => negb (is_space a)) s = true ->
  str_forallb (fun a => negb (is_newline a)) s = true.
Proof.
  induction s as [|c s IH]; intros H; simpl in *; [reflexivity|].
  apply andb_true_iff in H as [Hc Hs]. rewrite (IH Hs), andb_true_r.
  unfold is_newline. destruct (Ascii.eqb c "010") eqn:E; [|reflexivity].
  apply Ascii.eqb_eq in E. subst c. discriminate Hc.
Qed.

(** On a token of [split], the source's three tests are the three
    kinds of recognized token. *)
Lemma spoken_piece_recognized : forall tok,
  str_forallb (fun a => negb (is_space a)) tok = true ->
  spoken_piece tok = recognized tok.
Proof.
  intros tok H. unfold spoken_piece, recognized.
  rewrite (digit_run_match tok (no_space_no_newline tok H)).
  assert (M : mem tok ["oh"; "o"] = String.eqb tok "oh" || String.eqb tok "o").
  { unfold mem. simpl. rewrite orb_false_r. reflexivity. }
  rewrite M.
  destruct (num_word tok NUM_WORDS) as [n|] eqn:N.
  - destruct (n <? 100)%nat eqn:L; [reflexivity|].
    (* the only word at or above one hundred is neither a filler nor digits *)
    assert (T : tok = "hundred").
    { revert N L. unfold NUM_WORDS.
      repeat (cbn [num_word];
              match goal with
              | |- context [String.eqb ?w tok] =>
                  destruct (String.eqb w tok) eqn:?E;
                  [ intros N L; inversion N; subst n;
                    first [ discriminate L | symmetry; apply String.eqb_eq; assumption ] | ]
              end).
      cbn [num_word]. discriminate. }
    subst tok. reflexivity.
  - reflexivity.
Qed.

Lemma spoken_digits_take_while : forall tokens,
  (forall tok, In tok tokens -> str_forallb (fun a => negb (is_space a)) tok = true) ->
  spoken_digits tokens =
  map (fun tok => or_empty (recognized tok))
      (take_while (fun tok => is_some (recognized tok)) tokens).
Proof.
  induction tokens as [|tok tokens IH]; intros H; simpl; [reflexivity|].
  rewrite (spoken_piece_recognized tok (H tok (or_introl eq_refl))).
  destruct (recognized tok) as [d|] eqn:R; simpl; rewrite ?R; simpl; [|reflexivity].
  rewrite IH; [reflexivity|]. intros t Ht. apply H. right. exact Ht.
Qed.

Lemma num_word_in : forall tok table n,
  num_word tok table = Some n -> In n (map snd table).
Proof.
  induction table as [|[w m] table IH]; intros n H; simpl in *; [discriminate|].
  destruct (String.eqb w tok); [inversion H; left; reflexivity | right; apply IH; exact H].
Qed.

(** Every recognized token stands for a digit run. *)
Lemma recognized_digit_run : forall tok d, recognized tok = Some d -> digit_run d = true.
Proof.
  intros tok d H. unfold recognized in H.
  destruct (num_word tok NUM_WORDS) as [n|] eqn:N.
  - destruct (n <? 100)%nat; [|discriminate]. inversion H; subst d; clear H.
    apply num_word_in in N.
    assert (A : forallb (fun n => digit_run (Conv.string_of_nat n)) (map snd NUM_WORDS) = true)
      by (vm_compute; reflexivity).
    rewrite forallb_forall in A. apply A. exact N.
  - destruct (String.eqb tok "oh" || String.eqb tok "o"); [inversion H; reflexivity|].
    destruct (digit_run tok) eqn:D; [inversion H; subst; exact D | discriminate].
Qed.

Lemma digit_run_forall : forall d, digit_run d = true -> str_forallb is_digit d = true.
Proof. intros [|c d] H; [discriminate | exact H]. Qed.

Lemma forallb_append : forall p a b,
  str_forallb p (a ++ b) = str_forallb p a && str_forallb p b.
Proof.
  intros p a b. induction a as [|c a IH]; simpl; [reflexivity|].
  rewrite IH, andb_assoc. reflexivity.
Qed.

Lemma concat_digit_runs : forall pieces,
  pieces <> [] ->
  (forall d, In d pieces -> digit_run d = true) ->
  digit_run (String.concat "" pieces) = true.
Proof.
  induction pieces as [|d pieces IH]; intros Hne H; [contradiction Hne; reflexivity|].
  pose proof (H d (or_introl eq_refl)) as Hd.
  destruct pieces as [|e pieces].
  - simpl. exact Hd.
  - assert (IH' : digit_run (String.concat "" (e :: pieces)) = true).
    { apply IH; [discriminate|]. intros x Hx. apply H. right. exact Hx. }
    change (String.concat "" (d :: e :: pieces))
      with (d ++ "" ++ String.concat "" (e :: pieces))%string.
    simpl append at 2.
    destruct d as [|c d]; [discriminate Hd|].
    simpl. simpl in Hd. apply andb_true_iff in Hd as [Hc Hd]. rewrite Hc. simpl.
    rewrite forallb_append, Hd. apply digit_run_forall. exact IH'.
Qed.

Lemma is_digit_not_space : forall c, is_digit c = true -> is_space c = false.
Proof.
  intros c H. unfold is_digit, is_space in *. cbv zeta in *.
  apply andb_true_iff in H as [H1 H2]. apply Nat.leb_le in H1.
  apply orb_false_iff. split; apply andb_false_iff.
  - right. apply Nat.leb_gt. lia.
  - right. apply Nat.leb_gt. lia.
Qed.

Lemma rstrip_digits : forall d, str_forallb is_digit d = true -> rstrip d = d.
Proof.
  induction d as [|c d IH]; intros H; simpl in *; [reflexivity|].
  apply andb_true_iff in H as [Hc Hd]. rewrite (IH Hd).
  destruct d; [rewrite (is_digit_not_space c Hc)|]; reflexivity.
Qed.

Lemma digits_loop_digits : forall d acc n,
  str_forallb is_digit d = true ->
  Conv.digits_loop acc n d = (decimal_from acc d, (n + String.length d)%nat, EmptyString).
Proof.
  induction d as [|c d IH]; intros acc n H; simpl in *.
  - rewrite Nat.add_0_r. reflexivity.
  - apply andb_true_iff in H as [Hc Hd]. rewrite Hc, (IH _ _ Hd).
    rewrite Nat.add_succ_r. reflexivity.
Qed.

(** [int] reads a digit run as the integer it writes, unless the run
    is longer than the interpreter allows. *)
Lemma int_of_digit_run : forall d,
  digit_run d = true ->
  Conv.int_of_string d =
  if (String.length d <=? 4300)%nat then Some (decimal_value d) else None.
Proof.
  intros d H. pose proof (digit_run_forall d H) as F.
  unfold Conv.int_of_string, strip.
  destruct d as [|c d]; [discriminate H|].
  pose proof F as F'. cbn [str_forallb] in F'. apply andb_true_iff in F' as [Hc Hd].
  assert (L : lstrip (String c d) = String c d)
    by (cbn [lstrip]; rewrite (is_digit_not_space c Hc); reflexivity).
  rewrite L, (rstrip_digits _ F).
  assert (S : Conv.read_sign (String c d) = (false, String c d)).
  { unfold Conv.read_sign.
    destruct (Ascii.eqb c "-") eqn:E1; [apply Ascii.eqb_eq in E1; subst c; discriminate Hc|].
    destruct (Ascii.eqb c "+") eqn:E2; [apply Ascii.eqb_eq in E2; subst c; discriminate Hc|].
    destruct c as [[] [] [] [] [] [] [] []]; try reflexivity; discriminate. }
  rewrite S. unfold Conv.read_digits. rewrite Hc.
  rewrite (digits_loop_digits _ 0%Z 0%nat F). cbn [Nat.add].
  unfold Conv.int_max_str_digits, decimal_value.
  rewrite Nat.ltb_antisym.
  destruct (String.length (String c d) <=? 4300)%nat; reflexivity.
Qed.

(** The source's decoder computes what the specification describes,
    as long as [int] accepts the digits. *)
Lemma spoken_to_number_decode : forall text,
  spoken_to_number text =
  if (String.length (spoken_digit_string text) <=? 4300)%nat
  then decode_spoken text else None.
Proof.
  intros text. unfold spoken_to_number, decode_spoken, spoken_digit_string.
  rewrite spoken_digits_take_while
    by (intros tok Hin; apply (split_ws_aux_no_space (lower text) EmptyString tok);
        [reflexivity | exact Hin]).
  set (consumed := take_while _ _).
  assert (C : forall tok, In tok consumed -> is_some (recognized tok) = true).
  { unfold consumed. induction (split_ws (lower text)) as [|t l IH]; simpl; [intros ? []|].
    destruct (is_some (recognized t)) eqn:E; [|intros ? []].
    intros tok [<-|Hin]; [exact E | apply IH; exact Hin]. }
  destruct consumed as [|t l] eqn:E; [reflexivity|].
  set (pieces := map (fun tok => or_empty (recognized tok)) (t :: l)).
  assert (P : exists p ps, pieces = p :: ps) by (eexists _, _; reflexivity).
  destruct P as [p [ps P]].
  assert (D : digit_run (String.concat "" pieces) = true).
  { apply concat_digit_runs; [rewrite P; discriminate|].
    intros d Hd. apply in_map_iff in Hd as [tok [<- Hin]].
    specialize (C tok Hin). destruct (recognized tok) as [x|] eqn:R; [|discriminate C].
    apply (recognized_digit_run tok x R). }
  rewrite <- (int_of_digit_run _ D). rewrite P. reflexivity.
Qed.

End SpokenFacts.

(** ** The result mapping *)

Module DictFacts.

Lemma Ok_inj : forall (A : Type) (a b : A), Ok a = Ok b -> a = b.
Proof. intros A a b H. injection H as H. exact H. Qed.

Lemma dict_get_set : forall k k' v d,
  dict_get k (dict_set k' v d) = if String.eqb k' k then Some v else dict_get k d.
Proof.
  intros k k' v d. induction d as [|[k0 v0] d IH]; simpl; [reflexivity|].
  destruct (String.eqb k0 k') eqn:E0; simpl.
  - apply String.eqb_eq in E0. subst k0.
    destruct (String.eqb k' k); reflexivity.
  - rewrite IH. destruct (String.eqb k0 k) eqn:E1; [|reflexivity].
    destruct (String.eqb k' k) eqn:E2; [|reflexivity].
    apply String.eqb_eq in E1, E2. subst. rewrite String.eqb_refl in E0. discriminate.
Qed.

Lemma dict_get_absent : forall k d, mem k (map fst d) = false -> dict_get k d = None.
Proof.
  intros k d. induction d as [|[k0 v0] d IH]; simpl; [reflexivity|].
  unfold mem in *. simpl. intros H. apply orb_false_iff in H as [H1 H2].
  rewrite String.eqb_sym, H1. apply IH. exact H2.
Qed.

Lemma dict_get_in : forall k d v, dict_get k d = Some v -> In k (map fst d).
Proof.
  intros k d. induction d as [|[k0 v0] d IH]; simpl; intros v H; [discriminate|].
  destruct (String.eqb k0 k) eqn:E; [left; apply String.eqb_eq; exact E | right; eauto].
Qed.

(** Pruning removes the keys holding [None] and keeps the others with
    their values. *)
Lemma dict_get_remove_null : forall k d,
  distinct (map fst d) = true ->
  dict_get k (remove_null_metrics d) =
  match dict_get k d with
  | Some VNone => None
  | x => x
  end.
Proof.
  intros k d. induction d as [|[k0 v0] d IH]; simpl; intros H; [reflexivity|].
  apply andb_true_iff in H as [H1 H2]. apply negb_true_iff in H1.
  specialize (IH H2). fold (remove_null_metrics d).
  destruct (String.eqb k0 k) eqn:E.
  - apply String.eqb_eq in E. subst k0.
    destruct v0; simpl; rewrite ?String.eqb_refl; try reflexivity.
    rewrite IH, (dict_get_absent k d H1). reflexivity.
  - destruct v0; simpl; rewrite ?E; exact IH.
Qed.

Section Orchestrator.
Variable nlp : string -> list string.

Lemma metric_results_table : forall text raw,
  metric_results nlp text = Ok raw ->
  exists nrm eps,
    parse_net_revenue_margin text = Ok nrm /\ parse_actual_eps text = Ok eps /\
    raw = metric_table nlp text nrm eps.
Proof.
  intros text raw H. unfold metric_results in H.
  destruct (nlp_check (clean_text text)) as [[]|]; [|discriminate H].
  cbn [bind] in H.
  destruct (parse_net_revenue_margin text) as [nrm|] eqn:E1; [|discriminate H].
  destruct (parse_actual_eps text) as [eps|] eqn:E2; [|discriminate H].
  exists nrm, eps. split; [reflexivity|]. split; [reflexivity|].
  cbn [bind] in H. apply Ok_inj in H. subst raw. reflexivity.
Qed.

Lemma narrative_lookup : forall text r k,
  dict_get k (add_narrative nlp text r) =
  match dict_get k (add_narrative nlp text []) with
  | Some v => Some v
  | None => dict_get k r
  end.
Proof.
  intros text r k. unfold add_narrative. rewrite !dict_get_set.
  repeat (match goal with
          | |- context [String.eqb ?a k] => destruct (String.eqb a k); [reflexivity|]
          end).
  reflexivity.
Qed.

Lemma narrative_values : forall text k v,
  dict_get k (add_narrative nlp text []) = Some v -> exists l, v = VList l.
Proof.
  intros text k v. unfold add_narrative. rewrite !dict_get_set.
  repeat (match goal with
          | |- context [String.eqb ?a k] =>
              destruct (String.eqb a k); [intros H; inversion H; eexists; reflexivity|]
          end).
  discriminate.
Qed.

Lemma narrative_present : forall text k,
  In k narrative_keys -> exists l, dict_get k (add_narrative nlp text []) = Some (VList l).
Proof.
  intros text k H. unfold add_narrative. rewrite !dict_get_set.
  unfold narrative_keys in H. simpl in H.
  repeat (destruct H as [<-|H]; [eexists; reflexivity|]). contradiction.
Qed.

Lemma metric_not_narrative : forall text nrm eps k v,
  dict_get k (metric_table nlp text nrm eps) = Some v ->
  dict_get k (add_narrative nlp text []) = None.
Proof.
  intros text nrm eps k v H. apply dict_get_in in H.
  unfold add_narrative. rewrite !dict_get_set.
  unfold metric_table in H. cbn [map fst] in H.
  repeat (destruct H as [<-|H]; [reflexivity|]). contradiction.
Qed.

Lemma metric_table_distinct : forall text nrm eps,
  distinct (map fst (metric_table nlp text nrm eps)) = true.
Proof. intros. unfold metric_table. cbn [map fst]. vm_compute. reflexivity. Qed.

(** What [extract_metrics] stores under a key: the narrative list for a
    narrative key, otherwise the matcher's value unless it is [None]. *)
Lemma extract_metrics_lookup : forall text d,
  extract_metrics nlp text = Ok d ->
  exists nrm eps,
    parse_net_revenue_margin text = Ok nrm /\ parse_actual_eps text = Ok eps /\
    forall k,
      dict_get k d =
      match dict_get k (add_narrative nlp text []) with
      | Some v => Some v
      | None =>
          match dict_get k (metric_table nlp text nrm eps) with
          | Some VNone => None
          | x => x
          end
      end.
Proof.
  intros text d H. unfold extract_metrics in H.
  destruct (metric_results nlp text) as [raw|] eqn:E; [|discriminate H].
  destruct (metric_results_table _ _ E) as [nrm [eps [E1 [E2 ->]]]].
  exists nrm, eps. split; [exact E1|]. split; [exact E2|].
  cbn [bind] in H. apply Ok_inj in H. subst d. intros k.
  rewrite narrative_lookup.
  rewrite (dict_get_remove_null k _ (metric_table_distinct text nrm eps)). reflexivity.
Qed.

(** The extraction returns only on a text [nlp] accepts. *)
Lemma extract_metrics_checked : forall text d,
  extract_metrics nlp text = Ok d -> nlp_check (clean_text text) = Ok tt.
Proof.
  intros text d H. unfold extract_metrics, metric_results in H.
  destruct (nlp_check (clean_text text)) as [[]|]; [reflexivity | discriminate H].
Qed.

End Orchestrator.
End DictFacts.

(** ** Every pattern is in the modelled syntax *)

Lemma patterns_parse :
  forallb (fun pat => is_some (Re.parse pat)) program_patterns = true.
Proof. vm_compute. reflexivity. Qed.

(** * The claims *)

(** ** The numeric/unit normalizer *)

(** C1. For every literal that parses as a float once commas and
    dollar signs are removed, [normalize_number] returns the value in
    millions rounded to three decimals: times 1000 for the billion
    family, unchanged for the million family, divided by 1000 for the
    thousand family; with no unit (or a token outside the three
    families), divided by 1,000,000 when the parsed value is at least
    1,000,000 and unchanged below. So ("2.5",
    "billion") gives 2500.0, ("1500000", None) gives 1.5, ("500",
    "thousand") gives 0.5, and ("750", None), which is below the
    threshold, gives 750.0. *)
Theorem C1_normalize_number_rule :
  forall (num_str : string) (unit : option string) (num : float),
  Conv.float_of_string (replace_char "$" "" (replace_char "," "" num_str)) = Some num ->
  let u := strip (lower (or_empty unit)) in
  (In u ["billion"; "bn"; "b"] ->
     normalize_number (Some num_str) unit = Some (round3 (num * 1000))) /\
  (In u ["million"; "mn"; "mm"; "m"] ->
     normalize_number (Some num_str) unit = Some (round3 num)) /\
  (In u ["thousand"; "k"] ->
     normalize_number (Some num_str) unit = Some (round3 (num / 1000))) /\
  (mem u scale_words = false -> (1000000 <=? num)%float = true ->
     normalize_number (Some num_str) unit = Some (round3 (num / 1000000))) /\
  (mem u scale_words = false -> (1000000 <=? num)%float = false ->
     normalize_number (Some num_str) unit = Some (round3 num)) /\
  mem (strip (lower (or_empty None))) scale_words = false /\
  normalize_number (Some "2.5") (Some "billion") = Some 2500%float /\
  normalize_number (Some "1500000") None = Some 1.5%float /\
  normalize_number (Some "500") (Some "thousand") = Some 0.5%float /\
  normalize_number (Some "750") None = Some 750%float.
Proof.
  intros num_str unit num H u.
  assert (N : normalize_number (Some num_str) unit =
              if mem u ["billion"; "bn"; "b"] then Some (round3 (num * 1000))
              else if mem u ["million"; "mn"; "mm"; "m"] then Some (round3 num)
              else if mem u ["thousand"; "k"] then Some (round3 (num / 1000))
              else if (1000000 <=? num)%float then Some (round3 (num / 1000000))
              else Some (round3 num)).
  { unfold normalize_number. rewrite H. reflexivity. }
  rewrite N. clearbody u. clear N H.
  assert (U : mem u scale_words = false ->
              mem u ["billion"; "bn"; "b"] = false /\
              mem u ["million"; "mn"; "mm"; "m"] = false /\
              mem u ["thousand"; "k"] = false).
  { unfold mem, scale_words. cbn [existsb]. intros M.
    repeat match type of M with
           | (_ || _)%bool = false =>
               apply orb_false_iff in M; destruct M as [?E M]
           end.
    repeat match goal with
           | H : String.eqb _ _ = false |- _ => rewrite H; clear H
           end.
    repeat split; reflexivity. }
  split; [|split; [|split; [|split; [|split; [|split]]]]].
  - intros I. simpl in I.
    repeat (destruct I as [<-|I]; [reflexivity|]). contradiction.
  - intros I. simpl in I.
    repeat (destruct I as [<-|I]; [reflexivity|]). contradiction.
  - intros I. simpl in I.
    repeat (destruct I as [<-|I]; [reflexivity|]). contradiction.
  - intros M L. destruct (U M) as [M1 [M2 M3]]. rewrite M1, M2, M3, L. reflexivity.
  - intros M L. destruct (U M) as [M1 [M2 M3]]. rewrite M1, M2, M3, L. reflexivity.
  - reflexivity.
  - repeat split; reflexivity.
Qed.

Lemma C1_normalize_number_witness :
  normalize_number (Some "$14,400,000,000") None = Some 14400%float.
Proof.
  refine (proj1 (proj2 (proj2 (proj2
    (C1_normalize_number_rule "$14,400,000,000" None 14400000000%float _)))) _ _);
    reflexivity.
Defined.

(** The example of the claim as it was stated: ("750", None) gives
    750.0, which is not 0.00075. *)
Lemma C1_counterexample :
  normalize_number (Some "750") None = Some 750%float /\
  (750 =? 0.00075)%float = false.
Proof. split; reflexivity. Qed.

(** ** The orchestrator *)

(** C2. Whenever the extraction returns a mapping: a metric key whose
    matcher returned no value is absent from it, a metric key whose
    matcher returned a value holds that value, no key holds a null, and
    each of the eleven narrative keys is present with a list of
    sentences; in particular, when the revenue matcher finds nothing
    there is no [revenue] key. *)
Theorem C2_absent_metrics_pruned :
  forall (nlp : string -> list string) (text : string) (d : dict),
  extract_metrics nlp text = Ok d ->
  exists nrm eps,
    parse_net_revenue_margin text = Ok nrm /\ parse_actual_eps text = Ok eps /\
    (forall k, dict_get k (metric_table nlp text nrm eps) = Some VNone ->
               dict_get k d = None) /\
    (forall k x, dict_get k (metric_table nlp text nrm eps) = Some (VFloat x) ->
                 dict_get k d = Some (VFloat x)) /\
    (forall k, dict_get k d = Some VNone -> False) /\
    (forall k, In k narrative_keys -> exists l, dict_get k d = Some (VList l)) /\
    (parse_revenue text = None -> dict_get "revenue" d = None).
Proof.
  intros nlp text d H.
  destruct (DictFacts.extract_metrics_lookup nlp text d H) as [nrm [eps [E1 [E2 L]]]].
  exists nrm, eps. split; [exact E1|]. split; [exact E2|].
  assert (A : forall k, dict_get k (metric_table nlp text nrm eps) = Some VNone ->
                        dict_get k d = None).
  { intros k Hk. rewrite L, (DictFacts.metric_not_narrative nlp _ _ _ _ _ Hk), Hk.
    reflexivity. }
  repeat split.
  - exact A.
  - intros k x Hk. rewrite L, (DictFacts.metric_not_narrative nlp _ _ _ _ _ Hk), Hk.
    reflexivity.
  - intros k Hk. rewrite L in Hk.
    destruct (dict_get k (add_narrative nlp text [])) as [v|] eqn:N.
    + destruct (DictFacts.narrative_values nlp _ _ _ N) as [l ->]. discriminate Hk.
    + destruct (dict_get k (metric_table nlp text nrm eps)) as [[| |]|]; discriminate Hk.
  - intros k Hk. rewrite L.
    destruct (DictFacts.narrative_present nlp text k Hk) as [l ->]. exists l. reflexivity.
  - intros R. apply A. unfold metric_table. cbn [dict_get String.eqb Ascii.eqb Bool.eqb].
    rewrite R. reflexivity.
Qed.

Lemma C2_absent_metrics_witness :
  exists d,
    extract_metrics (fun t => [t]) "We expect net income of $200 million." = Ok d /\
    dict_get "revenue" d = None /\
    dict_get "net_income" d = Some (VFloat 200) /\
    dict_get "forward_look" d = Some (VList ["We expect net income of $200 million."]) /\
    dict_get "guidance" d = Some (VList []).
Proof.
  eexists.
  match goal with |- ?A /\ _ => assert (H : A) by (vm_compute; reflexivity) end.
  split; [exact H|].
  split; [|vm_compute; repeat split; reflexivity].
  destruct (C2_absent_metrics_pruned _ _ _ H) as [nrm [eps [_ [_ [_ [_ [_ [_ R]]]]]]]].
  apply R. vm_compute. reflexivity.
Defined.

(** ** Sign inference *)

Lemma for_sentences_first : forall body pre s post ret,
  (forall x, In x pre -> body x = None) ->
  body s = Some ret ->
  for_sentences body (pre ++ s :: post)%list = ret.
Proof.
  intros body pre s post ret Hpre Hs. induction pre as [|x pre IH]; simpl.
  - rewrite Hs. reflexivity.
  - rewrite (Hpre x (or_introl eq_refl)). apply IH. intros y Hy. apply Hpre. right. exact Hy.
Qed.

(** C3 (as amended). Net income: the value of the first sentence the
    pattern matches (among those not mentioning adjusted net income) is
    negated exactly when the matched head noun is [loss]; a loss,
    negative or deficit word elsewhere in the sentence plays no part.
    Actual EPS: the magnitude of the captured value (or the spoken value)
    is negated exactly when one of the words loss, negative, deficit
    occurs anywhere in the normalized text. So "net loss of $200 million"
    gives -200.0 and "net income of $200 million" gives 200.0. *)
Theorem C3_sign_inference :
  forall nlp : string -> list string,
  (forall text pre s post m val,
     filter (fun s => negb (contains "adjusted net income" (lower s)))
            (nlp (clean_text text)) = (pre ++ s :: post)%list ->
     (forall x, In x pre -> Re.search true (Re.compile net_income_pattern) x = None) ->
     Re.search true (Re.compile net_income_pattern) s = Some m ->
     normalize_number (option_map (replace_char "," "") (Re.group m 2)) (Re.group m 3)
       = Some val ->
     parse_net_income nlp text =
       Some (if String.eqb (lower (or_empty (Re.group m 1))) "loss"
             then (- val)%float else val)) /\
  (forall text m x,
     Re.search true (Re.compile actual_eps_pattern) (clean_text text) = Some m ->
     float_of_group (Re.group m 1) = Some x ->
     parse_actual_eps text =
       Ok (Some (round3 (if has_loss_marker (clean_text text)
                         then (- abs x)%float else abs x)))) /\
  (forall text m num_val val,
     Re.search true (Re.compile actual_eps_pattern) (clean_text text) = None ->
     Re.search true (Re.compile actual_eps_spoken_pattern) (clean_text text) = Some m ->
     spoken_to_number (or_empty (Re.group m 1)) = Some num_val ->
     float_of_int num_val = Ok val ->
     parse_actual_eps text =
       Ok (Some (round3
         (let val := if contains "cent" (lower (or_empty (Re.group m 2)))
                     then (val / 100)%float else val in
          if has_loss_marker (clean_text text) then (- val)%float else val)))) /\
  (nlp "net loss of $200 million" = ["net loss of $200 million"] ->
     parse_net_income nlp "net loss of $200 million" = Some (-200)%float) /\
  (nlp "net income of $200 million" = ["net income of $200 million"] ->
     parse_net_income nlp "net income of $200 million" = Some 200%float).
Proof.
  intros nlp. split; [|split; [|split; [|split]]].
  - intros text pre s post m val F Hpre Hs Hv.
    unfold parse_net_income. cbv zeta. rewrite F.
    apply for_sentences_first.
    + intros x Hx. unfold net_income_body. rewrite (Hpre x Hx). reflexivity.
    + unfold net_income_body. rewrite Hs. unfold net_income_value. rewrite Hv.
      destruct (String.eqb _ "loss"); reflexivity.
  - intros text m x Hs Hx. unfold parse_actual_eps. cbv zeta. rewrite Hs, Hx.
    destruct (has_loss_marker (clean_text text)); reflexivity.
  - intros text m num_val val Hn Hs Hv Hf. unfold parse_actual_eps. cbv zeta.
    rewrite Hn, Hs, Hv, Hf. reflexivity.
  - intros H. unfold parse_net_income. cbv zeta.
    change (clean_text "net loss of $200 million") with "net loss of $200 million".
    rewrite H. vm_compute. reflexivity.
  - intros H. unfold parse_net_income. cbv zeta.
    change (clean_text "net income of $200 million") with "net income of $200 million".
    rewrite H. vm_compute. reflexivity.
Qed.

Lemma C3_sign_inference_witness :
  parse_net_income (fun t => [t]) "net loss of $200 million" = Some (-200)%float /\
  parse_actual_eps "Actual EPS: -0.25 (loss)" = Ok (Some (-0.25)%float).
Proof.
  split.
  - apply (proj1 (proj2 (proj2 (proj2 (C3_sign_inference (fun t => [t])))))).
    reflexivity.
  - assert (S : exists m, Re.search true (Re.compile actual_eps_pattern)
                            (clean_text "Actual EPS: -0.25 (loss)") = Some m /\
                          float_of_group (Re.group m 1) = Some (-0.25)%float).
    { eexists. split; [vm_compute; reflexivity | vm_compute; reflexivity]. }
    destruct S as [m [S1 S2]].
    rewrite (proj1 (proj2 (C3_sign_inference (fun t => [t]))) _ m _ S1 S2).
    vm_compute. reflexivity.
Defined.

(** The claim as it was stated fails on both metrics: a sentence with
    the marker [negative] and the head noun [income] keeps a positive
    net income, and an EPS whose own sentence has no marker is negated
    by a marker in another sentence. *)
Lemma C3_counterexample :
  parse_net_income (fun t => [t]) "net income was negative $200 million" = Some 200%float /\
  has_loss_marker "net income was negative $200 million" = true /\
  parse_actual_eps "Actual EPS $0.17 this quarter. Hurricane loss claims fell."
    = Ok (Some (-0.17)%float) /\
  has_loss_marker "Actual EPS $0.17 this quarter." = false.
Proof. repeat split; vm_compute; reflexivity. Qed.

(** ** Confusable phrases *)

(** When [nlp] accepts the text and the two matchers that can raise
    return, so does the extraction, and a metric key holds its
    matcher's value unless that is [None]. *)
Lemma extract_metrics_returns : forall nlp text nrm eps,
  nlp_check (clean_text text) = Ok tt ->
  parse_net_revenue_margin text = Ok nrm ->
  parse_actual_eps text = Ok eps ->
  exists d, extract_metrics nlp text = Ok d /\
    forall k v, dict_get k (metric_table nlp text nrm eps) = Some v ->
      dict_get k d = match v with VNone => None | _ => Some v end.
Proof.
  intros nlp text nrm eps E0 E1 E2.
  exists (add_narrative nlp text (remove_null_metrics (metric_table nlp text nrm eps))).
  split.
  - unfold extract_metrics, metric_results. rewrite E0, E1, E2. reflexivity.
  - intros k v Hk. rewrite DictFacts.narrative_lookup.
    rewrite (DictFacts.metric_not_narrative nlp _ _ _ _ _ Hk).
    rewrite (DictFacts.dict_get_remove_null k _ (DictFacts.metric_table_distinct nlp text nrm eps)).
    rewrite Hk. destruct v; reflexivity.
Qed.

Lemma filter_all_false : forall (A : Type) (p : A -> bool) (l : list A),
  (forall x, In x l -> p x = false) -> filter p l = [].
Proof.
  intros A p l. induction l as [|x l IH]; intros H; simpl; [reflexivity|].
  rewrite (H x (or_introl eq_refl)). apply IH. intros y Hy. apply H. right. exact Hy.
Qed.

(** What the matchers of the example read depends on the cleaned text
    only. *)
Lemma adjusted_net_income_example : forall text,
  clean_text text = "adjusted net income was $50 million" ->
  nlp_check (clean_text text) = Ok tt /\
  parse_net_revenue_margin text = Ok None /\
  parse_actual_eps text = Ok None /\
  parse_adjusted_net_income text = Some 50%float.
Proof.
  intros text H. unfold parse_net_revenue_margin, parse_actual_eps, parse_adjusted_net_income.
  cbv zeta. rewrite H. repeat split; vm_compute; reflexivity.
Qed.

(** C4 (as amended). The plain net-income matcher skips every sentence
    containing "adjusted net income": a text all of whose sentences
    contain the phrase has no net income, and no net_income key in the
    result; such a sentence can be dropped from the segmentation
    without changing the result. For every text that reads "adjusted
    net income was $50 million" once its whitespace is normalized, the
    extraction returns adjusted_net_income = 50.0 and no net_income
    key. *)
Theorem C4_adjusted_net_income_excluded :
  forall nlp : string -> list string,
  (forall text,
     (forall s, In s (nlp (clean_text text)) ->
                contains "adjusted net income" (lower s) = true) ->
     parse_net_income nlp text = None /\
     forall d, extract_metrics nlp text = Ok d -> dict_get "net_income" d = None) /\
  (forall text pre s post,
     nlp (clean_text text) = (pre ++ s :: post)%list ->
     contains "adjusted net income" (lower s) = true ->
     parse_net_income nlp text = parse_net_income (fun _ => (pre ++ post)%list) text) /\
  (forall text,
     clean_text text = "adjusted net income was $50 million" ->
     (forall s, In s (nlp (clean_text text)) ->
                contains "adjusted net income" (lower s) = true) ->
     exists d,
       extract_metrics nlp text = Ok d /\
       dict_get "adjusted_net_income" d = Some (VFloat 50) /\
       dict_get "net_income" d = None).
Proof.
  intros nlp.
  assert (A : forall text,
     (forall s, In s (nlp (clean_text text)) ->
                contains "adjusted net income" (lower s) = true) ->
     parse_net_income nlp text = None).
  { intros text H. unfold parse_net_income. cbv zeta.
    rewrite filter_all_false; [reflexivity|].
    intros x Hx. rewrite (H x Hx). reflexivity. }
  assert (B : forall text,
     (forall s, In s (nlp (clean_text text)) ->
                contains "adjusted net income" (lower s) = true) ->
     forall d, extract_metrics nlp text = Ok d -> dict_get "net_income" d = None).
  { intros text H d Hd.
    destruct (DictFacts.extract_metrics_lookup nlp text d Hd) as [nrm [eps [_ [_ L]]]].
    rewrite L.
    assert (T : dict_get "net_income" (metric_table nlp text nrm eps) = Some VNone).
    { unfold metric_table. cbn [dict_get String.eqb Ascii.eqb Bool.eqb].
      rewrite (A text H). reflexivity. }
    rewrite (DictFacts.metric_not_narrative nlp _ _ _ _ _ T), T. reflexivity. }
  split; [intros text H; split; [apply A | apply B]; exact H|]. split.
  - intros text pre s post H Hs. unfold parse_net_income. cbv zeta.
    rewrite H, !filter_app. simpl. rewrite Hs. reflexivity.
  - intros text C H.
    destruct (adjusted_net_income_example text C) as [E0 [E1 [E2 V]]].
    destruct (extract_metrics_returns nlp _ _ _ E0 E1 E2) as [d [Hd L]].
    exists d. split; [exact Hd|]. split; [|exact (B text H d Hd)].
    rewrite (L "adjusted_net_income" (VFloat 50)); [reflexivity|].
    unfold metric_table. cbn [dict_get String.eqb Ascii.eqb Bool.eqb].
    rewrite V. reflexivity.
Qed.

Lemma C4_adjusted_net_income_witness :
  exists d,
    extract_metrics (fun t => [t])
      ("  adjusted net income" ++ String "010" "was  $50 million ") = Ok d /\
    dict_get "adjusted_net_income" d = Some (VFloat 50) /\
    dict_get "net_income" d = None.
Proof.
  apply (proj2 (proj2 (C4_adjusted_net_income_excluded (fun t => [t])))).
  - vm_compute. reflexivity.
  - intros s H.
    assert (L : forallb (fun s => contains "adjusted net income" (lower s))
                  [clean_text ("  adjusted net income" ++ String "010" "was  $50 million ")]
                = true) by (vm_compute; reflexivity).
    rewrite forallb_forall in L. exact (L s H).
Defined.

(** The claim as it was stated fails on a longer text whose only metric
    mention is the phrase: the matcher of the adjusted net income tries
    a number standing before the phrase first, so the 3 of "Q3" is taken
    and the 50 million never read. *)
Lemma C4_counterexample :
  parse_adjusted_net_income "Q3 adjusted net income was $50 million" = Some 3%float /\
  match extract_metrics (fun t => [t]) "Q3 adjusted net income was $50 million" with
  | Ok d => dict_get "adjusted_net_income" d
  | Raise _ => None
  end = Some (VFloat 3) /\
  (3 =? 50)%float = false.
Proof. split; [|split]; vm_compute; reflexivity. Qed.

(** ** The revenue cascade *)

Lemma revenue_first_value_first : forall pre m post val,
  (forall x, In x pre ->
     normalize_number (Some (Re.group_or_empty x 2)) (Some (Re.group_or_empty x 3)) = None) ->
  normalize_number (Some (Re.group_or_empty m 2)) (Some (Re.group_or_empty m 3)) = Some val ->
  revenue_first_value (pre ++ m :: post)%list = Some val.
Proof.
  intros pre m post val Hpre Hm. induction pre as [|x pre IH]; cbn [revenue_first_value app].
  - rewrite Hm. reflexivity.
  - rewrite (Hpre x (or_introl eq_refl)). apply IH. intros y Hy. apply Hpre. right. exact Hy.
Qed.

Lemma revenue_first_value_none : forall candidates,
  (forall x, In x candidates ->
     normalize_number (Some (Re.group_or_empty x 2)) (Some (Re.group_or_empty x 3)) = None) ->
  revenue_first_value candidates = None.
Proof.
  induction candidates as [|x l IH]; intros H; cbn [revenue_first_value]; [reflexivity|].
  rewrite (H x (or_introl eq_refl)). apply IH. intros y Hy. apply H. right. exact Hy.
Qed.

(** C5. The revenue matcher tries the near-keyword candidates first, in
    the order [findall] lists them, and returns the first one that
    normalizes to a value; the fallback literal is consulted only when
    no candidate does, and it yields nothing unless "revenue" occurs in
    the text. On a text where "revenue" is followed by a near number
    and, more than forty words later, by a dollar literal of seven
    digits, the near number wins although the fallback alone would
    have accepted the literal. *)
Theorem C5_revenue_cascade_order :
  forall text : string,
  (forall pre m post val,
     Re.findall true (Re.compile revenue_pattern) (clean_text text)
       = (pre ++ m :: post)%list ->
     (forall x, In x pre ->
        normalize_number (Some (Re.group_or_empty x 2)) (Some (Re.group_or_empty x 3))
          = None) ->
     normalize_number (Some (Re.group_or_empty m 2)) (Some (Re.group_or_empty m 3))
       = Some val ->
     parse_revenue text = Some val) /\
  ((forall x, In x (Re.findall true (Re.compile revenue_pattern) (clean_text text)) ->
      normalize_number (Some (Re.group_or_empty x 2)) (Some (Re.group_or_empty x 3))
        = None) ->
   parse_revenue text = revenue_fallback (clean_text text)) /\
  (contains "revenue" (lower (clean_text text)) = false ->
   revenue_fallback (clean_text text) = None) /\
  (forall fm,
     contains "revenue" (lower (clean_text text)) = true ->
     Re.search true (Re.compile revenue_fallback_pattern) (clean_text text) = Some fm ->
     revenue_fallback (clean_text text) = normalize_number (Re.group fm 1) None) /\
  parse_revenue revenue_then_literal = Some 500%float /\
  revenue_fallback (clean_text revenue_then_literal) = Some 1.235%float /\
  parse_revenue "Revenue, as always, matters. Revenue was $200 million." = Some 200%float.
Proof.
  intros text. split; [|split; [|split; [|split; [|split; [|split]]]]].
  - intros pre m post val F Hpre Hm. unfold parse_revenue. cbv zeta. rewrite F.
    rewrite (revenue_first_value_first pre m post val Hpre Hm). reflexivity.
  - intros H. unfold parse_revenue. cbv zeta.
    rewrite (revenue_first_value_none _ H). reflexivity.
  - intros H. unfold revenue_fallback. rewrite H. reflexivity.
  - intros fm H S. unfold revenue_fallback. rewrite H, S. reflexivity.
  - vm_compute. reflexivity.
  - vm_compute. reflexivity.
  - vm_compute. reflexivity.
Qed.

Lemma C5_revenue_cascade_witness :
  parse_revenue "no keyword here but $1,234,567" = None.
Proof.
  rewrite (proj1 (proj2 (C5_revenue_cascade_order "no keyword here but $1,234,567"))).
  - apply (proj1 (proj2 (proj2 (C5_revenue_cascade_order "no keyword here but $1,234,567")))).
    vm_compute. reflexivity.
  - intros x Hx. vm_compute in Hx. contradiction Hx.
Defined.

(** ** The spoken-number decoder *)

(** C6 (as amended). The decoder computes what the specification
    describes (split on whitespace, consume the leading tokens that
    are number-words below one hundred, the fillers oh/o, or digit
    runs, concatenate their digits and read one integer, with no value
    when nothing was consumed) as long as the concatenated digits are
    at most 4300; beyond that it returns no value. So "three eighteen"
    is 318; "actual EPS of seventeen cents" gives actual_eps = 0.17,
    and with ", a loss" appended -0.17, in the matcher and in the
    extraction result. *)
Theorem C6_spoken_number_decoder :
  (forall span : string,
     spoken_to_number span =
     if (String.length (spoken_digit_string span) <=? 4300)%nat
     then decode_spoken span else None) /\
  spoken_to_number "three eighteen" = Some 318%Z /\
  parse_actual_eps "actual EPS of seventeen cents" = Ok (Some 0.17%float) /\
  parse_actual_eps "actual EPS of seventeen cents, a loss" = Ok (Some (-0.17)%float) /\
  (forall nlp : string -> list string,
     exists d, extract_metrics nlp "actual EPS of seventeen cents" = Ok d /\
               dict_get "actual_eps" d = Some (VFloat 0.17)) /\
  (forall nlp : string -> list string,
     exists d, extract_metrics nlp "actual EPS of seventeen cents, a loss" = Ok d /\
               dict_get "actual_eps" d = Some (VFloat (-0.17))).
Proof.
  split; [exact SpokenFacts.spoken_to_number_decode|].
  split; [vm_compute; reflexivity|].
  assert (E1 : parse_actual_eps "actual EPS of seventeen cents" = Ok (Some 0.17%float))
    by (vm_compute; reflexivity).
  assert (E2 : parse_actual_eps "actual EPS of seventeen cents, a loss"
               = Ok (Some (-0.17)%float)) by (vm_compute; reflexivity).
  split; [exact E1|]. split; [exact E2|]. split.
  - intros nlp.
    assert (M : parse_net_revenue_margin "actual EPS of seventeen cents" = Ok None)
      by (vm_compute; reflexivity).
    assert (N : nlp_check (clean_text "actual EPS of seventeen cents") = Ok tt)
      by (vm_compute; reflexivity).
    destruct (extract_metrics_returns nlp _ _ _ N M E1) as [d [Hd L]].
    exists d. split; [exact Hd|].
    rewrite (L "actual_eps" (VFloat 0.17)); reflexivity.
  - intros nlp.
    assert (M : parse_net_revenue_margin "actual EPS of seventeen cents, a loss" = Ok None)
      by (vm_compute; reflexivity).
    assert (N : nlp_check (clean_text "actual EPS of seventeen cents, a loss") = Ok tt)
      by (vm_compute; reflexivity).
    destruct (extract_metrics_returns nlp _ _ _ N M E2) as [d [Hd L]].
    exists d. split; [exact Hd|].
    rewrite (L "actual_eps" (VFloat (-0.17))); reflexivity.
Qed.

(** The claim as it was stated fails on a span of 4301 digits: the
    decoder of the specification reads an integer, the program consumes
    the token and returns no value. *)
Lemma C6_counterexample :
  spoken_to_number long_digit_run = None /\
  decode_spoken long_digit_run = Some (decimal_value long_digit_run) /\
  String.length (spoken_digit_string long_digit_run) = 4301%nat.
Proof. split; [|split]; vm_compute; reflexivity. Qed.

(** ** Unparsable literals *)

(** C7 (the code at the failing input). [normalize_number] returns no
    value, without raising, on every literal that does not parse; but
    [parse_net_income] returns at the first sentence its pattern
    matches even then: on a document whose first sentence reads "Net
    income, ..." the captured literal is the comma, and the second
    sentence, which alone gives 200.0, is never examined. The revenue
    matcher, on the same wording, goes on to its next candidate. *)
Theorem C7_net_income_stops_at_unparsable_literal :
  (forall num_str unit,
     Conv.float_of_string (replace_char "$" "" (replace_char "," "" num_str)) = None ->
     normalize_number (Some num_str) unit = None) /\
  normalize_number (Some ",") None = None /\
  parse_net_income
    (fun _ => ["Net income, as always, matters."; "Net income was $200 million."])
    "Net income, as always, matters. Net income was $200 million." = None /\
  parse_net_income (fun _ => ["Net income was $200 million."])
    "Net income was $200 million." = Some 200%float /\
  parse_revenue "Revenue, as always, matters. Revenue was $200 million." = Some 200%float.
Proof.
  split.
  - intros num_str unit H. unfold normalize_number. rewrite H. reflexivity.
  - split; [|split; [|split]]; vm_compute; reflexivity.
Qed.

(** * Further properties *)

(** ** The matcher: what a match consumes and captures *)

Module ReLangFacts.
Import Re ReLang ReFacts.

Lemma append_nil_r : forall s : string, (s ++ "")%string = s.
Proof. induction s as [|c s IH]; simpl; [reflexivity | rewrite IH; reflexivity]. Qed.

Lemma iter_app : forall L n m u v,
  iter L n u -> iter L m v -> iter L (n + m) (u ++ v)%string.
Proof.
  intros L n. induction n as [|n IH]; intros m u v Hu Hv; simpl in *.
  - subst u. exact Hv.
  - destruct Hu as [a [b [-> [Ha Hb]]]]. exists a, (b ++ v)%string.
    split; [apply append_assoc|]. split; [exact Ha|]. apply IH; assumption.
Qed.

Section Sound.
Variable ic : bool.

Lemma consumes_step : forall p,
  consumes (fun w => exists a, w = String a EmptyString /\ p a = true)
           (fun _ _ => False) (step p).
Proof.
  intros p c g k o H. unfold step in H.
  destruct (rest c) as [|a s'] eqn:Hr; [discriminate|].
  destruct (p a) eqn:Hp; [|discriminate].
  eexists _, g, (String a EmptyString). split; [exact H|]. simpl.
  split; [reflexivity|]. split; [lia|]. split; [exists a; auto|]. auto.
Qed.

Lemma consumes_weaken : forall (L L' : string -> Prop) (G G' : nat -> string -> Prop) f,
  consumes L G f -> (forall w, L w -> L' w) -> (forall n t, G n t -> G' n t) ->
  consumes L' G' f.
Proof.
  intros L L' G G' f Hf HL HG c g k o H.
  destruct (Hf c g k o H) as [c' [g' [w [Hk [Hr [Hp [Hw Hg]]]]]]].
  exists c', g', w. repeat split; auto.
  intros n t Hin. destruct (Hg n t Hin); auto.
Qed.

Lemma consumes_rep_more : forall L G body greedy fuel,
  consumes L G body ->
  consumes (fun w => exists n, (n <= fuel)%nat /\ iter L n w) G
           (fun c g k => rep_more body greedy k fuel c g).
Proof.
  intros L G body greedy fuel Hb.
  induction fuel as [|f IH]; intros c g k o H.
  - simpl in H. exists c, g, EmptyString. split; [exact H|]. simpl.
    split; [reflexivity|]. split; [lia|]. split; [exists 0%nat; simpl; auto|]. auto.
  - rewrite rep_more_S in H.
    assert (Hstop : k c g = Some o ->
      exists c' g' w, k c' g' = Some o /\
        rest c = (w ++ rest c')%string /\ pos c' = (pos c + String.length w)%nat /\
        (exists n, (n <= S f)%nat /\ iter L n w) /\
        (forall n t, In (n, t) g' -> In (n, t) g \/ G n t)).
    { intros Hk. exists c, g, EmptyString. split; [exact Hk|]. simpl.
      split; [reflexivity|]. split; [lia|]. split; [exists 0%nat; simpl; split; [lia|auto]|].
      auto. }
    assert (Hagain : body c g (fun c' g' =>
        if (pos c <? pos c')%nat then rep_more body greedy k f c' g' else None) = Some o ->
      exists c' g' w, k c' g' = Some o /\
        rest c = (w ++ rest c')%string /\ pos c' = (pos c + String.length w)%nat /\
        (exists n, (n <= S f)%nat /\ iter L n w) /\
        (forall n t, In (n, t) g' -> In (n, t) g \/ G n t)).
    { intros Ha. destruct (Hb _ _ _ _ Ha) as [c1 [g1 [w1 [Hk1 [Hr1 [Hp1 [Hw1 Hg1]]]]]]].
      destruct (pos c <? pos c1)%nat; [|discriminate].
      destruct (IH _ _ _ _ Hk1) as [c2 [g2 [w2 [Hk2 [Hr2 [Hp2 [[n [Hn Hw2]] Hg2]]]]]]].
      exists c2, g2, (w1 ++ w2)%string. split; [exact Hk2|].
      split; [rewrite Hr1, Hr2; symmetry; apply append_assoc|].
      split; [rewrite length_append; lia|]. split.
      - exists (S n). split; [lia|]. simpl. exists w1, w2. auto.
      - intros m t Hin. destruct (Hg2 m t Hin) as [Hin1|HG]; auto. }
    cbv zeta in H. destruct greedy; unfold or_else in H.
    + destruct (body c g _) eqn:E.
      * apply Hagain. exact H.
      * apply Hstop. exact H.
    + destruct (k c g) eqn:E.
      * apply Hstop. exact H.
      * apply Hagain. exact H.
Qed.

Lemma consumes_rep_required :
  forall (L La : string -> Prop) (G : nat -> string -> Prop) body (after : cont) k n c g o,
  consumes L G body ->
  (forall c g o, after c g = Some o ->
     exists c' g' w, k c' g' = Some o /\
       rest c = (w ++ rest c')%string /\ pos c' = (pos c + String.length w)%nat /\
       La w /\ (forall n t, In (n, t) g' -> In (n, t) g \/ G n t)) ->
  rep_required body after n c g = Some o ->
  exists c' g' w, k c' g' = Some o /\
    rest c = (w ++ rest c')%string /\ pos c' = (pos c + String.length w)%nat /\
    (exists u v, w = (u ++ v)%string /\ iter L n u /\ La v) /\
    (forall n t, In (n, t) g' -> In (n, t) g \/ G n t).
Proof.
  intros L La G body after k n. induction n as [|n IH]; intros c g o Hb Ha H; simpl in H.
  - destruct (Ha _ _ _ H) as [c' [g' [w [Hk [Hr [Hp [Hw Hg]]]]]]].
    exists c', g', w. repeat split; auto. exists EmptyString, w. simpl. auto.
  - destruct (Hb _ _ _ _ H) as [c1 [g1 [w1 [Hk1 [Hr1 [Hp1 [Hw1 Hg1]]]]]]].
    destruct (IH _ _ _ Hb Ha Hk1)
      as [c2 [g2 [w2 [Hk2 [Hr2 [Hp2 [[u [v [-> [Hu Hv]]]] Hg2]]]]]]].
    exists c2, g2, (w1 ++ (u ++ v))%string. split; [exact Hk2|].
    split; [rewrite Hr1, Hr2; symmetry; apply append_assoc|].
    split; [rewrite length_append; lia|]. split.
    + exists (w1 ++ u)%string, v. split; [symmetry; apply append_assoc|].
      split; [|exact Hv]. simpl. exists w1, u. auto.
    + intros m t Hin. destruct (Hg2 m t Hin) as [Hin1|HG]; auto.
Qed.

Lemma between_consumed : forall c c' w,
  rest c = (w ++ rest c')%string -> pos c' = (pos c + String.length w)%nat ->
  between c c' = w.
Proof.
  intros c c' w Hr Hp. unfold between. rewrite Hr, Hp.
  replace (pos c + String.length w - pos c)%nat with (String.length w) by lia.
  apply take_append.
Qed.

(** Whatever way the matcher finds through a pattern, the text it
    consumes is one of the pattern's texts and each capture is one of
    the group's. *)
Lemma consumes_run : forall r, consumes (lang ic r) (glang ic r) (run ic r).
Proof.
  induction r as [| x | | neg items | | | | a IHa b IHb | a IHa b IHb
                  | greedy lo hi a IHa | n a IHa].
  - intros c g k o H. simpl in H. exists c, g, EmptyString. simpl.
    repeat split; auto; lia.
  - apply (consumes_weaken _ _ _ _ _ (consumes_step _)); simpl; auto.
  - apply (consumes_weaken _ _ _ _ _ (consumes_step _)); simpl; auto.
    intros w [a [-> Ha]]. exists a. split; [reflexivity|].
    apply negb_true_iff in Ha. exact Ha.
  - apply (consumes_weaken _ _ _ _ _ (consumes_step _)); simpl; auto.
  - intros c g k o H. simpl in H. destruct (prev c); [discriminate|].
    exists c, g, EmptyString. simpl. repeat split; auto; lia.
  - intros c g k o H. simpl in H. destruct (at_end c); [|discriminate].
    exists c, g, EmptyString. simpl. repeat split; auto; lia.
  - intros c g k o H. simpl in H.
    destruct (xorb (word_before c) (word_after c)); [|discriminate].
    exists c, g, EmptyString. simpl. repeat split; auto; lia.
  - intros c g k o H. simpl in H.
    destruct (IHa _ _ _ _ H) as [c1 [g1 [w1 [H1 [Hr1 [Hp1 [Hw1 Hg1]]]]]]].
    destruct (IHb _ _ _ _ H1) as [c2 [g2 [w2 [H2 [Hr2 [Hp2 [Hw2 Hg2]]]]]]].
    exists c2, g2, (w1 ++ w2)%string. split; [exact H2|].
    split; [rewrite Hr1, Hr2; symmetry; apply append_assoc|].
    split; [rewrite length_append; lia|]. split.
    + simpl. exists w1, w2. auto.
    + intros m t Hin. simpl. destruct (Hg2 m t Hin) as [Hin1|HG]; auto.
      destruct (Hg1 m t Hin1); auto.
  - intros c g k o H. simpl in H. unfold or_else in H.
    destruct (run ic a c g k) eqn:E.
    + destruct (IHa _ _ _ _ E) as [c1 [g1 [w1 [H1 [Hr1 [Hp1 [Hw1 Hg1]]]]]]].
      exists c1, g1, w1. rewrite <- H. repeat split; simpl; auto.
      intros m t Hin. destruct (Hg1 m t Hin); auto.
    + destruct (IHb _ _ _ _ H) as [c1 [g1 [w1 [H1 [Hr1 [Hp1 [Hw1 Hg1]]]]]]].
      exists c1, g1, w1. repeat split; simpl; auto.
      intros m t Hin. destruct (Hg1 m t Hin); auto.
  - intros c g k o H. simpl in H.
    apply (consumes_rep_required (lang ic a)
             (fun w => exists n, match hi with
                                 | Some h => (n <= h - lo)%nat
                                 | None => True
                                 end /\ iter (lang ic a) n w)
             (glang ic a) _ _ k) in H.
    + destruct H as [c' [g' [w [Hk [Hr [Hp [[u [v [-> [Hu [m [Hm Hv]]]]]] Hg]]]]]]].
      exists c', g', (u ++ v)%string. repeat split; auto.
      simpl. exists (lo + m)%nat. split; [lia|]. split.
      * destruct hi; [lia | exact I].
      * apply iter_app; assumption.
    + exact IHa.
    + intros c0 g0 o0 H0.
      destruct (consumes_rep_more _ _ _ greedy (rep_fuel lo hi c0) IHa _ _ _ _ H0)
        as [c' [g' [w [Hk [Hr [Hp [[m [Hm Hw]] Hg]]]]]]].
      exists c', g', w. repeat split; auto.
      exists m. split; [|exact Hw]. unfold rep_fuel in Hm. destruct hi; [exact Hm | exact I].
  - intros c g k o H. simpl in H.
    destruct (IHa _ _ _ _ H) as [c1 [g1 [w1 [H1 [Hr1 [Hp1 [Hw1 Hg1]]]]]]].
    exists c1, ((n, between c c1) :: g1), w1. split; [exact H1|].
    split; [exact Hr1|]. split; [exact Hp1|]. split; [exact Hw1|].
    intros m t [Hin|Hin].
    + inversion Hin; subst. right. simpl. left. split; [reflexivity|].
      rewrite (between_consumed _ _ _ Hr1 Hp1). exact Hw1.
    + destruct (Hg1 m t Hin); [left; assumption | right; simpl; right; assumption].
Qed.

Lemma match_at_lang : forall r c m,
  match_at ic r c = Some m ->
  m_start m = c /\
  rest c = (between c (m_end m) ++ rest (m_end m))%string /\
  lang ic r (between c (m_end m)) /\
  (forall n t, In (n, t) (m_groups m) -> glang ic r n t).
Proof.
  intros r c m H. unfold match_at in H.
  destruct (run ic r c [] _) as [[c' g']|] eqn:E; [|discriminate].
  apply (f_equal (fun x => match x with Some y => y | None => m end)) in H.
  subst m. simpl.
  destruct (consumes_run r _ _ _ _ E) as [c1 [g1 [w [H1 [Hr [Hp [Hw Hg]]]]]]].
  apply (f_equal (fun x => match x with Some y => y | None => (c1, g1) end)) in H1.
  assert (c1 = c') by (apply (f_equal fst) in H1; exact H1).
  assert (g1 = g') by (apply (f_equal snd) in H1; exact H1). subst c1 g1.
  rewrite (between_consumed _ _ _ Hr Hp). repeat split; auto.
  intros n t Hin. destruct (Hg n t Hin) as [[]|HG]. exact HG.
Qed.

Lemma search_from_lang : forall fuel r c m,
  search_from ic fuel r c = Some m ->
  (exists pre, rest c = (pre ++ rest (m_start m))%string) /\
  match_at ic r (m_start m) = Some m.
Proof.
  induction fuel as [|f IH]; intros r c m H; simpl in H.
  - destruct (match_at ic r c) as [m0|] eqn:E; [|discriminate].
    assert (m0 = m) by (apply (f_equal (fun x => match x with Some y => y | None => m end)) in H; exact H).
    subst m0. destruct (match_at_lang _ _ _ E) as [Hs _]. rewrite Hs.
    split; [exists EmptyString; reflexivity | exact E].
  - destruct (match_at ic r c) as [m0|] eqn:E.
    + assert (m0 = m) by (apply (f_equal (fun x => match x with Some y => y | None => m end)) in H; exact H).
      subst m0. destruct (match_at_lang _ _ _ E) as [Hs _]. rewrite Hs.
      split; [exists EmptyString; reflexivity | exact E].
    + unfold advance in H. destruct (rest c) as [|a s'] eqn:R; [discriminate|].
      destruct (IH _ _ _ H) as [[pre Hpre] Hm]. split; [|exact Hm].
      exists (String a pre). simpl in Hpre. rewrite Hpre. reflexivity.
Qed.

(** A successful search: the match is a piece of the subject, it is a
    text of the pattern, and each group that took part holds a text of
    that group. *)
Lemma search_lang : forall r s m,
  search ic r s = Some m ->
  exists pre w post,
    s = (pre ++ w ++ post)%string /\ group m 0 = Some w /\ lang ic r w /\
    (forall n t, n <> 0%nat -> group m n = Some t -> glang ic r n t).
Proof.
  intros r s m H. unfold search, search_cursor in H.
  destruct (search_from_lang _ _ _ _ H) as [[pre Hpre] Hm].
  destruct (match_at_lang _ _ _ Hm) as [_ [Hr [Hw Hg]]].
  exists pre, (between (m_start m) (m_end m)), (rest (m_end m)).
  simpl in Hpre. split; [rewrite Hpre, Hr; reflexivity|].
  split; [reflexivity|]. split; [exact Hw|].
  intros n t Hn Ht. destruct n as [|n]; [contradiction Hn; reflexivity|].
  simpl in Ht. destruct (find _ (m_groups m)) as [[k u]|] eqn:F; [|discriminate].
  apply find_some in F as [Hin Hk]. simpl in Hk. apply Nat.eqb_eq in Hk. subst k.
  assert (u = t) by (apply (f_equal (fun x => match x with Some y => y | None => t end)) in Ht; exact Ht).
  subst u. apply (Hg _ _ Hin).
Qed.

End Sound.
End ReLangFacts.

Module AnalysisFacts.
Import Re ReLang ReFacts ReLangFacts.

Lemma in_all_ascii : forall a, In a all_ascii.
Proof.
  intros a. unfold all_ascii. rewrite <- (ascii_nat_embedding a).
  apply in_map. apply in_seq. pose proof (nat_ascii_bounded a). lia.
Qed.

Lemma forallb_str_append : forall p a b,
  str_forallb p (a ++ b) = str_forallb p a && str_forallb p b.
Proof.
  intros p a b. induction a as [|c a IH]; simpl; [reflexivity|].
  rewrite IH, andb_assoc. reflexivity.
Qed.

Lemma iter_forallb : forall (L : string -> Prop) p n w,
  (forall u, L u -> str_forallb p u = true) -> iter L n w -> str_forallb p w = true.
Proof.
  intros L p n. induction n as [|n IH]; intros w HL H; simpl in H.
  - subst w. reflexivity.
  - destruct H as [u [v [-> [Hu Hv]]]]. rewrite forallb_str_append, (HL u Hu), (IH v HL Hv).
    reflexivity.
Qed.

Section Analyses.
Variable ic : bool.

Lemma one_char_ok : forall (q p : ascii -> bool) a,
  forallb (fun a => implb (q a) (p a)) all_ascii = true -> q a = true ->
  str_forallb p (String a EmptyString) = true.
Proof.
  intros q p a H Hq. rewrite forallb_forall in H. specialize (H a (in_all_ascii a)).
  rewrite Hq in H. simpl in *. rewrite H. reflexivity.
Qed.

(** A pattern whose sets and literals only accept characters of [p]
    only consumes characters of [p]. *)
Lemma chars_ok_lang : forall p r w,
  chars_ok ic p r = true -> lang ic r w -> str_forallb p w = true.
Proof.
  intros p. induction r as [| x | | neg items | | | | a IHa b IHb | a IHa b IHb
                            | greedy lo hi a IHa | n a IHa]; intros w C H; simpl in *;
    try (subst w; reflexivity).
  - destruct H as [a [-> Ha]]. apply (one_char_ok _ _ _ C Ha).
  - destruct H as [a [-> Ha]].
    apply (one_char_ok (fun a => negb (Ascii.eqb a "010")) _ _ C). rewrite Ha. reflexivity.
  - destruct H as [a [-> Ha]]. apply (one_char_ok _ _ _ C Ha).
  - apply andb_true_iff in C as [Ca Cb]. destruct H as [u [v [-> [Hu Hv]]]].
    rewrite forallb_str_append, (IHa u Ca Hu), (IHb v Cb Hv). reflexivity.
  - apply andb_true_iff in C as [Ca Cb]. destruct H as [H|H]; auto.
  - destruct H as [n [_ [_ H]]]. apply (iter_forallb (lang ic a) p n w); auto.
  - auto.
Qed.

Lemma group_chars_glang : forall p n r t,
  group_chars ic p n r = true -> glang ic r n t -> str_forallb p t = true.
Proof.
  intros p n. induction r as [| x | | neg items | | | | a IHa b IHb | a IHa b IHb
                              | greedy lo hi a IHa | m a IHa]; intros t C H; simpl in *;
    try contradiction.
  - apply andb_true_iff in C as [Ca Cb]. destruct H as [H|H]; auto.
  - apply andb_true_iff in C as [Ca Cb]. destruct H as [H|H]; auto.
  - auto.
  - apply andb_true_iff in C as [C1 C2]. destruct H as [[-> H]|H]; [|auto].
    rewrite Nat.eqb_refl in C1. simpl in C1. apply (chars_ok_lang p a t C1 H).
Qed.

Lemma char_matches_lower : forall x a,
  char_matches ic x a = true -> lower_char a = lower_char x.
Proof.
  intros x a H. unfold char_matches in H. destruct ic.
  - apply Ascii.eqb_eq in H. exact H.
  - apply Ascii.eqb_eq in H. subst a. reflexivity.
Qed.

Lemma lower_append : forall u v, lower (u ++ v) = (lower u ++ lower v)%string.
Proof.
  intros u v. unfold lower. induction u as [|c u IH]; simpl; [reflexivity|].
  rewrite IH. reflexivity.
Qed.

Lemma prefix_nil : forall s, String.prefix EmptyString s = true.
Proof. intros [|a s]; reflexivity. Qed.

Lemma prefix_cons : forall k kw a s,
  String.prefix (String k kw) (String a s) = Ascii.eqb k a && String.prefix kw s.
Proof.
  intros k kw a s. simpl. destruct (ascii_dec k a) as [->|N].
  - rewrite Ascii.eqb_refl. reflexivity.
  - apply Ascii.eqb_neq in N. rewrite N. reflexivity.
Qed.

Lemma lit_prefix_lang : forall kw r w,
  lit_prefix kw r = true -> lang ic r w -> String.prefix kw (lower w) = true.
Proof.
  induction kw as [|k kw IH]; intros r w P H; [apply prefix_nil|].
  destruct r as [| x | | neg items | | | | a b | a b | greedy lo hi a | n a];
    simpl in P; try discriminate P.
  - apply andb_true_iff in P as [P1 P2]. destruct kw; [|discriminate P2].
    simpl in H. destruct H as [a [-> Ha]]. apply char_matches_lower in Ha.
    apply Ascii.eqb_eq in P1. unfold lower. cbn [str_map].
    rewrite prefix_cons, Ha, P1, Ascii.eqb_refl. reflexivity.
  - destruct a as [| x | | | | | | | | |]; try discriminate P.
    apply andb_true_iff in P as [P1 P2]. simpl in H.
    destruct H as [u [v [-> [[a [-> Ha]] Hv]]]]. apply char_matches_lower in Ha.
    apply Ascii.eqb_eq in P1. simpl append. unfold lower. cbn [str_map].
    fold (lower v). rewrite prefix_cons, Ha, P1, Ascii.eqb_refl. simpl.
    apply (IH b v P2 Hv).
Qed.

Lemma contains_prefix : forall kw s, String.prefix kw s = true -> contains kw s = true.
Proof. intros kw s H. destruct s; cbn [contains]; rewrite H; reflexivity. Qed.

Lemma prefix_app : forall kw u v,
  String.prefix kw u = true -> String.prefix kw (u ++ v) = true.
Proof.
  induction kw as [|k kw IH]; intros u v H; [apply prefix_nil|].
  destruct u as [|a u]; [discriminate H|].
  simpl append. rewrite prefix_cons in *. apply andb_true_iff in H as [H1 H2].
  rewrite H1, (IH u v H2). reflexivity.
Qed.

Lemma contains_app_l : forall kw u v, contains kw u = true -> contains kw (u ++ v) = true.
Proof.
  intros kw u v. induction u as [|a u IH]; intros H.
  - simpl in H. rewrite orb_false_r in H. destruct kw; [|discriminate H].
    destruct v; reflexivity.
  - simpl append. cbn [contains] in *. apply orb_true_iff in H as [H|H].
    + pose proof (prefix_app _ (String a u) v H) as Q. simpl append in Q.
      rewrite Q. reflexivity.
    + rewrite (IH H). apply orb_true_r.
Qed.

Lemma contains_app_r : forall kw u v, contains kw v = true -> contains kw (u ++ v) = true.
Proof.
  intros kw u v H. induction u as [|a u IH]; [exact H|].
  simpl append. cbn [contains]. rewrite IH. apply orb_true_r.
Qed.

(** A pattern that [needs] one of the words [kws] only consumes texts
    holding one of them. *)
Lemma needs_lang : forall kws r w,
  needs kws r = true -> lang ic r w ->
  existsb (fun kw => contains kw (lower w)) kws = true.
Proof.
  intros kws.
  assert (P : forall r w, existsb (fun kw => lit_prefix kw r) kws = true -> lang ic r w ->
                          existsb (fun kw => contains kw (lower w)) kws = true).
  { intros r w E H. apply existsb_exists in E as [kw [Hin Hkw]].
    apply existsb_exists. exists kw. split; [exact Hin|].
    apply contains_prefix. apply (lit_prefix_lang kw r w Hkw H). }
  assert (A : forall u v, existsb (fun kw => contains kw (lower u)) kws = true ->
                          existsb (fun kw => contains kw (lower (u ++ v))) kws = true).
  { intros u v E. apply existsb_exists in E as [kw [Hin Hkw]].
    apply existsb_exists. exists kw. split; [exact Hin|].
    rewrite lower_append. apply contains_app_l. exact Hkw. }
  assert (B : forall u v, existsb (fun kw => contains kw (lower v)) kws = true ->
                          existsb (fun kw => contains kw (lower (u ++ v))) kws = true).
  { intros u v E. apply existsb_exists in E as [kw [Hin Hkw]].
    apply existsb_exists. exists kw. split; [exact Hin|].
    rewrite lower_append. apply contains_app_r. exact Hkw. }
  induction r as [| x | | neg items | | | | a IHa b IHb | a IHa b IHb
                  | greedy lo hi a IHa | n a IHa]; intros w N H;
    cbn [needs] in N; apply orb_true_iff in N as [N|N];
    try (apply (P _ w N H)); try discriminate N.
  - simpl in H. destruct H as [u [v [-> [Hu Hv]]]].
    apply orb_true_iff in N as [N|N]; [apply A; auto | apply B; auto].
  - simpl in H. apply andb_true_iff in N as [Na Nb]. destruct H as [H|H]; auto.
  - simpl in H. apply andb_true_iff in N as [Nlo Na]. apply Nat.ltb_lt in Nlo.
    destruct H as [n [Hn [_ H]]]. destruct n as [|n]; [lia|].
    simpl in H. destruct H as [u [v [-> [Hu Hv]]]]. apply A. auto.
  - simpl in H. auto.
Qed.

(** No keyword, no match. *)
Lemma search_needs : forall kws r s,
  needs kws r = true ->
  existsb (fun kw => contains kw (lower s)) kws = false ->
  search ic r s = None.
Proof.
  intros kws r s N E. destruct (search ic r s) as [m|] eqn:S; [|reflexivity].
  destruct (search_lang ic _ _ _ S) as [pre [w [post [-> [_ [Hw _]]]]]].
  pose proof (needs_lang kws r w N Hw) as C.
  apply existsb_exists in C as [kw [Hin Hkw]].
  assert (X : existsb (fun kw => contains kw (lower (pre ++ w ++ post))) kws = true).
  { apply existsb_exists. exists kw. split; [exact Hin|].
    rewrite !lower_append. apply contains_app_r, contains_app_l. exact Hkw. }
  rewrite X in E. discriminate E.
Qed.

(** The characters of a group that took part in a match. *)
Lemma search_group_chars : forall p n r s m t,
  search ic r s = Some m -> group m n = Some t -> n <> 0%nat ->
  group_chars ic p n r = true -> str_forallb p t = true.
Proof.
  intros p n r s m t S G Hn C.
  destruct (search_lang ic _ _ _ S) as [pre [w [post [_ [_ [_ Hg]]]]]].
  apply (group_chars_glang p n r t C (Hg n t Hn G)).
Qed.

End Analyses.
End AnalysisFacts.


(** ** Keywords a metric cannot do without *)

Module KeywordFacts.
Import Re ReLang AnalysisFacts DictFacts.

Lemma findall_none : forall ic r s, search ic r s = None -> findall ic r s = [].
Proof. intros ic r s H. unfold findall, search in *. simpl. rewrite H. reflexivity. Qed.

Ltac no_match kws pat H :=
  let N := fresh "N" in
  assert (N : needs kws (Re.compile pat) = true) by (vm_compute; reflexivity);
  rewrite (search_needs true kws (Re.compile pat) _ N H); clear N.

Lemma parse_metric_needs : forall kws keyword text,
  needs kws (Re.compile (metric_pattern keyword)) = true ->
  mentions kws (clean_text text) = false -> parse_metric text keyword = None.
Proof.
  intros kws keyword text N H. unfold parse_metric. cbv zeta.
  rewrite (search_needs true kws _ _ N H). reflexivity.
Qed.

Lemma parse_revenue_needs : forall text,
  mentions ["revenue"] (clean_text text) = false -> parse_revenue text = None.
Proof.
  intros text H. unfold parse_revenue. cbv zeta.
  assert (N : needs ["revenue"] (Re.compile revenue_pattern) = true)
    by (vm_compute; reflexivity).
  rewrite (findall_none _ _ _ (search_needs true _ _ _ N H)).
  cbn [revenue_first_value]. unfold revenue_fallback.
  unfold mentions in H. cbn [existsb] in H. rewrite orb_false_r in H.
  rewrite H. reflexivity.
Qed.

Lemma parse_adjusted_ebitda_needs : forall text,
  mentions ["ebitda"] (clean_text text) = false -> parse_adjusted_ebitda text = None.
Proof.
  intros text H. unfold parse_adjusted_ebitda. cbv zeta.
  no_match ["ebitda"] adjusted_ebitda_pattern_after H.
  no_match ["ebitda"] adjusted_ebitda_pattern_before H. reflexivity.
Qed.

Lemma parse_lumber_needs : forall text,
  mentions ["lumber segment"] (clean_text text) = false ->
  parse_lumber_segment_adjusted_ebitda text = None.
Proof.
  intros text H. unfold parse_lumber_segment_adjusted_ebitda. cbv zeta.
  no_match ["lumber segment"] lumber_segment_adjusted_ebitda_pattern H. reflexivity.
Qed.

Lemma parse_available_liquidity_needs : forall text,
  mentions ["liquidity"] (clean_text text) = false -> parse_available_liquidity text = None.
Proof.
  intros text H. unfold parse_available_liquidity.
  rewrite (parse_metric_needs ["liquidity"] "available liquidity" text); [|vm_compute; reflexivity|exact H].
  cbv zeta. no_match ["liquidity"] available_liquidity_pattern H. reflexivity.
Qed.

Lemma parse_liquidity_needs : forall text,
  mentions ["liquidity"] (clean_text text) = false -> parse_liquidity text = None.
Proof.
  intros text H. unfold parse_liquidity. cbv zeta.
  no_match ["liquidity"] liquidity_pattern_total H.
  no_match ["liquidity"] liquidity_pattern_before H.
  no_match ["liquidity"] liquidity_pattern_after H. reflexivity.
Qed.

Lemma parse_net_cash_balance_needs : forall text,
  mentions ["net cash balance"] (clean_text text) = false -> parse_net_cash_balance text = None.
Proof.
  intros text H. unfold parse_net_cash_balance. cbv zeta.
  no_match ["net cash balance"] net_cash_balance_pattern H. reflexivity.
Qed.

Lemma parse_credit_facility_needs : forall text,
  mentions ["credit facility"] (clean_text text) = false -> parse_credit_facility text = None.
Proof.
  intros text H. unfold parse_credit_facility. cbv zeta.
  no_match ["credit facility"] credit_facility_pattern H. reflexivity.
Qed.

Lemma parse_net_revenue_margin_needs : forall text,
  mentions ["net revenue margin"] (clean_text text) = false ->
  parse_net_revenue_margin text = Ok None.
Proof.
  intros text H. unfold parse_net_revenue_margin. cbv zeta.
  no_match ["net revenue margin"] net_revenue_margin_pattern H. reflexivity.
Qed.

Lemma parse_gaap_diluted_eps_needs : forall text,
  mentions ["gaap diluted eps"] (clean_text text) = false -> parse_gaap_diluted_eps text = None.
Proof.
  intros text H. unfold parse_gaap_diluted_eps. cbv zeta.
  no_match ["gaap diluted eps"] gaap_diluted_eps_pattern H. reflexivity.
Qed.

Lemma parse_actual_eps_needs : forall text,
  mentions ["actual"] (clean_text text) = false -> parse_actual_eps text = Ok None.
Proof.
  intros text H. unfold parse_actual_eps. cbv zeta.
  no_match ["actual"] actual_eps_pattern H.
  no_match ["actual"] actual_eps_spoken_pattern H. reflexivity.
Qed.

Lemma parse_share_needs : forall text,
  mentions ["share buybacks"; "share repurchases"; "dividends"] (clean_text text) = false ->
  parse_share_buybacks_and_dividends text = None.
Proof.
  intros text H. unfold parse_share_buybacks_and_dividends. cbv zeta.
  no_match ["share buybacks"; "share repurchases"; "dividends"]
           share_buybacks_and_dividends_pattern H.
  no_match ["share buybacks"; "share repurchases"; "dividends"]
           share_buybacks_and_dividends_pattern_rev H. reflexivity.
Qed.

Lemma parse_combined_rate_needs : forall text,
  mentions ["preliminary combined rate for ar6"] (clean_text text) = false ->
  parse_combined_rate_ar6 text = None.
Proof.
  intros text H. unfold parse_combined_rate_ar6. cbv zeta.
  no_match ["preliminary combined rate for ar6"] combined_rate_ar6_pattern H. reflexivity.
Qed.

Lemma parse_total_net_sales_needs : forall text,
  mentions ["sales"] (clean_text text) = false -> parse_total_net_sales text = None.
Proof.
  intros text H. unfold parse_total_net_sales. cbv zeta.
  no_match ["sales"] total_net_sales_pattern H.
  no_match ["sales"] total_net_sales_pattern2 H. reflexivity.
Qed.

Lemma parse_free_cash_flow_needs : forall text,
  mentions ["free"] text = false -> parse_free_cash_flow text = None.
Proof.
  intros text H. unfold parse_free_cash_flow. cbv zeta.
  no_match ["free"] free_cash_flow_pattern H. reflexivity.
Qed.

Lemma parse_interest_expense_needs : forall text,
  mentions ["interest"] (clean_text text) = false -> parse_interest_expense text = None.
Proof.
  intros text H. unfold parse_interest_expense. cbv zeta.
  no_match ["interest"] interest_expense_pattern_after H.
  no_match ["interest"] interest_expense_pattern_before H. reflexivity.
Qed.

Lemma parse_adjusted_net_income_needs : forall text,
  mentions ["adjusted"] (clean_text text) = false -> parse_adjusted_net_income text = None.
Proof.
  intros text H. unfold parse_adjusted_net_income. cbv zeta.
  no_match ["adjusted"] adjusted_net_income_before H.
  no_match ["adjusted"] adjusted_net_income_after H. reflexivity.
Qed.

Lemma parse_gaap_operating_income_needs : forall text,
  mentions ["gaap operating income"] (clean_text text) = false ->
  parse_gaap_operating_income text = None.
Proof.
  intros text H. unfold parse_gaap_operating_income. cbv zeta.
  no_match ["gaap operating income"] gaap_operating_income_pattern H.
  no_match ["gaap operating income"] gaap_operating_income_pattern_after H. reflexivity.
Qed.

Lemma parse_total_available_liquidity_needs : forall text,
  mentions ["liquidity"] (clean_text text) = false ->
  parse_total_available_liquidity text = None.
Proof.
  intros text H. unfold parse_total_available_liquidity. cbv zeta.
  no_match ["liquidity"] total_available_liquidity_pattern_before H.
  no_match ["liquidity"] total_available_liquidity_pattern_after H.
  apply parse_available_liquidity_needs. exact H.
Qed.

Ltac metric_none M :=
  match type of M with
  | mentions ?kws _ = false =>
      match goal with
      | |- context [parse_metric ?t ?kw] =>
          rewrite (parse_metric_needs kws kw t);
          [reflexivity | vm_compute; reflexivity | exact M]
      end
  end.

(** A key whose table entry is null, whatever the two raising matchers
    returned, is absent from the result. *)
Lemma absent_metric : forall nlp text d key,
  extract_metrics nlp text = Ok d ->
  (forall nrm eps,
     parse_net_revenue_margin text = Ok nrm -> parse_actual_eps text = Ok eps ->
     dict_get key (metric_table nlp text nrm eps) = Some VNone) ->
  dict_get key d = None.
Proof.
  intros nlp text d key H T.
  destruct (extract_metrics_lookup nlp text d H) as [nrm [eps [E1 [E2 L]]]].
  specialize (T nrm eps E1 E2).
  rewrite L, (metric_not_narrative nlp _ _ _ _ _ T), T. reflexivity.
Qed.

End KeywordFacts.

(** X1. A metric is reported only when the text names it: for each of
    the twenty-two metric keys of [metric_keywords], when none of the
    key's keywords occurs (in any case) in the cleaned text, the
    extraction's result has no such key; and there is no
    [free_cash_flow] key when the text as read has no "free". *)
Theorem X1_metric_needs_keyword :
  forall (nlp : string -> list string) (text : string) (d : dict),
  extract_metrics nlp text = Ok d ->
  (forall key kws,
     In (key, kws) metric_keywords ->
     mentions kws (clean_text text) = false ->
     dict_get key d = None) /\
  (mentions ["free"] text = false -> dict_get "free_cash_flow" d = None).
Proof.
  intros nlp text d H. split.
  - intros key kws Hin M. unfold metric_keywords in Hin. cbn [In] in Hin.
    repeat (destruct Hin as [E|Hin];
            [apply (f_equal fst) in E as Ek; apply (f_equal snd) in E as Ev;
             cbn [fst snd] in Ek, Ev; subst key kws;
             apply (KeywordFacts.absent_metric nlp text d _ H); intros nrm eps E1 E2;
             unfold metric_table; cbn [dict_get String.eqb Ascii.eqb Bool.eqb]|]);
      [..|contradiction].
    + rewrite (KeywordFacts.parse_revenue_needs _ M). reflexivity.
    + unfold parse_consolidated_net_sales.
      KeywordFacts.metric_none M.
    + unfold parse_consolidated_operating_income.
      KeywordFacts.metric_none M.
    + unfold parse_total_orders.
      KeywordFacts.metric_none M.
    + unfold parse_marketplace_gov.
      KeywordFacts.metric_none M.
    + rewrite (KeywordFacts.parse_adjusted_ebitda_needs _ M). reflexivity.
    + rewrite (KeywordFacts.parse_lumber_needs _ M). reflexivity.
    + rewrite (KeywordFacts.parse_available_liquidity_needs _ M). reflexivity.
    + rewrite (KeywordFacts.parse_liquidity_needs _ M). reflexivity.
    + rewrite (KeywordFacts.parse_net_cash_balance_needs _ M). reflexivity.
    + rewrite (KeywordFacts.parse_credit_facility_needs _ M). reflexivity.
    + rewrite (KeywordFacts.parse_net_revenue_margin_needs _ M) in E1.
      apply DictFacts.Ok_inj in E1. subst nrm. reflexivity.
    + unfold parse_gaap_net_income.
      KeywordFacts.metric_none M.
    + rewrite (KeywordFacts.parse_gaap_diluted_eps_needs _ M). reflexivity.
    + rewrite (KeywordFacts.parse_actual_eps_needs _ M) in E2.
      apply DictFacts.Ok_inj in E2. subst eps. reflexivity.
    + rewrite (KeywordFacts.parse_share_needs _ M). reflexivity.
    + rewrite (KeywordFacts.parse_combined_rate_needs _ M). reflexivity.
    + rewrite (KeywordFacts.parse_total_net_sales_needs _ M). reflexivity.
    + rewrite (KeywordFacts.parse_interest_expense_needs _ M). reflexivity.
    + rewrite (KeywordFacts.parse_adjusted_net_income_needs _ M). reflexivity.
    + rewrite (KeywordFacts.parse_gaap_operating_income_needs _ M). reflexivity.
    + rewrite (KeywordFacts.parse_total_available_liquidity_needs _ M). reflexivity.
  - intros M. apply (KeywordFacts.absent_metric nlp text d _ H). intros nrm eps _ _.
    unfold metric_table. cbn [dict_get String.eqb Ascii.eqb Bool.eqb].
    rewrite (KeywordFacts.parse_free_cash_flow_needs _ M). reflexivity.
Qed.

Lemma X1_metric_needs_keyword_witness :
  exists d,
    extract_metrics (fun t => [t]) "adjusted ebitda of $45 million" = Ok d /\
    dict_get "adjusted_ebitda" d = Some (VFloat 45) /\
    dict_get "liquidity" d = None /\
    dict_get "free_cash_flow" d = None.
Proof.
  eexists.
  match goal with |- ?A /\ _ => assert (H : A) by (vm_compute; reflexivity) end.
  split; [exact H|].
  split; [vm_compute; reflexivity|].
  destruct (X1_metric_needs_keyword _ _ _ H) as [K F].
  split.
  - apply (K "liquidity" ["liquidity"]); [simpl; tauto | vm_compute; reflexivity].
  - apply F. vm_compute. reflexivity.
Defined.

(** ** Per-sentence matchers, exceptions and the batch *)

Module SentenceFacts.

Lemma for_sentences_gate : forall (gate : string -> bool) body l,
  (forall s, gate s = false -> body s = None) ->
  for_sentences body (filter gate l) = for_sentences body l.
Proof.
  intros gate body l H. induction l as [|s l IH]; simpl; [reflexivity|].
  destruct (gate s) eqn:G; simpl.
  - rewrite IH. reflexivity.
  - rewrite (H s G). exact IH.
Qed.

Lemma filter_filter : forall (A : Type) (p q : A -> bool) (l : list A),
  filter p (filter q l) = filter (fun x => q x && p x) l.
Proof.
  intros A p q. induction l as [|x l IH]; simpl; [reflexivity|].
  destruct (q x); simpl; [|exact IH]. destruct (p x); rewrite IH; reflexivity.
Qed.

End SentenceFacts.

(** X2. The four matchers that read the text sentence by sentence look
    only at the sentences that name the metric: [orders] at those with
    "orders", [cash_flow] at those with "cash flow" or "cash from
    operations" and without "free cash flow", [adjusted_eps] at those
    with both "adjusted" and "eps", [net_income] at those with "net"
    and without "adjusted net income" (in any letter case). The other
    sentences can be dropped from the segmentation without changing
    the result, and there is no value when no sentence qualifies. *)
Theorem X2_sentence_matchers_gated :
  forall (nlp : string -> list string) (text : string),
  parse_orders (fun t => filter orders_sentence (nlp t)) text = parse_orders nlp text /\
  parse_cash_flow (fun t => filter cash_flow_sentence (nlp t)) text
    = parse_cash_flow nlp text /\
  parse_adjusted_eps (fun t => filter adjusted_eps_sentence (nlp t)) text
    = parse_adjusted_eps nlp text /\
  parse_net_income (fun t => filter net_income_sentence (nlp t)) text
    = parse_net_income nlp text /\
  (forallb (fun s => negb (orders_sentence s)) (nlp (clean_text text)) = true ->
   parse_orders nlp text = None) /\
  (forallb (fun s => negb (cash_flow_sentence s)) (nlp (clean_text text)) = true ->
   parse_cash_flow nlp text = None) /\
  (forallb (fun s => negb (adjusted_eps_sentence s)) (nlp (clean_text text)) = true ->
   parse_adjusted_eps nlp text = None) /\
  (forallb (fun s => negb (net_income_sentence s)) (nlp (clean_text text)) = true ->
   parse_net_income nlp text = None).
Proof.
  intros nlp text.
  assert (G1 : parse_orders (fun t => filter orders_sentence (nlp t)) text
               = parse_orders nlp text).
  { unfold parse_orders. cbv zeta. apply SentenceFacts.for_sentences_gate.
    intros s G. unfold orders_sentence in G. rewrite G. reflexivity. }
  assert (G2 : parse_cash_flow (fun t => filter cash_flow_sentence (nlp t)) text
               = parse_cash_flow nlp text).
  { unfold parse_cash_flow. cbv zeta. apply SentenceFacts.for_sentences_gate.
    intros s G. unfold cash_flow_sentence in G.
    destruct (contains "free cash flow" (lower s)); [reflexivity|].
    simpl in G. rewrite G. reflexivity. }
  assert (G3 : parse_adjusted_eps (fun t => filter adjusted_eps_sentence (nlp t)) text
               = parse_adjusted_eps nlp text).
  { unfold parse_adjusted_eps. cbv zeta. apply SentenceFacts.for_sentences_gate.
    intros s G. unfold adjusted_eps_sentence in G. rewrite G. reflexivity. }
  assert (G4 : parse_net_income (fun t => filter net_income_sentence (nlp t)) text
               = parse_net_income nlp text).
  { unfold parse_net_income. cbv zeta.
    rewrite SentenceFacts.filter_filter.
    rewrite <- (SentenceFacts.for_sentences_gate (fun s => contains "net" (lower s))
                  net_income_body
                  (filter (fun s => negb (contains "adjusted net income" (lower s)))
                          (nlp (clean_text text)))).
    - rewrite SentenceFacts.filter_filter. f_equal. apply filter_ext. intros s.
      unfold net_income_sentence. destruct (contains "net" (lower s));
        destruct (contains "adjusted net income" (lower s)); reflexivity.
    - intros s G. unfold net_income_body.
      rewrite (AnalysisFacts.search_needs true ["net"] _ s); [reflexivity | |].
      + vm_compute. reflexivity.
      + cbn [existsb]. rewrite G. reflexivity. }
  assert (E : forall (gate : string -> bool) l,
            forallb (fun s => negb (gate s)) l = true -> filter gate l = []).
  { intros gate l H. apply filter_all_false. intros x Hx.
    rewrite forallb_forall in H. specialize (H x Hx).
    destruct (gate x); [discriminate H | reflexivity]. }
  split; [exact G1|]. split; [exact G2|]. split; [exact G3|]. split; [exact G4|].
  split; [|split; [|split]]; intros H.
  - rewrite <- G1. unfold parse_orders. cbv zeta. rewrite (E _ _ H). reflexivity.
  - rewrite <- G2. unfold parse_cash_flow. cbv zeta. rewrite (E _ _ H). reflexivity.
  - rewrite <- G3. unfold parse_adjusted_eps. cbv zeta. rewrite (E _ _ H). reflexivity.
  - rewrite <- G4. unfold parse_net_income. cbv zeta. rewrite (E _ _ H). reflexivity.
Qed.

Module BatchFacts.

Lemma nlp_check_cases : forall text,
  nlp_check (clean_text text)
  = if over_max_length text then Raise ValueError else Ok tt.
Proof. reflexivity. Qed.

Lemma nrm_raises_value_error : forall text e,
  parse_net_revenue_margin text = Raise e -> e = ValueError.
Proof.
  intros text e. unfold parse_net_revenue_margin. cbv zeta.
  destruct (Re.search _ _ _); [|discriminate].
  destruct (float_of_group _); [discriminate|].
  intros H. injection H as <-. reflexivity.
Qed.

Lemma actual_eps_raises_overflow : forall text e,
  parse_actual_eps text = Raise e -> e = OverflowError.
Proof.
  intros text e. unfold parse_actual_eps. cbv zeta.
  destruct (Re.search true (Re.compile actual_eps_pattern) _).
  - destruct (float_of_group _); discriminate.
  - destruct (Re.search _ _ _); [|discriminate].
    destruct (spoken_to_number _); [|discriminate].
    unfold float_of_int. destruct (is_infinity _); simpl; [|discriminate].
    intros H. injection H as <-. reflexivity.
Qed.

Lemma extract_metrics_cases : forall nlp text,
  match nlp_check (clean_text text) with
  | Raise e => extract_metrics nlp text = Raise e
  | Ok _ =>
      match parse_net_revenue_margin text with
      | Raise e => extract_metrics nlp text = Raise e
      | Ok _ =>
          match parse_actual_eps text with
          | Raise e => extract_metrics nlp text = Raise e
          | Ok _ => exists d, extract_metrics nlp text = Ok d
          end
      end
  end.
Proof.
  intros nlp text.
  destruct (nlp_check (clean_text text)) as [[]|e] eqn:E0.
  - destruct (parse_net_revenue_margin text) as [nrm|e] eqn:E1.
    + destruct (parse_actual_eps text) as [eps|e] eqn:E2.
      * destruct (extract_metrics_returns nlp text nrm eps E0 E1 E2) as [d [Hd _]].
        exists d. exact Hd.
      * unfold extract_metrics, metric_results. rewrite E0, E1, E2. reflexivity.
    + unfold extract_metrics, metric_results. rewrite E0, E1. reflexivity.
  - unfold extract_metrics, metric_results. rewrite E0. reflexivity.
Qed.

(** When the decoder returns a number: the digits it read are at most
    4300 and write that number. *)
Lemma spoken_to_number_some : forall span z,
  spoken_to_number span = Some z <->
  (String.length (spoken_digit_string span) <= 4300)%nat /\ decode_spoken span = Some z.
Proof.
  intros span z. rewrite SpokenFacts.spoken_to_number_decode.
  destruct (String.length (spoken_digit_string span) <=? 4300)%nat eqn:L.
  - apply Nat.leb_le in L. tauto.
  - apply Nat.leb_gt in L. split; [discriminate | intros [H _]; lia].
Qed.

End BatchFacts.

(** X3. The extraction raises in three ways only. With a ValueError
    when the cleaned text has more than 1,000,000 characters, which the
    segmenter refuses, whatever the matchers would find. Otherwise with
    a ValueError when the text has a net-revenue-margin match whose
    captured number is no float literal. Otherwise with an
    OverflowError from the actual-EPS matcher, which happens exactly
    when its digit pattern finds nothing, its spoken pattern finds a
    number whose digits are at most 4300, and that number is too large
    for a float (a spoken number of more than 4300 digits gives no
    value instead). No other matcher and no classifier makes it
    raise. *)
Theorem X3_extraction_raises_three_ways :
  forall (nlp : string -> list string) (text : string),
  (forall e : exn,
     extract_metrics nlp text = Raise e <->
     (e = ValueError /\ over_max_length text = true) \/
     (e = ValueError /\ over_max_length text = false /\
      parse_net_revenue_margin text = Raise ValueError) \/
     (e = OverflowError /\ over_max_length text = false /\
      (exists v, parse_net_revenue_margin text = Ok v) /\
      parse_actual_eps text = Raise OverflowError)) /\
  (parse_net_revenue_margin text = Raise ValueError <->
     exists m,
       Re.search true (Re.compile net_revenue_margin_pattern) (clean_text text) = Some m /\
       float_of_group (Re.group m 1) = None) /\
  (parse_actual_eps text = Raise OverflowError <->
     Re.search true (Re.compile actual_eps_pattern) (clean_text text) = None /\
     exists m z,
       Re.search true (Re.compile actual_eps_spoken_pattern) (clean_text text) = Some m /\
       (String.length (spoken_digit_string (or_empty (Re.group m 1))) <= 4300)%nat /\
       decode_spoken (or_empty (Re.group m 1)) = Some z /\
       is_infinity (PyFloat.of_Z z) = true).
Proof.
  intros nlp text. split; [|split].
  - intros e. pose proof (BatchFacts.extract_metrics_cases nlp text) as C.
    rewrite BatchFacts.nlp_check_cases in C.
    destruct (over_max_length text).
    + rewrite C. split.
      * intros H. injection H as <-. left. split; reflexivity.
      * intros [[-> _]|[[_ [H _]]|[_ [H _]]]]; [reflexivity | discriminate H | discriminate H].
    + destruct (parse_net_revenue_margin text) as [nrm|e1] eqn:E1.
      * destruct (parse_actual_eps text) as [eps|e2] eqn:E2.
        -- destruct C as [d C]. rewrite C. split; [discriminate|].
           intros [[_ H]|[[_ [_ H]]|[_ [_ [_ H]]]]]; discriminate H.
        -- rewrite C. pose proof (BatchFacts.actual_eps_raises_overflow _ _ E2) as ->.
           split.
           ++ intros H. injection H as <-. right. right. split; [reflexivity|].
              split; [reflexivity|]. split; [exists nrm; reflexivity | reflexivity].
           ++ intros [[_ H]|[[_ [_ H]]|[-> _]]]; [discriminate H | discriminate H | reflexivity].
      * rewrite C. pose proof (BatchFacts.nrm_raises_value_error _ _ E1) as ->.
        split.
        -- intros H. injection H as <-. right. left. repeat split; reflexivity.
        -- intros [[_ H]|[[-> _]|[_ [_ [[v H] _]]]]];
             [discriminate H | reflexivity | discriminate H].
  - unfold parse_net_revenue_margin. cbv zeta.
    destruct (Re.search true (Re.compile net_revenue_margin_pattern) (clean_text text))
      as [m|].
    + destruct (float_of_group (Re.group m 1)) eqn:F.
      * split; [discriminate|]. intros [m' [H1 H2]].
        injection H1 as <-. rewrite F in H2. discriminate H2.
      * split; [intros _; exists m; split; [reflexivity | exact F] | reflexivity].
    + split; [discriminate|]. intros [m [H _]]. discriminate H.
  - unfold parse_actual_eps. cbv zeta.
    destruct (Re.search true (Re.compile actual_eps_pattern) (clean_text text)) as [m0|].
    + split; [|intros [H _]; discriminate H].
      destruct (float_of_group (Re.group m0 1)); discriminate.
    + destruct (Re.search true (Re.compile actual_eps_spoken_pattern) (clean_text text))
        as [m|].
      * destruct (spoken_to_number (or_empty (Re.group m 1))) as [z|] eqn:S.
        -- apply BatchFacts.spoken_to_number_some in S as [L D].
           unfold float_of_int. cbv zeta.
           destruct (is_infinity (PyFloat.of_Z z)) eqn:I; cbn [bind].
           ++ split; [|reflexivity]. intros _. split; [reflexivity|].
              exists m, z. repeat split; assumption.
           ++ split; [discriminate|]. intros [_ [m' [z' [H1 [_ [H2 H3]]]]]].
              injection H1 as <-. rewrite D in H2.
              injection H2 as <-. rewrite I in H3. discriminate H3.
        -- split; [discriminate|]. intros [_ [m' [z' [H1 [L [H2 _]]]]]].
           injection H1 as <-.
           assert (T : spoken_to_number (or_empty (Re.group m 1)) = Some z')
             by (apply BatchFacts.spoken_to_number_some; split; assumption).
           rewrite S in T. discriminate T.
      * split; [discriminate|]. intros [_ [m [z [H _]]]]. discriminate H.
Qed.


Module MainFacts.

Section Files.
Variable nlp : string -> list string.

Lemma parse_transcript_file_cases : forall text file_name,
  match extract_metrics nlp text with
  | Ok d =>
      exists r, parse_transcript_file nlp text file_name = Ok r /\
                r_file_name r = file_name /\ r_metrics r = d /\
                (r_ticker r, r_quarter r, r_year r, r_earnings_date r)
                  = resolve_identity text file_name
  | Raise e => parse_transcript_file nlp text file_name = Raise e
  end.
Proof.
  intros text file_name. unfold parse_transcript_file.
  destruct (resolve_identity text file_name) as [[[ticker quarter] year] earnings_date].
  destruct (extract_metrics nlp text) as [d|e]; simpl; [|reflexivity].
  eexists. split; [reflexivity|]. simpl. auto.
Qed.

Lemma parse_entry_cases : forall f,
  match parse_entry nlp f with
  | Ok r => record_of nlp r f
  | Raise e => fails nlp f e
  end.
Proof.
  intros [name [text|e]]; unfold parse_entry; cbn [fst snd bind].
  - pose proof (parse_transcript_file_cases text name) as C.
    destruct (extract_metrics nlp text) as [d|e] eqn:E.
    + destruct C as [r [-> [Hn [Hm Hi]]]]. split; [exact Hn|].
      exists text. cbn [fst snd]. rewrite Hm. auto.
    + rewrite C. right. exists text. auto.
  - left. reflexivity.
Qed.

Lemma parsed_not_fails : forall f e, parsed nlp f -> fails nlp f e -> False.
Proof.
  intros f e [text [d [R E]]] [F|[text' [R' E']]].
  - rewrite R in F. discriminate F.
  - rewrite R in R'. injection R' as <-. rewrite E in E'. discriminate E'.
Qed.

Lemma record_parsed : forall r f, record_of nlp r f -> parsed nlp f.
Proof. intros r f [_ [text [R [E _]]]]. exists text, (r_metrics r). auto. Qed.

Lemma parse_files_ok : forall files rs,
  parse_files nlp files = Ok rs -> Forall2 (record_of nlp) rs files.
Proof.
  induction files as [|f files IH]; intros rs H; cbn [parse_files] in H.
  - apply DictFacts.Ok_inj in H. subst rs. constructor.
  - pose proof (parse_entry_cases f) as C.
    destruct (parse_entry nlp f) as [r|e]; [|discriminate H]. cbn [bind] in H.
    destruct (parse_files nlp files) as [rs'|e']; [|discriminate H].
    cbn [bind] in H. apply DictFacts.Ok_inj in H. subst rs.
    constructor; [exact C | apply IH; reflexivity].
Qed.

Lemma parse_files_all_ok : forall files,
  (forall f, In f files -> parsed nlp f) -> exists rs, parse_files nlp files = Ok rs.
Proof.
  induction files as [|f files IH]; intros H; cbn [parse_files].
  - eexists. reflexivity.
  - pose proof (parse_entry_cases f) as C.
    destruct (parse_entry nlp f) as [r|e].
    + destruct IH as [rs Hrs]; [intros g Hg; apply H; right; exact Hg|].
      rewrite Hrs. cbn [bind]. eexists. reflexivity.
    + exfalso. apply (parsed_not_fails f e); [apply H; left; reflexivity | exact C].
Qed.

Lemma parse_files_first_raise : forall pre f post e,
  (forall g, In g pre -> parsed nlp g) -> fails nlp f e ->
  parse_files nlp (pre ++ f :: post)%list = Raise e.
Proof.
  induction pre as [|g pre IH]; intros f post e H E; cbn [parse_files app].
  - pose proof (parse_entry_cases f) as C.
    destruct (parse_entry nlp f) as [r|e'].
    + exfalso. apply (parsed_not_fails f e); [apply (record_parsed r); exact C | exact E].
    + cbn [bind]. f_equal. destruct E as [E|[text [R E]]], C as [C|[text' [R' C]]].
      * rewrite E in C. injection C as <-. reflexivity.
      * rewrite E in R'. discriminate R'.
      * rewrite R in C. discriminate C.
      * rewrite R in R'. injection R' as <-. rewrite E in C. injection C as <-. reflexivity.
  - pose proof (parse_entry_cases g) as C.
    destruct (parse_entry nlp g) as [r|e'].
    + cbn [bind]. rewrite (IH f post e); [reflexivity | | exact E].
      intros h Hh. apply H. right. exact Hh.
    + exfalso. apply (parsed_not_fails g e'); [apply H; left; reflexivity | exact C].
Qed.

End Files.
End MainFacts.

(** X4. The batch run is all or nothing. When [main] returns, the list
    has been written and has one record per [*.txt] entry of the
    directory, in the order of the listing: each entry was read, and
    its record has the entry's file name, the metrics extracted from
    the text read and the identity resolved from text and name. When
    every [*.txt] entry is read and its extraction returns, the list
    of those records is built and [main] ends as the writing does. When
    an entry cannot be read or its extraction raises, the entries
    before it being fine, [main] ends with that exception, whatever the
    later entries are, and nothing is written. *)
Theorem X4_batch_all_or_nothing :
  forall (nlp : string -> list string) (dump : list transcript -> res unit)
         (directory : list entry),
  (forall rs, main nlp dump directory = Ok rs ->
     dump rs = Ok tt /\ Forall2 (record_of nlp) rs (txt_entries directory)) /\
  ((forall f, In f (txt_entries directory) -> parsed nlp f) ->
   exists rs, Forall2 (record_of nlp) rs (txt_entries directory) /\
     main nlp dump directory = match dump rs with Ok _ => Ok rs | Raise e => Raise e end) /\
  (forall pre f post e,
     txt_entries directory = (pre ++ f :: post)%list ->
     (forall g, In g pre -> parsed nlp g) ->
     fails nlp f e ->
     main nlp dump directory = Raise e).
Proof.
  intros nlp dump directory. unfold main. split; [|split].
  - intros rs H.
    destruct (parse_files nlp (txt_entries directory)) as [rs'|e] eqn:P; [|discriminate H].
    cbn [bind] in H. destruct (dump rs') as [[]|e] eqn:D; [|discriminate H].
    cbn [bind] in H. apply DictFacts.Ok_inj in H. subst rs'.
    split; [exact D|]. apply (MainFacts.parse_files_ok nlp _ _ P).
  - intros H. destruct (MainFacts.parse_files_all_ok nlp _ H) as [rs P].
    exists rs. split; [apply (MainFacts.parse_files_ok nlp _ _ P)|].
    rewrite P. cbn [bind]. destruct (dump rs) as [[]|e]; reflexivity.
  - intros pre f post e -> H E.
    rewrite (MainFacts.parse_files_first_raise nlp pre f post e H E). reflexivity.
Qed.

(** ** The text normalizer and the matchers *)

Module CleanFacts.

Lemma clean_text_twice : forall text, clean_text (clean_text text) = clean_text text.
Proof. intros text. apply clean_text_fixes_normalized, clean_text_normalized. Qed.

Lemma sub_ws_newline : forall s b,
  sub_ws b (replace_char "010" " " s) = sub_ws b s.
Proof.
  induction s as [|c s IH]; intros b; simpl; [reflexivity|].
  destruct (Ascii.eqb c "010") eqn:E.
  - apply Ascii.eqb_eq in E. subst c. simpl. rewrite IH. reflexivity.
  - simpl. rewrite !IH. reflexivity.
Qed.

Lemma lstrip_sub_ws : forall s b, lstrip (sub_ws b s) = sub_ws true (lstrip s).
Proof.
  induction s as [|c s IH]; intros b; simpl; [reflexivity|].
  destruct (is_space c) eqn:Hc.
  - destruct b; simpl; apply IH.
  - simpl. rewrite Hc. reflexivity.
Qed.

Lemma split_ws_lstrip : forall s, split_ws_aux EmptyString (lstrip s) = split_ws_aux EmptyString s.
Proof.
  induction s as [|c s IH]; simpl; [reflexivity|].
  destruct (is_space c) eqn:Hc; [exact IH|]. simpl. rewrite Hc. reflexivity.
Qed.

Lemma rev_string_acc : forall s acc,
  rev_string acc s = (rev_string EmptyString s ++ acc)%string.
Proof.
  induction s as [|c s IH]; intros acc; simpl; [reflexivity|].
  rewrite (IH (String c acc)), (IH (String c EmptyString)).
  rewrite ReFacts.append_assoc. reflexivity.
Qed.

Lemma rev_string_nonempty : forall c s, rev_string EmptyString (String c s) <> EmptyString.
Proof.
  intros c s. simpl. rewrite rev_string_acc.
  destruct (rev_string EmptyString s); discriminate.
Qed.

Lemma rstrip_append : forall a b,
  rstrip (a ++ b) = match rstrip b with
                    | EmptyString => rstrip a
                    | t => (a ++ t)%string
                    end.
Proof.
  induction a as [|c a IH]; intros b; simpl.
  - destruct (rstrip b); reflexivity.
  - rewrite IH. destruct (rstrip b); [reflexivity|]. destruct a; reflexivity.
Qed.

Lemma rstrip_no_space : forall w, str_forallb (fun c => negb (is_space c)) w = true -> rstrip w = w.
Proof.
  induction w as [|c w IH]; simpl; intros H; [reflexivity|].
  apply andb_true_iff in H as [Hc Hw]. rewrite (IH Hw).
  destruct w; [|reflexivity].
  destruct (is_space c); [discriminate Hc | reflexivity].
Qed.

Lemma no_space_rev : forall s acc,
  str_forallb (fun c => negb (is_space c)) s = true ->
  str_forallb (fun c => negb (is_space c)) acc = true ->
  str_forallb (fun c => negb (is_space c)) (rev_string acc s) = true.
Proof.
  induction s as [|c s IH]; intros acc Hs Ha; simpl in *; [exact Ha|].
  apply andb_true_iff in Hs as [Hc Hs]. apply IH; [exact Hs|].
  simpl. rewrite Hc. exact Ha.
Qed.

Lemma split_ws_aux_nonempty : forall s cur tok,
  In tok (split_ws_aux cur s) -> tok <> EmptyString.
Proof.
  induction s as [|c s IH]; intros cur tok H; simpl in H.
  - destruct cur as [|d cur]; [contradiction|].
    destruct H as [<-|[]]. apply rev_string_nonempty.
  - destruct (is_space c).
    + destruct cur as [|d cur]; [apply (IH _ _ H)|].
      destruct H as [<-|H]; [apply rev_string_nonempty | apply (IH _ _ H)].
    + apply (IH _ _ H).
Qed.

Lemma join_nonempty : forall sep p ps, p <> EmptyString -> join sep (p :: ps) <> EmptyString.
Proof.
  intros sep p ps H. simpl. destruct ps; [exact H|].
  destruct p; [contradiction | discriminate].
Qed.

(** The collapsed text, trimmed on the right, is the words joined by
    spaces; [cur] is the word being read, reversed. *)
Lemma rstrip_sub_ws_join : forall s cur,
  str_forallb (fun c => negb (is_space c)) cur = true ->
  rstrip (rev_string EmptyString cur ++
          sub_ws (match cur with EmptyString => true | _ => false end) s)
  = join " " (split_ws_aux cur s).
Proof.
  induction s as [|c s IH]; intros cur Hcur.
  - simpl. destruct cur as [|d cur]; [reflexivity|].
    rewrite ReLangFacts.append_nil_r. cbn [join].
    apply rstrip_no_space. apply no_space_rev; [exact Hcur | reflexivity].
  - cbn [sub_ws split_ws_aux]. destruct (is_space c) eqn:Hc.
    + destruct cur as [|d cur].
      * apply (IH EmptyString eq_refl).
      * pose proof (IH EmptyString eq_refl) as R. cbn [rev_string append] in R.
        rewrite rstrip_append. cbn [rstrip]. rewrite R.
        destruct (split_ws_aux EmptyString s) as [|p ps] eqn:Hsp.
        -- cbn [join].
           apply rstrip_no_space. apply no_space_rev; [exact Hcur | reflexivity].
        -- assert (Hp : p <> EmptyString)
             by (apply (split_ws_aux_nonempty s EmptyString); rewrite Hsp; left; reflexivity).
           pose proof (join_nonempty " " p ps Hp) as Hj.
           destruct (join " " (p :: ps)) as [|j js] eqn:Ej; [contradiction|].
           change (join " " (rev_string EmptyString (String d cur) :: p :: ps))
             with (rev_string EmptyString (String d cur) ++ " " ++ join " " (p :: ps))%string.
           rewrite Ej. reflexivity.
    + rewrite <- (IH (String c cur)).
      * cbn [rev_string]. rewrite (rev_string_acc cur (String c EmptyString)).
        rewrite ReFacts.append_assoc. simpl.
        destruct cur; reflexivity.
      * simpl. rewrite Hc. exact Hcur.
Qed.

End CleanFacts.

(** X5. [clean_text] keeps the words and nothing else: what it returns
    is the text's maximal runs of non-whitespace characters, in order,
    joined by single spaces (Python's [" ".join(text.split())]); it is
    empty exactly when the text has no such run. *)
Theorem X5_clean_text_joins_words :
  forall text : string,
  clean_text text = join " " (split_ws text) /\
  (clean_text text = EmptyString <-> split_ws text = []).
Proof.
  intros text.
  assert (E : clean_text text = join " " (split_ws text)).
  { rewrite clean_text_collapse. unfold strip, split_ws.
    rewrite CleanFacts.sub_ws_newline, CleanFacts.lstrip_sub_ws.
    rewrite <- CleanFacts.split_ws_lstrip.
    apply (CleanFacts.rstrip_sub_ws_join (lstrip text) EmptyString eq_refl). }
  split; [exact E|]. rewrite E. split.
  - intros H. destruct (split_ws text) as [|p ps] eqn:Hs; [reflexivity|].
    exfalso. apply (CleanFacts.join_nonempty " " p ps); [|exact H].
    apply (CleanFacts.split_ws_aux_nonempty text EmptyString).
    unfold split_ws in Hs. rewrite Hs. left. reflexivity.
  - intros ->. reflexivity.
Qed.

Module PreCleanFacts.

Ltac pre_clean f := unfold f; cbv zeta; rewrite CleanFacts.clean_text_twice; reflexivity.

Lemma parse_metric_clean : forall text keyword,
  parse_metric (clean_text text) keyword = parse_metric text keyword.
Proof. intros. pre_clean parse_metric. Qed.

Lemma parse_revenue_clean : forall text, parse_revenue (clean_text text) = parse_revenue text.
Proof. intros. pre_clean parse_revenue. Qed.

Lemma parse_available_liquidity_clean : forall text,
  parse_available_liquidity (clean_text text) = parse_available_liquidity text.
Proof.
  intros. unfold parse_available_liquidity. cbv zeta.
  rewrite parse_metric_clean, CleanFacts.clean_text_twice. reflexivity.
Qed.

Lemma parse_total_available_liquidity_clean : forall text,
  parse_total_available_liquidity (clean_text text) = parse_total_available_liquidity text.
Proof.
  intros. unfold parse_total_available_liquidity. cbv zeta.
  rewrite parse_available_liquidity_clean, CleanFacts.clean_text_twice. reflexivity.
Qed.

Lemma parse_net_revenue_margin_clean : forall text,
  parse_net_revenue_margin (clean_text text) = parse_net_revenue_margin text.
Proof. intros. pre_clean parse_net_revenue_margin. Qed.

Lemma parse_actual_eps_clean : forall text,
  parse_actual_eps (clean_text text) = parse_actual_eps text.
Proof. intros. pre_clean parse_actual_eps. Qed.

Lemma add_narrative_clean : forall nlp text r,
  add_narrative nlp (clean_text text) r = add_narrative nlp text r.
Proof.
  intros. unfold add_narrative, extract_guidance_sentences,
    extract_forward_looking_statements, extract_prior_year_comparisons,
    extract_year_over_year_sentences, extract_compared_to_sentences,
    extract_raising_sentences, extract_refinance_sentences,
    extract_production_sentences, extract_outlook_sentences,
    extract_demand_sentences, extract_challenge_sentences, sentences_where.
  rewrite CleanFacts.clean_text_twice. reflexivity.
Qed.

(** The two tables agree but for the free cash flow. *)
Lemma metric_table_clean : forall nlp text nrm eps k,
  k <> "free_cash_flow" ->
  dict_get k (metric_table nlp (clean_text text) nrm eps)
  = dict_get k (metric_table nlp text nrm eps).
Proof.
  intros nlp text nrm eps k Hk. unfold metric_table.
  unfold parse_consolidated_net_sales, parse_consolidated_operating_income,
    parse_marketplace_gov, parse_total_orders, parse_gaap_net_income.
  rewrite !parse_metric_clean, parse_revenue_clean, parse_available_liquidity_clean,
    parse_total_available_liquidity_clean.
  replace (parse_orders nlp (clean_text text)) with (parse_orders nlp text)
    by (symmetry; pre_clean parse_orders).
  replace (parse_adjusted_ebitda (clean_text text)) with (parse_adjusted_ebitda text)
    by (symmetry; pre_clean parse_adjusted_ebitda).
  replace (parse_lumber_segment_adjusted_ebitda (clean_text text))
    with (parse_lumber_segment_adjusted_ebitda text)
    by (symmetry; pre_clean parse_lumber_segment_adjusted_ebitda).
  replace (parse_liquidity (clean_text text)) with (parse_liquidity text)
    by (symmetry; pre_clean parse_liquidity).
  replace (parse_net_cash_balance (clean_text text)) with (parse_net_cash_balance text)
    by (symmetry; pre_clean parse_net_cash_balance).
  replace (parse_credit_facility (clean_text text)) with (parse_credit_facility text)
    by (symmetry; pre_clean parse_credit_facility).
  replace (parse_cash_flow nlp (clean_text text)) with (parse_cash_flow nlp text)
    by (symmetry; pre_clean parse_cash_flow).
  replace (parse_net_income nlp (clean_text text)) with (parse_net_income nlp text)
    by (symmetry; pre_clean parse_net_income).
  replace (parse_gaap_diluted_eps (clean_text text)) with (parse_gaap_diluted_eps text)
    by (symmetry; pre_clean parse_gaap_diluted_eps).
  replace (parse_adjusted_eps nlp (clean_text text)) with (parse_adjusted_eps nlp text)
    by (symmetry; pre_clean parse_adjusted_eps).
  replace (parse_share_buybacks_and_dividends (clean_text text))
    with (parse_share_buybacks_and_dividends text)
    by (symmetry; pre_clean parse_share_buybacks_and_dividends).
  replace (parse_combined_rate_ar6 (clean_text text)) with (parse_combined_rate_ar6 text)
    by (symmetry; pre_clean parse_combined_rate_ar6).
  replace (parse_total_net_sales (clean_text text)) with (parse_total_net_sales text)
    by (symmetry; pre_clean parse_total_net_sales).
  replace (parse_interest_expense (clean_text text)) with (parse_interest_expense text)
    by (symmetry; pre_clean parse_interest_expense).
  replace (parse_adjusted_net_income (clean_text text)) with (parse_adjusted_net_income text)
    by (symmetry; pre_clean parse_adjusted_net_income).
  replace (parse_gaap_operating_income (clean_text text))
    with (parse_gaap_operating_income text)
    by (symmetry; pre_clean parse_gaap_operating_income).
  cbn [dict_get].
  repeat match goal with
         | |- context [String.eqb ?a k] =>
             destruct (String.eqb a k) eqn:?; [try reflexivity|]
         end; [|reflexivity].
  exfalso. apply Hk. symmetry. apply String.eqb_eq. assumption.
Qed.

End PreCleanFacts.

(** X6. Cleaning the text beforehand changes nothing but, possibly, the
    free cash flow (the one matcher that reads the text as given): the
    extraction from the cleaned text raises exactly when the extraction
    from the text does, with the same exception, and otherwise the two
    results agree on every key other than [free_cash_flow]. *)
Theorem X6_precleaning_is_harmless :
  forall (nlp : string -> list string) (text : string),
  (forall e, extract_metrics nlp (clean_text text) = Raise e <->
             extract_metrics nlp text = Raise e) /\
  (forall d d' k,
     extract_metrics nlp text = Ok d ->
     extract_metrics nlp (clean_text text) = Ok d' ->
     k <> "free_cash_flow" ->
     dict_get k d' = dict_get k d).
Proof.
  intros nlp text. split.
  - intros e.
    pose proof (BatchFacts.extract_metrics_cases nlp text) as C.
    pose proof (BatchFacts.extract_metrics_cases nlp (clean_text text)) as C'.
    rewrite CleanFacts.clean_text_twice, PreCleanFacts.parse_net_revenue_margin_clean,
      PreCleanFacts.parse_actual_eps_clean in C'.
    destruct (nlp_check (clean_text text)) as [[]|e0].
    + destruct (parse_net_revenue_margin text) as [nrm|e1].
      * destruct (parse_actual_eps text) as [eps|e2].
        -- destruct C as [d ->]. destruct C' as [d' ->]. split; discriminate.
        -- rewrite C, C'. reflexivity.
      * rewrite C, C'. reflexivity.
    + rewrite C, C'. reflexivity.
  - intros d d' k H H' Hk.
    destruct (DictFacts.extract_metrics_lookup nlp text d H) as [nrm [eps [E1 [E2 L]]]].
    destruct (DictFacts.extract_metrics_lookup nlp _ d' H') as [nrm' [eps' [E1' [E2' L']]]].
    rewrite PreCleanFacts.parse_net_revenue_margin_clean, E1 in E1'.
    rewrite PreCleanFacts.parse_actual_eps_clean, E2 in E2'.
    apply DictFacts.Ok_inj in E1', E2'. subst nrm' eps'.
    rewrite L, L', PreCleanFacts.add_narrative_clean,
      (PreCleanFacts.metric_table_clean nlp text nrm eps k Hk).
    reflexivity.
Qed.

(** ** Document identity: what the fields look like *)

Module LitFacts.
Import Re ReLang ReLit ReLangFacts AnalysisFacts.

Lemma literal_lang : forall r l w,
  literal r = Some l -> lang false r w -> w = l.
Proof.
  induction r as [| x | | | | | | a IHa b IHb | | |]; intros l w L H; simpl in L;
    try discriminate L.
  - simpl in H. destruct H as [c [-> Hc]]. apply Ascii.eqb_eq in Hc. subst c.
    injection L as <-. reflexivity.
  - destruct a; try discriminate L.
    destruct (literal b) as [lb|] eqn:Lb; [|discriminate L].
    simpl in L. injection L as <-.
    simpl in H. destruct H as [u [v [-> [[a [-> Ha]] Hv]]]].
    apply Ascii.eqb_eq in Ha. subst a. simpl. f_equal. apply IHb; auto.
Qed.

Lemma literals_lang : forall r ls w,
  literals r = Some ls -> lang false r w -> In w ls.
Proof.
  induction r as [| x | | | | | | a IHa b IHb | a IHa b IHb | | n a IHa]; intros ls w L H;
    simpl in L; try discriminate L.
  - injection L as <-. left. symmetry. apply (literal_lang (RChar x)); auto.
  - destruct (literal (RSeq a b)) as [l|] eqn:E; simpl in L.
    + unfold literal in E. fold literal in E. rewrite E in L. simpl in L.
      injection L as <-. left. symmetry. apply (literal_lang (RSeq a b)); auto.
    + unfold literal in E. fold literal in E. rewrite E in L. discriminate L.
  - destruct (literals a) as [la|]; [|discriminate L].
    destruct (literals b) as [lb|]; [|discriminate L].
    injection L as <-. apply in_or_app. simpl in H.
    destruct H as [H|H]; [left; apply IHa | right; apply IHb]; auto.
  - simpl in H. apply IHa; auto.
Qed.

(** A run of single characters of a class. *)
Lemma iter_class : forall (L : string -> Prop) (p : ascii -> bool) n w,
  (forall u, L u -> exists a, u = String a EmptyString /\ p a = true) ->
  iter L n w -> String.length w = n /\ str_forallb p w = true.
Proof.
  intros L p n. induction n as [|n IH]; intros w HL H; simpl in H.
  - subst w. split; reflexivity.
  - destruct H as [u [v [-> [Hu Hv]]]]. destruct (HL u Hu) as [a [-> Ha]].
    destruct (IH v HL Hv) as [Hl Hp]. simpl. rewrite Hl, Ha, Hp. split; reflexivity.
Qed.

Lemma rep_set_lang : forall ic greedy lo hi neg items w,
  lang ic (RRep greedy lo (Some hi) (RSet neg items)) w ->
  (lo <= String.length w <= lo + (hi - lo))%nat /\
  str_forallb (set_matches ic neg items) w = true.
Proof.
  intros ic greedy lo hi neg items w [n [Hlo [Hhi H]]].
  destruct (iter_class _ (set_matches ic neg items) n w (fun u Hu => Hu) H) as [Hl Hp].
  rewrite Hl. split; [lia | exact Hp].
Qed.

Lemma rep_set_lang_unbounded : forall ic greedy lo neg items w,
  lang ic (RRep greedy lo None (RSet neg items)) w ->
  (lo <= String.length w)%nat /\ str_forallb (set_matches ic neg items) w = true.
Proof.
  intros ic greedy lo neg items w [n [Hlo [_ H]]].
  destruct (iter_class _ (set_matches ic neg items) n w (fun u Hu => Hu) H) as [Hl Hp].
  rewrite Hl. split; [lia | exact Hp].
Qed.

Lemma forallb_str_ext : forall (p q : ascii -> bool) s,
  (forall a, p a = q a) -> str_forallb p s = str_forallb q s.
Proof.
  intros p q s H. induction s as [|c s IH]; simpl; [reflexivity|]. rewrite H, IH. reflexivity.
Qed.

End LitFacts.

Module HeaderFacts.
Import Re ReLang ReLit AnalysisFacts ReLangFacts LitFacts.

Lemma quarter_digit : forall b,
  set_matches false false [CRange "1" "4"] b = true ->
  In (String "Q" (String b EmptyString)) ["Q1"; "Q2"; "Q3"; "Q4"].
Proof.
  intros b H. destruct b as [b0 b1 b2 b3 b4 b5 b6 b7].
  destruct b0, b1, b2, b3, b4, b5, b6, b7; try discriminate H; simpl; tauto.
Qed.

Lemma ticker_shape : forall s m t,
  search false (compile ticker_pattern) s = Some m -> group m 2 = Some t ->
  t <> EmptyString /\ str_forallb is_upper t = true.
Proof.
  intros s m t S G. split.
  - apply (ReFacts.search_group_nonempty false _ s m 2 t S G); [discriminate|].
    intros _. vm_compute. reflexivity.
  - apply (search_group_chars false is_upper 2 _ s m t S G); [discriminate|].
    vm_compute. reflexivity.
Qed.

Lemma quarter_shape : forall s m q,
  search false (compile quarter_year_pattern) s = Some m -> group m 1 = Some q ->
  In q ["Q1"; "Q2"; "Q3"; "Q4"].
Proof.
  intros s m q S G.
  destruct (search_lang false _ _ _ S) as [pre [w [post [_ [_ [_ Hg]]]]]].
  specialize (Hg 1%nat q (fun E => Nat.neq_succ_0 _ E) G).
  remember (compile quarter_year_pattern) as r eqn:E. vm_compute in E. subst r.
  cbn [glang lang] in Hg.
  decompose [or] Hg; try contradiction;
    match goal with H : _ = _ /\ _ |- _ => destruct H as [Heq H] end;
    try discriminate Heq.
  destruct H as [u [v [-> [[a [-> Ha]] [b [-> Hb]]]]]].
  apply Ascii.eqb_eq in Ha. subst a. apply quarter_digit. exact Hb.
Qed.

Lemma year_shape : forall s m y,
  search false (compile quarter_year_pattern) s = Some m -> group m 2 = Some y ->
  digits_between 4 4 y = true.
Proof.
  intros s m y S G.
  destruct (search_lang false _ _ _ S) as [pre [w [post [_ [_ [_ Hg]]]]]].
  specialize (Hg 2%nat y (fun E => Nat.neq_succ_0 _ E) G).
  remember (compile quarter_year_pattern) as r eqn:E. vm_compute in E. subst r.
  cbn [glang] in Hg.
  decompose [or] Hg; try contradiction;
    match goal with H : _ = _ /\ _ |- _ => destruct H as [Heq H] end;
    try discriminate Heq.
  apply rep_set_lang in H. destruct H as [[H1 H2] H3].
  unfold digits_between.
  rewrite (forallb_str_ext _ _ y SpokenFacts.set_digit) in H3. rewrite H3.
  apply Nat.leb_le in H1. simpl in H2. apply Nat.leb_le in H2. rewrite H1, H2. reflexivity.
Qed.

Lemma date_shape : forall s m d,
  search false (compile date_pattern) s = Some m -> group m 0 = Some d ->
  exists month gap1 day gap2 year,
    d = (month ++ gap1 ++ day ++ "," ++ gap2 ++ year)%string /\
    In month month_names /\ blank_run gap1 = true /\ digits_between 1 2 day = true /\
    blank_run gap2 = true /\ digits_between 4 4 year = true.
Proof.
  intros s m d S G.
  destruct (search_lang false _ _ _ S) as [pre [w [post [_ [G0 [H _]]]]]].
  rewrite G in G0. injection G0 as <-.
  remember (compile date_pattern) as r eqn:E. vm_compute in E. subst r.
  match type of H with lang _ (RSeq ?a (RSeq ?b (RSeq ?c (RSeq ?e (RSeq ?f ?g))))) _ =>
    change (exists u v, d = (u ++ v)%string /\ lang false a u /\
            exists u1 v1, v = (u1 ++ v1)%string /\ lang false b u1 /\
            exists u2 v2, v1 = (u2 ++ v2)%string /\ lang false c u2 /\
            exists u3 v3, v2 = (u3 ++ v3)%string /\ lang false e u3 /\
            exists u4 v4, v3 = (u4 ++ v4)%string /\ lang false f u4 /\ lang false g v4) in H
  end.
  destruct H as [month [v [-> [Hm [gap1 [v1 [-> [Hg1 [day [v2 [-> [Hd [comma [v3 [->
                [Hc [gap2 [year [-> [Hg2 Hy]]]]]]]]]]]]]]]]]]]].
  exists month, gap1, day, gap2, year.
  destruct Hc as [c [-> Hc]]. apply Ascii.eqb_eq in Hc. subst c.
  split; [reflexivity|].
  split; [eapply literals_lang; [|exact Hm]; reflexivity|].
  assert (B : forall g, lang false (RRep true 1 None (RSet false [CSpace])) g ->
                        blank_run g = true).
  { intros g Hg. apply rep_set_lang_unbounded in Hg as [Hl Hp].
    unfold blank_run. rewrite (forallb_str_ext _ _ g ReFacts.set_space) in Hp. rewrite Hp.
    destruct g; [simpl in Hl; lia | reflexivity]. }
  assert (D : forall lo hi g, lang false (RRep true lo (Some hi) (RSet false [CDigit])) g ->
                              digits_between lo (lo + (hi - lo)) g = true).
  { intros lo hi g Hg. apply rep_set_lang in Hg as [[H1 H2] Hp].
    unfold digits_between. rewrite (forallb_str_ext _ _ g SpokenFacts.set_digit) in Hp.
    rewrite Hp. apply Nat.leb_le in H1, H2. rewrite H1, H2. reflexivity. }
  split; [apply B; exact Hg1|]. split; [apply (D 1%nat 2%nat); exact Hd|].
  split; [apply B; exact Hg2 | apply (D 4%nat 4%nat); exact Hy].
Qed.

End HeaderFacts.

(** X7. What the header resolves has the shape the patterns ask for,
    whatever the text: a ticker is a non-empty run of upper-case ASCII
    letters; a quarter is one of Q1, Q2, Q3, Q4; a year is exactly four
    digits; an earnings date is a month name in full, whitespace, one or
    two digits, a comma, whitespace and four digits. *)
Theorem X7_header_fields_shape :
  forall text ticker quarter year earnings_date,
  extract_ticker_quarter_year_date text = (ticker, quarter, year, earnings_date) ->
  (forall t, ticker = Some t -> t <> EmptyString /\ str_forallb is_upper t = true) /\
  (forall q, quarter = Some q -> In q ["Q1"; "Q2"; "Q3"; "Q4"]) /\
  (forall y, year = Some y -> digits_between 4 4 y = true) /\
  (forall d, earnings_date = Some d ->
     exists month gap1 day gap2 yyyy,
       d = (month ++ gap1 ++ day ++ "," ++ gap2 ++ yyyy)%string /\
       In month month_names /\ blank_run gap1 = true /\ digits_between 1 2 day = true /\
       blank_run gap2 = true /\ digits_between 4 4 yyyy = true).
Proof.
  intros text ticker quarter year earnings_date H.
  unfold extract_ticker_quarter_year_date in H.
  set (first_lines := join _ _) in H. clearbody first_lines. cbv zeta in H.
  apply (f_equal (fun x => (fst (fst (fst x)), snd (fst (fst x)), snd (fst x), snd x))) in H.
  cbn [fst snd] in H.
  assert (A1 := f_equal (fun x => fst (fst (fst x))) H).
  assert (A2 := f_equal (fun x => snd (fst (fst x))) H).
  assert (A3 := f_equal (fun x => snd (fst x)) H).
  assert (A4 := f_equal snd H). cbn [fst snd] in A1, A2, A3, A4. clear H.
  subst ticker quarter year earnings_date.
  split; [|split; [|split]].
  - intros t G. destruct (Re.search false _ first_lines) as [m|] eqn:S; [|discriminate G].
    apply (HeaderFacts.ticker_shape _ _ _ S G).
  - intros q G. destruct (Re.search false _ first_lines) as [m|] eqn:S; [|discriminate G].
    apply (HeaderFacts.quarter_shape _ _ _ S G).
  - intros y G. destruct (Re.search false _ first_lines) as [m|] eqn:S; [|discriminate G].
    apply (HeaderFacts.year_shape _ _ _ S G).
  - intros d G. destruct (Re.search false _ first_lines) as [m|] eqn:S; [|discriminate G].
    apply (HeaderFacts.date_shape _ _ _ S G).
Qed.

Lemma X7_header_fields_witness :
  "ACME" <> EmptyString /\ str_forallb is_upper "ACME" = true /\
  In "Q3" ["Q1"; "Q2"; "Q3"; "Q4"] /\ digits_between 4 4 "2024" = true.
Proof.
  destruct (X7_header_fields_shape header_example
              (Some "ACME") (Some "Q3") (Some "2024") (Some "October 24, 2024"))
    as [T [Q [Y _]]]; [vm_compute; reflexivity|].
  destruct (T _ eq_refl) as [T1 T2].
  split; [exact T1|]. split; [exact T2|].
  split; [exact (Q _ eq_refl) | exact (Y _ eq_refl)].
Defined.

(** ** Document identity: lines and file names *)

Module SplitFacts.
Import CleanFacts.

Lemma split_char_aux_last : forall sep l cur,
  free_of sep l = true ->
  split_char_aux sep cur l = [(rev_string EmptyString cur ++ l)%string].
Proof.
  intros sep. induction l as [|c l IH]; intros cur H; simpl.
  - rewrite ReLangFacts.append_nil_r. reflexivity.
  - unfold free_of in H. simpl in H. apply andb_true_iff in H as [Hc Hl].
    apply negb_true_iff in Hc. rewrite Hc, (IH _ Hl). simpl.
    rewrite (rev_string_acc cur (String c EmptyString)), ReFacts.append_assoc. reflexivity.
Qed.

Lemma split_char_aux_app : forall sep l cur rest,
  free_of sep l = true ->
  split_char_aux sep cur (l ++ String sep rest)
  = (rev_string EmptyString cur ++ l)%string :: split_char sep rest.
Proof.
  intros sep. induction l as [|c l IH]; intros cur rest H; simpl.
  - rewrite Ascii.eqb_refl, ReLangFacts.append_nil_r. reflexivity.
  - unfold free_of in H. simpl in H. apply andb_true_iff in H as [Hc Hl].
    apply negb_true_iff in Hc. rewrite Hc, (IH _ _ Hl). simpl.
    rewrite (rev_string_acc cur (String c EmptyString)), ReFacts.append_assoc. reflexivity.
Qed.

(** Splitting what was joined gives the parts back. *)
Lemma split_join : forall sep parts,
  parts <> [] -> forallb (free_of sep) parts = true ->
  split_char sep (join (String sep EmptyString) parts) = parts.
Proof.
  intros sep. induction parts as [|p ps IH]; intros Hne H; [contradiction Hne; reflexivity|].
  simpl in H. apply andb_true_iff in H as [Hp Hps].
  destruct ps as [|q ps].
  - simpl. unfold split_char. rewrite (split_char_aux_last _ _ _ Hp). reflexivity.
  - change (join (String sep EmptyString) (p :: q :: ps))
      with (p ++ String sep (join (String sep EmptyString) (q :: ps)))%string.
    unfold split_char at 1. rewrite (split_char_aux_app _ _ _ _ Hp). simpl rev_string.
    rewrite IH; [reflexivity | discriminate | exact Hps].
Qed.

End SplitFacts.

(** X8. Only the first three lines count for the header: for a text of
    at least three lines, whatever follows the third line leaves the
    four header fields as they are for the first three lines alone. *)
Theorem X8_header_reads_three_lines :
  forall (l1 l2 l3 : string) (more : list string),
  forallb (free_of "010") (l1 :: l2 :: l3 :: more) = true ->
  extract_ticker_quarter_year_date (join (String "010" "") (l1 :: l2 :: l3 :: more))
  = extract_ticker_quarter_year_date (join (String "010" "") [l1; l2; l3]).
Proof.
  intros l1 l2 l3 more H.
  assert (H3 : forallb (free_of "010") [l1; l2; l3] = true).
  { simpl in *. repeat (apply andb_true_iff in H as [?A H]). rewrite A, A0, A1. reflexivity. }
  unfold extract_ticker_quarter_year_date.
  rewrite (SplitFacts.split_join "010" _ (fun E => nil_cons (eq_sym E)) H).
  rewrite (SplitFacts.split_join "010" _ (fun E => nil_cons (eq_sym E)) H3).
  reflexivity.
Qed.

Lemma X8_header_reads_three_lines_witness :
  extract_ticker_quarter_year_date
    (join (String "010" "")
       ["Acme Corp (NYSE:ACME)"; "Q3 2024 Earnings Call"; "October 24, 2024";
        "Globex (NYSE:GLBX) Q1 2023"; "January 5, 2023"])
  = (Some "ACME", Some "Q3", Some "2024", Some "October 24, 2024").
Proof.
  rewrite X8_header_reads_three_lines; [|reflexivity]. vm_compute. reflexivity.
Defined.

Module FileNameFacts.
Import Re CleanFacts SplitFacts.

Lemma year_match : forall year,
  digits_between 4 4 year = true ->
  is_some (Re.match_ false (Re.compile filename_year_pattern) year) = true.
Proof.
  intros year H. unfold digits_between in H.
  apply andb_true_iff in H as [H Hd]. apply andb_true_iff in H as [H1 H2].
  apply Nat.leb_le in H1, H2.
  destruct year as [|d1 [|d2 [|d3 [|d4 [|d5 y]]]]]; simpl in H1, H2; try lia.
  simpl in Hd.
  repeat (apply andb_true_iff in Hd as [?D Hd]).
  replace (Re.compile filename_year_pattern)
    with (RRep true 4 (Some 4) (RSet false [CDigit])) by (vm_compute; reflexivity).
  unfold match_, match_at, start_of.
  cbn [run rep_required rep_more rep_fuel step rest pos].
  rewrite !SpokenFacts.set_digit, D, D0, D1, D2. reflexivity.
Qed.

Lemma rfind_dot_txt : forall name i,
  free_of "." name = true ->
  rfind_dot i (name ++ ".txt") = Some (i + String.length name)%nat.
Proof.
  induction name as [|c name IH]; intros i H.
  - simpl. f_equal. lia.
  - unfold free_of in H. simpl in H. apply andb_true_iff in H as [Hc Hn].
    simpl. rewrite (IH (S i) Hn). f_equal. lia.
Qed.

(** The stem of [name.txt] is [name]. *)
Lemma stem_txt : forall name,
  name <> EmptyString -> free_of "." name = true -> stem (name ++ ".txt") = name.
Proof.
  intros name Hne H. unfold stem. rewrite (rfind_dot_txt name 0 H). simpl Nat.add.
  rewrite ReFacts.length_append. simpl String.length.
  replace (0 <? String.length name)%nat with true
    by (symmetry; apply Nat.ltb_lt; destruct name; [contradiction Hne; reflexivity | simpl; lia]).
  replace (String.length name <? String.length name + 4 - 1)%nat with true
    by (symmetry; apply Nat.ltb_lt; lia).
  simpl andb. cbv iota. apply ReFacts.take_append.
Qed.

Lemma free_dot_join : forall parts,
  forallb (free_of ".") parts = true -> free_of "." (join "_" parts) = true.
Proof.
  induction parts as [|p ps IH]; intros H; [reflexivity|].
  simpl in H. apply andb_true_iff in H as [Hp Hps].
  destruct ps as [|q ps]; [exact Hp|].
  change (join "_" (p :: q :: ps)) with (p ++ String "_" (join "_" (q :: ps)))%string.
  unfold free_of in *. rewrite AnalysisFacts.forallb_str_append, Hp.
  simpl. apply IH. exact Hps.
Qed.

Lemma digit_free : forall c,
  is_digit c = true -> Ascii.eqb c "_" = false /\ Ascii.eqb c "." = false.
Proof.
  intros [b0 b1 b2 b3 b4 b5 b6 b7] H.
  destruct b0, b1, b2, b3, b4, b5, b6, b7; try discriminate H; split; reflexivity.
Qed.

Lemma digits_free : forall y,
  str_forallb is_digit y = true -> free_of "_" y = true /\ free_of "." y = true.
Proof.
  induction y as [|c y IH]; simpl; intros H; [split; reflexivity|].
  apply andb_true_iff in H as [Hc Hy]. destruct (digit_free c Hc) as [E1 E2].
  destruct (IH Hy) as [F1 F2]. unfold free_of in *. simpl. rewrite E1, E2, F1, F2.
  split; reflexivity.
Qed.

Lemma forallb_snoc : forall (A : Type) (p : A -> bool) l x,
  forallb p (l ++ [x]) = forallb p l && p x.
Proof. intros. rewrite forallb_app. simpl. rewrite andb_true_r. reflexivity. Qed.

End FileNameFacts.

(** X9. The file name gives back what it was built from: for a name
    [ticker_quarter_m1_..._mk_year.txt] with at least one middle part,
    parts free of [_] and [.], and a year of four digits, the fallback
    yields the ticker in upper case, the quarter as written, the year,
    and as the date the middle parts and the year separated by single
    spaces. *)
Theorem X9_file_name_round_trip :
  forall (ticker quarter : string) (mid : list string) (year : string),
  forallb (fun p => free_of "_" p && free_of "." p) (ticker :: quarter :: mid) = true ->
  mid <> [] ->
  digits_between 4 4 year = true ->
  extract_from_filename (join "_" (ticker :: quarter :: mid ++ [year]) ++ ".txt")
  = (Some (upper ticker), Some quarter, Some year, Some (join " " mid ++ " " ++ year)%string).
Proof.
  intros ticker quarter mid year H Hmid Hy.
  assert (Hd : str_forallb is_digit year = true).
  { unfold digits_between in Hy. apply andb_true_iff in Hy as [_ Hy]. exact Hy. }
  destruct (FileNameFacts.digits_free year Hd) as [Y1 Y2].
  assert (F1 : forallb (free_of "_") (ticker :: quarter :: mid ++ [year]) = true).
  { change (ticker :: quarter :: mid ++ [year])%list
      with ((ticker :: quarter :: mid) ++ [year])%list.
    rewrite FileNameFacts.forallb_snoc, Y1, andb_true_r.
    rewrite forallb_forall in H. apply forallb_forall. intros x Hx.
    specialize (H x Hx). apply andb_true_iff in H as [H _]. exact H. }
  assert (F2 : forallb (free_of ".") (ticker :: quarter :: mid ++ [year]) = true).
  { change (ticker :: quarter :: mid ++ [year])%list
      with ((ticker :: quarter :: mid) ++ [year])%list.
    rewrite FileNameFacts.forallb_snoc, Y2, andb_true_r.
    rewrite forallb_forall in H. apply forallb_forall. intros x Hx.
    specialize (H x Hx). apply andb_true_iff in H as [_ H]. exact H. }
  unfold extract_from_filename.
  rewrite FileNameFacts.stem_txt.
  2:{ change (join "_" (ticker :: quarter :: mid ++ [year]))
        with (ticker ++ String "_" (join "_" (quarter :: mid ++ [year])))%string.
      destruct ticker; discriminate. }
  2:{ apply FileNameFacts.free_dot_join. exact F2. }
  rewrite (SplitFacts.split_join "_" _ (fun E => nil_cons (eq_sym E)) F1).
  cbv zeta.
  assert (L : last (ticker :: quarter :: mid ++ [year]) EmptyString = year).
  { change (ticker :: quarter :: mid ++ [year])%list
      with ((ticker :: quarter :: mid) ++ [year])%list. apply last_last. }
  assert (M : middle (ticker :: quarter :: mid ++ [year]) = mid).
  { unfold middle.
    change (ticker :: quarter :: mid ++ [year])%list
      with ((ticker :: quarter :: mid) ++ [year])%list.
    rewrite removelast_last. reflexivity. }
  assert (N : (4 <=? List.length (ticker :: quarter :: mid ++ [year]))%nat = true).
  { apply Nat.leb_le. simpl. rewrite length_app. simpl.
    destruct mid; [contradiction Hmid; reflexivity | simpl; lia]. }
  rewrite L, M, N, (FileNameFacts.year_match year Hy). reflexivity.
Qed.

Lemma X9_file_name_round_trip_witness :
  extract_from_filename "acme_Q3_October_24_2024.txt"
  = (Some "ACME", Some "Q3", Some "2024", Some "October 24 2024").
Proof.
  apply (X9_file_name_round_trip "acme" "Q3" ["October"; "24"] "2024");
    [reflexivity | discriminate | reflexivity].
Defined.

(** ** Signs of the values *)

Module FloatFacts.

Lemma shr_1_nonneg : forall mrs, (0 <= shr_m mrs)%Z -> (0 <= shr_m (shr_1 mrs))%Z.
Proof.
  intros [m r s] H. simpl in *. destruct m as [|[p|p|]|p]; simpl; lia.
Qed.

Lemma iter_pos_nonneg : forall n mrs,
  (0 <= shr_m mrs)%Z -> (0 <= shr_m (iter_pos shr_1 n mrs))%Z.
Proof.
  induction n as [n IH|n IH|]; intros mrs H; simpl.
  - apply IH, IH, shr_1_nonneg, H.
  - apply IH, IH, H.
  - apply shr_1_nonneg, H.
Qed.

Lemma shr_fexp_nonneg : forall p em m e l,
  (0 <= m)%Z -> (0 <= shr_m (fst (shr_fexp p em m e l)))%Z.
Proof.
  intros p em m e l H. unfold shr_fexp, shr.
  assert (R : (0 <= shr_m (shr_record_of_loc m l))%Z)
    by (destruct l as [|[| |]]; exact H).
  destruct (_ - e)%Z; simpl; [exact R | apply iter_pos_nonneg, R | exact R].
Qed.

Lemma binary_round_aux_nonneg : forall p em m e l,
  (0 <= m)%Z -> sf_nonneg (binary_round_aux p em false m e l) = true.
Proof.
  intros p em m e l H. unfold binary_round_aux.
  pose proof (shr_fexp_nonneg p em m e l H) as A.
  destruct (shr_fexp p em m e l) as [mrs' e']. simpl in A.
  assert (B : (0 <= round_nearest_even (shr_m mrs') (loc_of_shr_record mrs'))%Z).
  { unfold round_nearest_even. destruct (loc_of_shr_record mrs') as [|[| |]]; try lia.
    destruct (Z.even _); lia. }
  pose proof (shr_fexp_nonneg p em _ e' loc_Exact B) as C.
  destruct (shr_fexp p em _ e' loc_Exact) as [mrs'' e'']. simpl in C.
  destruct (shr_m mrs''); [reflexivity | | lia].
  destruct (Z.leb e'' (em - p)); reflexivity.
Qed.

Lemma binary_round_nonneg : forall p em m e,
  sf_nonneg (binary_round p em false m e) = true.
Proof.
  intros. unfold binary_round. destruct (shl_align _ _ _) as [mz ez].
  apply binary_round_aux_nonneg. lia.
Qed.

Lemma SFmul_nonneg : forall p em x my ey,
  sf_nonneg x = true -> sf_nonneg (SFmul p em x (S754_finite false my ey)) = true.
Proof.
  intros p em [sx| sx| |sx mx ex] my ey Hx; simpl in *; try discriminate Hx;
    try (destruct sx; [discriminate Hx | reflexivity]).
  destruct sx; [discriminate Hx|]. apply binary_round_aux_nonneg. lia.
Qed.

Lemma SFdiv_nonneg : forall p em x my ey,
  sf_nonneg x = true -> sf_nonneg (SFdiv p em x (S754_finite false my ey)) = true.
Proof.
  intros p em [sx| sx| |sx mx ex] my ey Hx; simpl in *; try discriminate Hx;
    try (destruct sx; [discriminate Hx | reflexivity]).
  destruct sx; [discriminate Hx|].
  unfold SFdiv_core_binary.
  set (s := (ex - ey - _)%Z).
  set (m' := match s with Zpos _ => Z.shiftl (Zpos mx) s | Z0 => Zpos mx | Zneg _ => 0%Z end).
  assert (M : (0 <= m')%Z).
  { unfold m'. destruct s; [lia | apply Z.shiftl_nonneg; lia | lia]. }
  pose proof (Z.div_pos m' (Zpos my) M ltac:(lia)) as Q.
  unfold Z.div in Q. destruct (Z.div_eucl m' (Zpos my)) as [q r].
  apply binary_round_aux_nonneg. exact Q.
Qed.

Lemma SF2Prim_nonneg : forall y,
  sf_nonneg y = true -> non_negative (SF2Prim y) = true.
Proof.
  intros [s| s| |s m e] H; simpl in H;
    try (destruct s; [discriminate H|]);
    [vm_compute; reflexivity | vm_compute; reflexivity | discriminate H |].
  unfold non_negative. simpl SF2Prim. rewrite FloatLemmas.Z_ldexp_spec.
  rewrite FloatAxioms.of_uint63_spec.
  match goal with |- context [Uint63Axioms.to_Z ?u] =>
    pose proof (Uint63.to_Z_bounded u) as B; destruct (Uint63Axioms.to_Z u) as [|q|q]
  end; [reflexivity | | lia].
  simpl binary_normalize.
  pose proof (binary_round_nonneg FloatOps.prec FloatOps.emax q 0) as C.
  destruct (binary_round FloatOps.prec FloatOps.emax false q 0) as [s| s| |s m' e'];
    simpl in C |- *; try exact C.
  destruct s; [discriminate C|]. apply binary_round_nonneg.
Qed.

Lemma of_decimal_nonneg : forall n e, non_negative (PyFloat.of_decimal false n e) = true.
Proof.
  intros n e. unfold PyFloat.of_decimal, PyFloat.nearest_ratio.
  destruct n as [|p|p]; [vm_compute; reflexivity | | vm_compute; reflexivity].
  destruct e; apply SF2Prim_nonneg, SFdiv_nonneg; reflexivity.
Qed.

Lemma mul_nonneg : forall x y my ey,
  Prim2SF y = S754_finite false my ey ->
  non_negative x = true -> non_negative (x * y) = true.
Proof.
  intros x y my ey Hy Hx. unfold non_negative. rewrite FloatAxioms.mul_spec, Hy.
  apply SFmul_nonneg. exact Hx.
Qed.

Lemma div_nonneg : forall x y my ey,
  Prim2SF y = S754_finite false my ey ->
  non_negative x = true -> non_negative (x / y) = true.
Proof.
  intros x y my ey Hy Hx. unfold non_negative. rewrite FloatAxioms.div_spec, Hy.
  apply SFdiv_nonneg. exact Hx.
Qed.

Lemma round_nonneg : forall x nd,
  non_negative x = true -> non_negative (PyFloat.round x nd) = true.
Proof.
  intros x nd H. unfold PyFloat.round.
  destruct (Prim2SF x) as [s| s| |s m e] eqn:E; try exact H.
  destruct e; try exact H.
  unfold non_negative in H. rewrite E in H. simpl in H.
  destruct s; [discriminate H|]. apply of_decimal_nonneg.
Qed.

Lemma nonneg_leb : forall x, non_negative x = true -> (0 <=? x)%float = true.
Proof.
  intros x H. rewrite FloatAxioms.leb_spec. unfold non_negative in H.
  replace (Prim2SF 0) with (S754_zero false) by (vm_compute; reflexivity).
  destruct (Prim2SF x) as [s| s| |s m e]; simpl in H |- *; try discriminate H;
    destruct s; try discriminate H; reflexivity.
Qed.

End FloatFacts.

Module SignFacts.
Import Re ReLang AnalysisFacts ReLangFacts FloatFacts.

Lemma lstrip_forall : forall p s, str_forallb p s = true -> str_forallb p (lstrip s) = true.
Proof.
  intros p. induction s as [|c s IH]; simpl; intros H; [reflexivity|].
  destruct (is_space c); [|exact H].
  apply andb_true_iff in H as [_ H]. apply IH. exact H.
Qed.

Lemma rstrip_forall : forall p s, str_forallb p s = true -> str_forallb p (rstrip s) = true.
Proof.
  intros p. induction s as [|c s IH]; simpl; intros H; [reflexivity|].
  apply andb_true_iff in H as [Hc H]. specialize (IH H).
  destruct (rstrip s).
  - destruct (is_space c); simpl; [reflexivity | rewrite Hc; reflexivity].
  - change (str_forallb p (String c (String a s0)) = true).
    simpl in *. rewrite Hc. exact IH.
Qed.

Lemma replace_forall : forall p c s,
  str_forallb p s = true -> str_forallb p (replace_char c EmptyString s) = true.
Proof.
  intros p c. induction s as [|a s IH]; simpl; intros H; [reflexivity|].
  apply andb_true_iff in H as [Ha H].
  destruct (Ascii.eqb a c); simpl; [|rewrite Ha]; apply IH; exact H.
Qed.

Lemma read_sign_amount : forall t,
  str_forallb amount_char t = true -> Conv.read_sign t = (false, t).
Proof.
  intros [|c t] H; [reflexivity|].
  simpl in H. apply andb_true_iff in H as [Hc _].
  destruct c as [b0 b1 b2 b3 b4 b5 b6 b7].
  destruct b0, b1, b2, b3, b4, b5, b6, b7; try discriminate Hc; reflexivity.
Qed.

(** A text of digits, commas and dots is no word that [float] reads. *)
Lemma amount_not_word : forall t w c,
  str_forallb amount_char t = true -> amount_char c = false ->
  String.eqb (lower t) (String c w) = false.
Proof.
  intros [|a t] w c H Hc; [reflexivity|].
  simpl in H. apply andb_true_iff in H as [Ha _].
  cbn [lower str_map String.eqb].
  destruct (Ascii.eqb (lower_char a) c) eqn:E; [|reflexivity].
  apply Ascii.eqb_eq in E. subst c. exfalso.
  destruct a as [b0 b1 b2 b3 b4 b5 b6 b7].
  destruct b0, b1, b2, b3, b4, b5, b6, b7; try discriminate Ha; discriminate Hc.
Qed.

Lemma float_of_string_clear : forall s x,
  str_forallb amount_char s = true -> Conv.float_of_string s = Some x ->
  non_negative x = true.
Proof.
  intros s x H F. unfold Conv.float_of_string in F.
  assert (Hs : str_forallb amount_char (strip s) = true)
    by (apply rstrip_forall, lstrip_forall; exact H).
  rewrite (read_sign_amount _ Hs) in F.
  rewrite (amount_not_word _ "nf" "i" Hs eq_refl) in F.
  rewrite (amount_not_word _ "nfinity" "i" Hs eq_refl) in F.
  rewrite (amount_not_word _ "an" "n" Hs eq_refl) in F. cbn [orb] in F.
  destruct (Conv.read_number (strip s)) as [[n e]|]; [|discriminate F].
  injection F as <-. apply of_decimal_nonneg.
Qed.

Lemma normalize_clear : forall s u v,
  str_forallb amount_char s = true -> normalize_number (Some s) u = Some v ->
  non_negative v = true.
Proof.
  intros s u v H N. unfold normalize_number in N.
  destruct (Conv.float_of_string _) as [num|] eqn:F; [|discriminate N].
  assert (C : non_negative num = true).
  { apply (float_of_string_clear _ _ (replace_forall _ _ _ (replace_forall _ _ _ H)) F). }
  cbv zeta in N. unfold round3 in N.
  repeat match type of N with
         | (if ?b then _ else _) = _ => destruct b
         end;
    injection N as <-; apply round_nonneg;
    first [ exact C
          | eapply mul_nonneg; [vm_compute; reflexivity | exact C]
          | eapply div_nonneg; [vm_compute; reflexivity | exact C] ].
Qed.

Lemma normalize_opt_clear : forall g u v,
  (forall t, g = Some t -> str_forallb amount_char t = true) ->
  normalize_number g u = Some v -> non_negative v = true.
Proof.
  intros [t|] u v H N; [|discriminate N].
  apply (normalize_clear t u v (H t eq_refl) N).
Qed.

(** A group of a pattern whose group takes no [-] holds no [-]. *)
Lemma group_amount_char : forall r s m n,
  search true r s = Some m -> n <> 0%nat -> group_chars true amount_char n r = true ->
  forall t, group m n = Some t -> str_forallb amount_char t = true.
Proof.
  intros r s m n S Hn C t G. apply (search_group_chars true amount_char n r s m t S G Hn C).
Qed.

Lemma group_commas_amount_char : forall r s m n,
  search true r s = Some m -> n <> 0%nat -> group_chars true amount_char n r = true ->
  forall t, option_map (replace_char "," EmptyString) (group m n) = Some t ->
            str_forallb amount_char t = true.
Proof.
  intros r s m n S Hn C t G. destruct (group m n) as [g|] eqn:E; [|discriminate G].
  simpl in G. injection G as <-. apply replace_forall.
  apply (group_amount_char r s m n S Hn C g E).
Qed.

Ltac group_clear S H :=
  eapply normalize_opt_clear; [|exact H];
  first [ eapply group_amount_char; [exact S | discriminate | vm_compute; reflexivity]
        | eapply group_commas_amount_char; [exact S | discriminate | vm_compute; reflexivity] ].

Ltac searches H :=
  repeat match type of H with
         | context [match Re.search true ?r ?t with _ => _ end] =>
             let S := fresh "S" in
             destruct (Re.search true r t) eqn:S; [group_clear S H|]
         end.

Lemma parse_metric_clear : forall text keyword v,
  group_chars true amount_char 1 (Re.compile (metric_pattern keyword)) = true ->
  parse_metric text keyword = Some v -> non_negative v = true.
Proof.
  intros text keyword v C H. unfold parse_metric in H. cbv zeta in H.
  destruct (Re.search true _ _) eqn:S; [|discriminate H].
  apply (normalize_opt_clear _ _ _ (group_amount_char _ _ _ _ S (@Nat.neq_succ_0 _) C) H).
Qed.

Ltac metric_clear T :=
  unfold parse_consolidated_net_sales, parse_consolidated_operating_income,
    parse_marketplace_gov, parse_total_orders, parse_gaap_net_income in T;
  match type of T with
  | parse_metric ?t ?kw = Some ?v =>
      apply (parse_metric_clear t kw v); [vm_compute; reflexivity | exact T]
  end.

Lemma parse_adjusted_ebitda_clear : forall text v,
  parse_adjusted_ebitda text = Some v -> non_negative v = true.
Proof.
  intros text v H. unfold parse_adjusted_ebitda in H. cbv zeta in H.
  searches H. discriminate H.
Qed.

Lemma match_at_group_chars : forall ic p r c m n t,
  match_at ic r c = Some m -> n <> 0%nat -> group m n = Some t ->
  group_chars ic p n r = true -> str_forallb p t = true.
Proof.
  intros ic p r c m n t M Hn G C.
  destruct (match_at_lang ic _ _ _ M) as [_ [_ [_ Hg]]].
  destruct n as [|n]; [contradiction Hn; reflexivity|].
  simpl in G. destruct (find _ (m_groups m)) as [[k u]|] eqn:F; [|discriminate G].
  apply find_some in F as [Hin Hk]. simpl in Hk. apply Nat.eqb_eq in Hk. subst k.
  injection G as ->. apply (group_chars_glang ic p _ r t C (Hg _ _ Hin)).
Qed.

Lemma findall_from_match : forall ic fuel r c m,
  In m (findall_from ic fuel r c) -> match_at ic r (m_start m) = Some m.
Proof.
  intros ic. induction fuel as [|f IH]; intros r c m H; simpl in H; [contradiction|].
  destruct (search_cursor ic r c) as [m0|] eqn:S; [|contradiction].
  destruct H as [<-|H].
  - unfold search_cursor in S. apply (search_from_lang ic _ _ _ _ S).
  - destruct (pos (m_start m0) <? pos (m_end m0))%nat; [apply (IH _ _ _ H)|].
    destruct (advance (m_end m0)); [apply (IH _ _ _ H) | contradiction].
Qed.

Lemma revenue_first_value_clear : forall ms v,
  (forall m t, In m ms -> group m 2 = Some t -> str_forallb amount_char t = true) ->
  revenue_first_value ms = Some v -> non_negative v = true.
Proof.
  induction ms as [|m ms IH]; intros v H R; cbn [revenue_first_value] in R;
    [discriminate R|].
  destruct (normalize_number (Some (group_or_empty m 2)) _) as [val|] eqn:N.
  - injection R as <-.
    eapply normalize_clear; [|exact N].
    unfold group_or_empty. destruct (group m 2) as [t|] eqn:G; [|reflexivity].
    apply (H m t (or_introl eq_refl) G).
  - apply IH; [|exact R]. intros m' t Hin. apply H. right. exact Hin.
Qed.

Lemma parse_revenue_clear : forall text v,
  parse_revenue text = Some v -> non_negative v = true.
Proof.
  intros text v H. unfold parse_revenue in H. cbv zeta in H.
  destruct (revenue_first_value _) as [val|] eqn:R.
  - injection H as <-. eapply revenue_first_value_clear; [|exact R].
    intros m t Hin G. unfold findall in Hin. apply findall_from_match in Hin.
    apply (match_at_group_chars true amount_char _ _ m 2%nat t Hin);
      [discriminate | exact G | vm_compute; reflexivity].
  - unfold revenue_fallback in H. destruct (contains _ _); [|discriminate H].
    searches H. discriminate H.
Qed.

Lemma some_inj : forall (A : Type) (a b : A), Some a = Some b -> a = b.
Proof. intros A a b H. injection H as H. exact H. Qed.

Lemma for_sentences_some : forall body l v,
  for_sentences body l = Some v -> exists s, In s l /\ body s = Some (Some v).
Proof.
  induction l as [|s l IH]; intros v H; simpl in H; [discriminate H|].
  destruct (body s) as [ret|] eqn:B.
  - exists s. split; [left; reflexivity|]. rewrite B, H. reflexivity.
  - destruct (IH v H) as [s' [Hin Hs']]. exists s'. split; [right; exact Hin | exact Hs'].
Qed.

Ltac simple_clear f :=
  let H := fresh "H" in
  intros ? ? H; unfold f in H; cbv zeta in H; searches H; discriminate H.

Lemma parse_lumber_clear : forall text v,
  parse_lumber_segment_adjusted_ebitda text = Some v -> non_negative v = true.
Proof. simple_clear parse_lumber_segment_adjusted_ebitda. Qed.

Lemma parse_available_liquidity_clear : forall text v,
  parse_available_liquidity text = Some v -> non_negative v = true.
Proof.
  intros text v H. unfold parse_available_liquidity in H.
  destruct (parse_metric text "available liquidity") as [val|] eqn:P.
  - injection H as <-.
    apply (parse_metric_clear text "available liquidity" val);
      [vm_compute; reflexivity | exact P].
  - cbv zeta in H. searches H. discriminate H.
Qed.

Lemma parse_liquidity_clear : forall text v,
  parse_liquidity text = Some v -> non_negative v = true.
Proof. simple_clear parse_liquidity. Qed.

Lemma parse_net_cash_balance_clear : forall text v,
  parse_net_cash_balance text = Some v -> non_negative v = true.
Proof. simple_clear parse_net_cash_balance. Qed.

Lemma parse_credit_facility_clear : forall text v,
  parse_credit_facility text = Some v -> non_negative v = true.
Proof. simple_clear parse_credit_facility. Qed.

Lemma parse_share_clear : forall text v,
  parse_share_buybacks_and_dividends text = Some v -> non_negative v = true.
Proof. simple_clear parse_share_buybacks_and_dividends. Qed.

Lemma parse_total_net_sales_clear : forall text v,
  parse_total_net_sales text = Some v -> non_negative v = true.
Proof. simple_clear parse_total_net_sales. Qed.

Lemma parse_free_cash_flow_clear : forall text v,
  parse_free_cash_flow text = Some v -> non_negative v = true.
Proof. simple_clear parse_free_cash_flow. Qed.

Lemma parse_interest_expense_clear : forall text v,
  parse_interest_expense text = Some v -> non_negative v = true.
Proof. simple_clear parse_interest_expense. Qed.

Lemma parse_adjusted_net_income_clear : forall text v,
  parse_adjusted_net_income text = Some v -> non_negative v = true.
Proof. simple_clear parse_adjusted_net_income. Qed.

Lemma parse_total_available_liquidity_clear : forall text v,
  parse_total_available_liquidity text = Some v -> non_negative v = true.
Proof.
  intros text v H. unfold parse_total_available_liquidity in H. cbv zeta in H.
  searches H. apply (parse_available_liquidity_clear _ _ H).
Qed.

Lemma float_of_group_clear : forall r s m n x,
  search true r s = Some m -> n <> 0%nat -> group_chars true amount_char n r = true ->
  float_of_group (group m n) = Some x -> non_negative x = true.
Proof.
  intros r s m n x S Hn C F. unfold float_of_group in F.
  destruct (group m n) as [t|] eqn:G; [|discriminate F].
  apply (float_of_string_clear _ _ (replace_forall _ _ _ (group_amount_char r s m n S Hn C t G)) F).
Qed.

Lemma parse_combined_rate_clear : forall text v,
  parse_combined_rate_ar6 text = Some v -> non_negative v = true.
Proof.
  intros text v H. unfold parse_combined_rate_ar6 in H. cbv zeta in H.
  destruct (Re.search true _ _) eqn:S; [|discriminate H].
  eapply float_of_group_clear; [exact S | | | exact H];
    [discriminate | vm_compute; reflexivity].
Qed.

Lemma parse_net_revenue_margin_clear : forall text v,
  parse_net_revenue_margin text = Ok (Some v) -> non_negative v = true.
Proof.
  intros text v H. unfold parse_net_revenue_margin in H. cbv zeta in H.
  destruct (Re.search true _ _) eqn:S; [|discriminate H].
  destruct (float_of_group _) as [x|] eqn:F; [|discriminate H].
  injection H as <-.
  eapply float_of_group_clear; [exact S | | | exact F];
    [discriminate | vm_compute; reflexivity].
Qed.

Lemma parse_orders_clear : forall nlp text v,
  parse_orders nlp text = Some v -> non_negative v = true.
Proof.
  intros nlp text v H. unfold parse_orders in H. cbv zeta in H.
  apply for_sentences_some in H as [s [_ H]].
  destruct (contains _ _); [|discriminate H].
  destruct (Re.search true _ _) eqn:S; [|discriminate H].
  apply some_inj in H. group_clear S H.
Qed.

Lemma parse_cash_flow_clear : forall nlp text v,
  parse_cash_flow nlp text = Some v -> non_negative v = true.
Proof.
  intros nlp text v H. unfold parse_cash_flow in H. cbv zeta in H.
  apply for_sentences_some in H as [s [_ H]].
  destruct (contains "free cash flow" _); [discriminate H|].
  destruct (_ || _); [|discriminate H].
  destruct (Re.search true _ _) eqn:S; [|discriminate H].
  apply some_inj in H. group_clear S H.
Qed.

Lemma split_num_unit_clear : forall num_unit v,
  split_num_unit num_unit = Some (Some v) -> non_negative v = true.
Proof.
  intros num_unit v H. unfold split_num_unit in H. cbv zeta in H.
  destruct (Re.match_ false _ num_unit) as [nm|] eqn:M; [|discriminate H].
  destruct (group nm 1) as [n|] eqn:G; [|discriminate H].
  assert (D : str_forallb amount_char n = true).
  { unfold match_ in M.
    apply (match_at_group_chars false amount_char _ _ nm 1%nat n M);
      [discriminate | exact G | vm_compute; reflexivity]. }
  destruct n as [|c n]; [discriminate H|].
  apply some_inj in H. apply (normalize_clear _ _ _ D H).
Qed.

Lemma parse_gaap_operating_income_clear : forall text v,
  parse_gaap_operating_income text = Some v -> non_negative v = true.
Proof.
  intros text v H. unfold parse_gaap_operating_income in H. cbv zeta in H.
  assert (A : forall o : option rmatch,
            match o with
            | Some m =>
                match split_num_unit (or_empty (group m 1)) with
                | Some ret => ret
                | None => None
                end
            | None => None
            end = Some v -> non_negative v = true).
  { intros [m|] E; [|discriminate E].
    destruct (split_num_unit _) as [ret|] eqn:U; [|discriminate E].
    subst ret. apply (split_num_unit_clear _ _ U). }
  destruct (Re.search true (Re.compile gaap_operating_income_pattern) _) as [m|].
  - destruct (split_num_unit (or_empty (group m 1))) as [ret|] eqn:U.
    + subst ret. apply (split_num_unit_clear _ _ U).
    + apply (A _ H).
  - apply (A _ H).
Qed.

End SignFacts.

(** X10. The metrics whose patterns capture no sign are never negative:
    for each of the twenty-three keys of [unsigned_keys] (every metric
    but [net_income], [gaap_diluted_eps], [adjusted_eps] and
    [actual_eps]), a value the extraction reports under the key is the
    positive zero, a positive number or the positive infinity: it is
    at least zero, and neither the negative zero nor a NaN. *)
Theorem X10_unsigned_metrics_not_negative :
  forall (nlp : string -> list string) (text : string) (d : dict) (key : string) (x : float),
  extract_metrics nlp text = Ok d ->
  In key unsigned_keys ->
  dict_get key d = Some (VFloat x) ->
  non_negative x = true /\ (0 <=? x)%float = true.
Proof.
  intros nlp text d key x H Hin G.
  assert (C : non_negative x = true);
    [|split; [exact C | apply FloatFacts.nonneg_leb; exact C]].
  destruct (DictFacts.extract_metrics_lookup nlp text d H) as [nrm [eps [E1 [E2 L]]]].
  rewrite L in G. clear L H.
  destruct (dict_get key (add_narrative nlp text [])) as [w|] eqn:N.
  { destruct (DictFacts.narrative_values nlp _ _ _ N) as [l ->]. discriminate G. }
  assert (T : dict_get key (metric_table nlp text nrm eps) = Some (VFloat x)).
  { destruct (dict_get key (metric_table nlp text nrm eps)) as [[| |]|];
      try discriminate G; exact G. }
  clear G N. unfold unsigned_keys in Hin. cbn [In] in Hin.
  assert (O : forall o : option float, of_opt o = VFloat x -> o = Some x).
  { intros [y|] E; simpl in E; [injection E as ->; reflexivity | discriminate E]. }
  repeat (destruct Hin as [<-|Hin];
          [unfold metric_table in T; cbn [dict_get String.eqb Ascii.eqb Bool.eqb] in T;
           injection T as T; apply O in T|]); [..|contradiction].
  - apply (SignFacts.parse_revenue_clear _ _ T).
  - SignFacts.metric_clear T.
  - SignFacts.metric_clear T.
  - apply (SignFacts.parse_orders_clear _ _ _ T).
  - SignFacts.metric_clear T.
  - SignFacts.metric_clear T.
  - apply (SignFacts.parse_adjusted_ebitda_clear _ _ T).
  - apply (SignFacts.parse_lumber_clear _ _ T).
  - apply (SignFacts.parse_available_liquidity_clear _ _ T).
  - apply (SignFacts.parse_liquidity_clear _ _ T).
  - apply (SignFacts.parse_net_cash_balance_clear _ _ T).
  - apply (SignFacts.parse_credit_facility_clear _ _ T).
  - apply (SignFacts.parse_cash_flow_clear _ _ _ T).
  - subst nrm. apply (SignFacts.parse_net_revenue_margin_clear _ _ E1).
  - SignFacts.metric_clear T.
  - apply (SignFacts.parse_share_clear _ _ T).
  - apply (SignFacts.parse_combined_rate_clear _ _ T).
  - apply (SignFacts.parse_total_net_sales_clear _ _ T).
  - apply (SignFacts.parse_free_cash_flow_clear _ _ T).
  - apply (SignFacts.parse_interest_expense_clear _ _ T).
  - apply (SignFacts.parse_adjusted_net_income_clear _ _ T).
  - apply (SignFacts.parse_gaap_operating_income_clear _ _ T).
  - apply (SignFacts.parse_total_available_liquidity_clear _ _ T).
Qed.

Lemma X10_unsigned_metrics_witness :
  non_negative 45 = true /\ (0 <=? 45)%float = true.
Proof.
  apply (X10_unsigned_metrics_not_negative (fun t => [t])
           "adjusted ebitda of $45 million"
           (add_narrative (fun t => [t]) "adjusted ebitda of $45 million"
              [("adjusted_ebitda", VFloat 45)])
           "adjusted_ebitda" 45);
    [vm_compute; reflexivity | simpl; tauto | vm_compute; reflexivity].
Defined.

(** ** The keys of the result, in order *)

Module OrderFacts.
Import DictFacts.

Lemma dict_set_new : forall k v d,
  mem k (map fst d) = false -> dict_set k v d = (d ++ [(k, v)])%list.
Proof.
  intros k v. induction d as [|[k' v'] d IH]; intros H; simpl; [reflexivity|].
  unfold mem in H. simpl in H. apply orb_false_iff in H as [Hk Hd].
  rewrite String.eqb_sym, Hk, IH; [reflexivity | exact Hd].
Qed.

Lemma mem_app : forall k l1 l2, mem k (l1 ++ l2) = mem k l1 || mem k l2.
Proof. intros. unfold mem. apply existsb_app. Qed.

Lemma mem_false_subset : forall k (l l' : list string),
  (forall x, In x l -> In x l') -> mem k l' = false -> mem k l = false.
Proof.
  intros k l l' S H. unfold mem in *.
  destruct (existsb (String.eqb k) l) eqn:E; [|reflexivity].
  apply existsb_exists in E as [x [Hx Ex]].
  assert (X : existsb (String.eqb k) l' = true)
    by (apply existsb_exists; exists x; split; [apply S; exact Hx | exact Ex]).
  rewrite X in H. discriminate H.
Qed.

(** The keys that survive the pruning: those of the non-null entries,
    in the order of the table. *)
Lemma filter_keys : forall (p : pyval -> bool) (d : dict),
  distinct (map fst d) = true ->
  map fst (filter (fun kv => p (snd kv)) d)
  = filter (fun k => match dict_get k d with Some v => p v | None => false end)
           (map fst d).
Proof.
  intros p. induction d as [|[k v] d IH]; intros D; [reflexivity|].
  simpl in D. apply andb_true_iff in D as [Hk D].
  apply negb_true_iff in Hk.
  cbn [filter map fst snd dict_get]. rewrite String.eqb_refl.
  assert (E : filter (fun k0 => match (if String.eqb k k0 then Some v else dict_get k0 d) with
                               | Some v0 => p v0 | None => false end) (map fst d)
              = filter (fun k0 => match dict_get k0 d with
                               | Some v0 => p v0 | None => false end) (map fst d)).
  { apply filter_ext_in. intros x Hx.
    destruct (String.eqb k x) eqn:Ex; [|reflexivity].
    apply String.eqb_eq in Ex. subst x. exfalso.
    unfold mem in Hk. rewrite <- not_true_iff_false in Hk. apply Hk.
    apply existsb_exists. exists k. split; [exact Hx | apply String.eqb_refl]. }
  destruct (p v); cbn [map fst]; rewrite E, (IH D); reflexivity.
Qed.

Lemma mem_filter_app : forall (f : string -> bool) k l l',
  mem k (l ++ l') = false -> mem k (filter f l ++ l') = false.
Proof.
  intros f k l l' H. rewrite mem_app in *. apply orb_false_iff in H as [H1 H2].
  rewrite H2, orb_false_r. apply (mem_false_subset k (filter f l) l); [|exact H1].
  intros x Hx. apply filter_In in Hx as [Hx _]. exact Hx.
Qed.

Lemma distinct_filter_app : forall (f : string -> bool) l l',
  distinct (l ++ l') = true -> distinct (filter f l ++ l') = true.
Proof.
  intros f. induction l as [|x l IH]; intros l' D; [exact D|].
  simpl in D. apply andb_true_iff in D as [Hx D]. apply negb_true_iff in Hx.
  cbn [filter]. destruct (f x); [|apply IH; exact D].
  cbn [app distinct]. rewrite (mem_filter_app f x l l' Hx), (IH l' D). reflexivity.
Qed.

End OrderFacts.

(** X11. The keys of the result come in a fixed order and never twice:
    first the metric keys that have a value, in the order the source
    assigns them, then the eleven narrative keys in their order. *)
Theorem X11_result_key_order :
  forall (nlp : string -> list string) (text : string) (d : dict),
  extract_metrics nlp text = Ok d ->
  map fst d
  = (filter (fun k => is_some (dict_get k d)) metric_keys ++ narrative_keys)%list /\
  distinct (map fst d) = true.
Proof.
  intros nlp text d H.
  destruct (DictFacts.extract_metrics_lookup nlp text d H) as [nrm [eps [E1 [E2 L]]]].
  unfold extract_metrics in H.
  destruct (metric_results nlp text) as [raw|] eqn:R; [|discriminate H].
  destruct (DictFacts.metric_results_table _ _ _ R) as [nrm' [eps' [E1' [E2' ->]]]].
  rewrite E1 in E1'. rewrite E2 in E2'.
  apply DictFacts.Ok_inj in E1', E2'. subst nrm' eps'.
  cbn [bind] in H. apply DictFacts.Ok_inj in H.
  set (table := metric_table nlp text nrm eps) in *.
  assert (K : map fst table = metric_keys) by reflexivity.
  assert (P : map fst (remove_null_metrics table)
              = filter (fun k => is_some (dict_get k d)) metric_keys).
  { unfold remove_null_metrics.
    rewrite (OrderFacts.filter_keys (fun v => negb (is_none v)) table
               (DictFacts.metric_table_distinct nlp text nrm eps)).
    rewrite K. apply filter_ext_in. intros k Hk. rewrite L.
    assert (N : dict_get k (add_narrative nlp text []) = None).
    { unfold add_narrative. rewrite !DictFacts.dict_get_set.
      unfold metric_keys in Hk. cbn [In] in Hk.
      repeat (destruct Hk as [<-|Hk]; [reflexivity|]). contradiction. }
    rewrite N. fold table. destruct (dict_get k table) as [[| |]|]; reflexivity. }
  set (pruned := remove_null_metrics table) in *.
  assert (S : forall k, mem k metric_keys = false -> mem k (map fst pruned) = false).
  { intros k. apply OrderFacts.mem_false_subset. intros x Hx. rewrite P in Hx.
    apply filter_In in Hx as [Hx _]. exact Hx. }
  assert (A : map fst d = (map fst pruned ++ narrative_keys)%list).
  { subst d. unfold add_narrative. cbv zeta.
    rewrite (OrderFacts.dict_set_new _ _ pruned) by (rewrite S by reflexivity; reflexivity).
    repeat (rewrite (OrderFacts.dict_set_new _ _ (_ ++ _)%list)
              by (rewrite ?map_app, ?OrderFacts.mem_app, S by reflexivity; reflexivity)).
    rewrite !map_app, <- !app_assoc. reflexivity. }
  split; [rewrite A, P; reflexivity|].
  rewrite A, P. apply OrderFacts.distinct_filter_app. vm_compute. reflexivity.
Qed.

Lemma X11_result_key_order_witness :
  exists d,
    extract_metrics (fun t => [t])
      "total orders 5" = Ok d /\
    map fst d = ("orders" :: "total_orders" :: narrative_keys)%list.
Proof.
  eexists.
  match goal with |- ?A /\ _ => assert (H : A) by (vm_compute; reflexivity) end.
  split; [exact H|].
  rewrite (proj1 (X11_result_key_order _ _ _ H)). vm_compute. reflexivity.
Defined.

(** ** The matcher finds what the pattern accepts, and only that *)

Module AcceptFacts.
Import Re ReAccept ReFacts.

Section Complete.
Variable ic : bool.

Lemma or_else_l : forall x y, x <> None -> or_else x y <> None.
Proof. intros [o|] y H; [discriminate | contradiction H; reflexivity]. Qed.

Lemma or_else_r : forall x y, y <> None -> or_else x y <> None.
Proof. intros [o|] y H; [discriminate | exact H]. Qed.

Lemma complete_step : forall p,
  complete (fun c c' => exists a s, rest c = String a s /\ p a = true /\
                                    c' = Cursor (S (pos c)) (Some a) s) (step p).
Proof.
  intros p c c' g k [a [s [Hr [Hp ->]]]] K. unfold step. rewrite Hr, Hp. apply K.
Qed.

Lemma complete_rep_more : forall A body greedy k c',
  complete A body -> succeeds_at k c' ->
  forall fuel m c g, (m <= fuel)%nat -> rounds A true m c c' ->
  rep_more body greedy k fuel c g <> None.
Proof.
  intros A body greedy k c' Hb K.
  induction fuel as [|f IH]; intros m c g Hm R.
  - destruct m; [|lia]. simpl in R. subst c'. simpl. apply K.
  - rewrite rep_more_S. destruct m as [|m].
    + simpl in R. subst c'. destruct greedy; [apply or_else_r | apply or_else_l]; apply K.
    + simpl in R. destruct R as [c1 [Ha [Hs R]]].
      assert (X : body c g (fun c'0 g' =>
                    if (pos c <? pos c'0)%nat then rep_more body greedy k f c'0 g'
                    else None) <> None).
      { apply (Hb c c1); [exact Ha|]. intros g'.
        replace (pos c <? pos c1)%nat with true
          by (symmetry; apply Nat.ltb_lt; apply Hs; reflexivity).
        apply (IH m); [lia | exact R]. }
      destruct greedy; [apply or_else_l | apply or_else_r]; exact X.
Qed.

Lemma complete_rep_required : forall A body (after : cont) c',
  complete A body -> succeeds_at after c' ->
  forall n c g, rounds A false n c c' -> rep_required body after n c g <> None.
Proof.
  intros A body after c' Hb K. induction n as [|n IH]; intros c g R; simpl in *.
  - subst c'. apply K.
  - destruct R as [c1 [Ha [_ R]]]. apply (Hb c c1); [exact Ha|].
    intros g'. apply IH. exact R.
Qed.

Lemma run_complete : forall r, complete (accepts ic r) (run ic r).
Proof.
  induction r as [| x | | neg items | | | | a IHa b IHb | a IHa b IHb
                  | greedy lo hi a IHa | n a IHa]; intros c c' g k H K; simpl in H |- *.
  - subst c'. apply K.
  - apply (complete_step _ c c' g k H K).
  - apply (complete_step _ c c' g k H K).
  - apply (complete_step _ c c' g k H K).
  - destruct H as [Hp ->]. rewrite Hp. apply K.
  - destruct H as [He ->]. rewrite He. apply K.
  - destruct H as [Hx ->]. rewrite Hx. apply K.
  - destruct H as [c1 [Ha Hb]]. apply (IHa c c1); [exact Ha|].
    intros g'. apply (IHb c1 c'); assumption.
  - destruct H as [H|H]; [apply or_else_l, (IHa c c') | apply or_else_r, (IHb c c')];
      assumption.
  - destruct H as [c1 [m [Hreq [Hopt Hm]]]].
    apply (complete_rep_required (accepts ic a) (run ic a) _ c1 IHa); [|exact Hreq].
    intros g'. apply (complete_rep_more (accepts ic a) (run ic a) greedy k c' IHa K
                        _ m c1 g' Hm Hopt).
  - apply (IHa c c'); [exact H|]. intros g'. apply K.
Qed.

Lemma match_at_complete : forall r c c',
  accepts ic r c c' -> match_at ic r c <> None.
Proof.
  intros r c c' H. unfold match_at.
  pose proof (run_complete r c c' [] (fun c' g' => Some (c', g')) H) as R.
  destruct (run ic r c [] _) as [[c1 g1]|]; [discriminate|].
  exfalso. apply R; [|reflexivity]. intros g'. discriminate.
Qed.

Lemma search_from_complete : forall r pre suf c' fuel n p,
  (String.length pre <= fuel)%nat ->
  accepts ic r (seek n p pre suf) c' ->
  search_from ic fuel r (Cursor n p (pre ++ suf)) <> None.
Proof.
  intros r. induction pre as [|a pre IH]; intros suf c' fuel n p Hf H.
  - simpl in H. pose proof (match_at_complete _ _ _ H) as M. simpl append.
    destruct fuel; simpl; destruct (match_at ic r _); try discriminate; contradiction.
  - destruct fuel as [|f]; [simpl in Hf; lia|]. simpl.
    destruct (match_at ic r _); [discriminate|].
    apply (IH suf c' f); [simpl in Hf; lia | exact H].
Qed.

Lemma search_complete : forall r pre suf c',
  accepts ic r (seek 0 None pre suf) c' -> search ic r (pre ++ suf) <> None.
Proof.
  intros r pre suf c' H. unfold search, search_cursor, start_of. simpl rest.
  apply (search_from_complete r pre suf c'); [|exact H].
  rewrite length_append. lia.
Qed.

Lemma finds_step : forall p,
  finds (fun c c' => exists a s, rest c = String a s /\ p a = true /\
                                 c' = Cursor (S (pos c)) (Some a) s) (step p).
Proof.
  intros p c g k o H. unfold step in H.
  destruct (rest c) as [|a s] eqn:Hr; [discriminate H|].
  destruct (p a) eqn:Hp; [|discriminate H].
  exists (Cursor (S (pos c)) (Some a) s), g. split; [|exact H].
  exists a, s. auto.
Qed.

Lemma finds_rep_more : forall A body greedy k,
  finds A body ->
  forall fuel c g o, rep_more body greedy k fuel c g = Some o ->
  exists c' g' m, (m <= fuel)%nat /\ rounds A true m c c' /\ k c' g' = Some o.
Proof.
  intros A body greedy k Hb. induction fuel as [|f IH]; intros c g o H.
  - simpl in H. exists c, g, 0%nat. simpl. auto.
  - rewrite rep_more_S in H.
    assert (Stop : k c g = Some o ->
              exists c' g' m, (m <= S f)%nat /\ rounds A true m c c' /\ k c' g' = Some o).
    { intros Hk. exists c, g, 0%nat. simpl. split; [lia|]. auto. }
    assert (Again : body c g (fun c'0 g' =>
                      if (pos c <? pos c'0)%nat then rep_more body greedy k f c'0 g'
                      else None) = Some o ->
              exists c' g' m, (m <= S f)%nat /\ rounds A true m c c' /\ k c' g' = Some o).
    { intros Hb'. destruct (Hb _ _ _ _ Hb') as [c1 [g1 [Ha Hk]]].
      destruct (pos c <? pos c1)%nat eqn:Hlt; [|discriminate Hk].
      apply Nat.ltb_lt in Hlt.
      destruct (IH _ _ _ Hk) as [c' [g' [m [Hm [R Hk']]]]].
      exists c', g', (S m). split; [lia|]. split; [|exact Hk'].
      simpl. exists c1. auto. }
    destruct greedy.
    + destruct (body c g _) as [o1|] eqn:E; simpl in H; [apply Again; exact H | apply Stop; exact H].
    + destruct (k c g) as [o1|] eqn:E; simpl in H; [apply Stop; exact H | apply Again; exact H].
Qed.

Lemma finds_rep_required : forall A body (after : cont),
  finds A body ->
  forall n c g o, rep_required body after n c g = Some o ->
  exists c1 g1, rounds A false n c c1 /\ after c1 g1 = Some o.
Proof.
  intros A body after Hb. induction n as [|n IH]; intros c g o H; simpl in H.
  - exists c, g. simpl. auto.
  - destruct (Hb _ _ _ _ H) as [c1 [g1 [Ha Hk]]].
    destruct (IH _ _ _ Hk) as [c2 [g2 [R Hk2]]].
    exists c2, g2. split; [|exact Hk2]. simpl. exists c1.
    split; [exact Ha|]. split; [discriminate | exact R].
Qed.

Lemma run_finds : forall r, finds (accepts ic r) (run ic r).
Proof.
  induction r as [| x | | neg items | | | | a IHa b IHb | a IHa b IHb
                  | greedy lo hi a IHa | n a IHa]; intros c g k o H; simpl in H.
  - exists c, g. simpl. auto.
  - apply (finds_step _ _ _ _ _ H).
  - apply (finds_step _ _ _ _ _ H).
  - apply (finds_step _ _ _ _ _ H).
  - destruct (prev c) eqn:Hp; [discriminate H|]. exists c, g. simpl. auto.
  - destruct (at_end c) eqn:He; [|discriminate H]. exists c, g. simpl. auto.
  - destruct (xorb _ _) eqn:Hx; [|discriminate H]. exists c, g. simpl. auto.
  - destruct (IHa _ _ _ _ H) as [c1 [g1 [Ha Hk]]].
    destruct (IHb _ _ _ _ Hk) as [c2 [g2 [Hb Hk2]]].
    exists c2, g2. split; [|exact Hk2]. simpl. exists c1. auto.
  - destruct (run ic a c g k) as [o1|] eqn:E; simpl in H.
    + destruct (IHa _ _ _ _ E) as [c1 [g1 [Ha Hk]]]. exists c1, g1.
      split; [simpl; left; exact Ha | rewrite Hk; exact H].
    + destruct (IHb _ _ _ _ H) as [c1 [g1 [Hb Hk]]]. exists c1, g1.
      split; [simpl; right; exact Hb | exact Hk].
  - destruct (finds_rep_required (accepts ic a) (run ic a) _ IHa _ _ _ _ H)
      as [c1 [g1 [Hreq Hk]]].
    destruct (finds_rep_more (accepts ic a) (run ic a) greedy k IHa _ _ _ _ Hk)
      as [c' [g' [m [Hm [Hopt Hk']]]]].
    exists c', g'. split; [|exact Hk']. simpl. exists c1, m. auto.
  - destruct (IHa _ _ _ _ H) as [c1 [g1 [Ha Hk]]]. eexists _, _. split; [exact Ha | exact Hk].
Qed.

Lemma match_at_accepts : forall r c m,
  match_at ic r c = Some m -> exists c', accepts ic r c c'.
Proof.
  intros r c m H. unfold match_at in H.
  destruct (run ic r c [] _) as [[c1 g1]|] eqn:E; [|discriminate H].
  destruct (run_finds r _ _ _ _ E) as [c' [g' [Ha _]]]. exists c'. exact Ha.
Qed.

Lemma search_from_accepts : forall r fuel n p s m,
  search_from ic fuel r (Cursor n p s) = Some m ->
  exists pre suf c', s = (pre ++ suf)%string /\ accepts ic r (seek n p pre suf) c'.
Proof.
  intros r. induction fuel as [|f IH]; intros n p s m H; simpl in H.
  - destruct (match_at ic r _) as [m0|] eqn:E; [|discriminate H].
    destruct (match_at_accepts _ _ _ E) as [c' Ha].
    exists EmptyString, s, c'. auto.
  - destruct (match_at ic r _) as [m0|] eqn:E.
    + destruct (match_at_accepts _ _ _ E) as [c' Ha].
      exists EmptyString, s, c'. auto.
    + unfold advance in H. simpl in H. destruct s as [|a s]; [discriminate H|].
      destruct (IH _ _ _ _ H) as [pre [suf [c' [-> Ha]]]].
      exists (String a pre), suf, c'. auto.
Qed.

(** A search succeeds exactly when the pattern accepts somewhere in the
    subject. *)
Lemma search_iff : forall r s,
  search ic r s <> None <->
  exists pre suf c', s = (pre ++ suf)%string /\ accepts ic r (seek 0 None pre suf) c'.
Proof.
  intros r s. split.
  - intros H. destruct (search ic r s) as [m|] eqn:E; [|contradiction H; reflexivity].
    unfold search, search_cursor, start_of in E. apply (search_from_accepts _ _ _ _ _ _ E).
  - intros [pre [suf [c' [-> H]]]]. apply (search_complete r pre suf c' H).
Qed.

End Complete.
End AcceptFacts.

(** ** The classifiers that search for a pattern *)

Module ClassifierFacts.
Import Re ReAccept AcceptFacts.

Lemma last_char_cons : forall s a, exists b, last_char (String a s) = Some b.
Proof.
  induction s as [|c s IH]; intros a; [exists a; reflexivity|].
  destruct (IH c) as [b Hb]. exists b. exact Hb.
Qed.

Lemma seek_eq : forall pre n p suf,
  seek n p pre suf
  = Cursor (n + String.length pre)
           (match last_char pre with Some a => Some a | None => p end) suf.
Proof.
  induction pre as [|a pre IH]; intros n p suf; simpl.
  - f_equal. lia.
  - rewrite IH. f_equal; [lia|]. destruct pre as [|b pre]; [reflexivity|].
    destruct (last_char_cons pre b) as [x Hx].
    change (last_char (String a (String b pre))) with (last_char (String b pre)).
    rewrite Hx. reflexivity.
Qed.

Lemma seek_start : forall pre suf,
  seek 0 None pre suf = Cursor (String.length pre) (last_char pre) suf.
Proof. intros. rewrite seek_eq. simpl. destruct (last_char pre); reflexivity. Qed.

Lemma lower_letter_word : forall a, is_lower (lower_char a) = true -> is_word a = true.
Proof.
  intros [b0 b1 b2 b3 b4 b5 b6 b7] H.
  destruct b0, b1, b2, b3, b4, b5, b6, b7; try discriminate H; reflexivity.
Qed.

Lemma joint_set : forall a,
  set_matches true false [CChar "-"; CSpace] a = true <-> a = "-"%char \/ is_space a = true.
Proof.
  intros [b0 b1 b2 b3 b4 b5 b6 b7].
  destruct b0, b1, b2, b3, b4, b5, b6, b7; vm_compute;
    (split; [intros H; try discriminate H; auto | intros [H|H]; try discriminate H; auto]).
Qed.

Lemma found_iff : forall pat s,
  found pat s = true <->
  exists pre suf c', s = (pre ++ suf)%string /\
                     accepts true (Re.compile pat) (seek 0 None pre suf) c'.
Proof.
  intros pat s. rewrite <- search_iff. unfold found.
  destruct (Re.search true (Re.compile pat) s); simpl; split; intros H;
    try reflexivity; try discriminate; contradiction H; reflexivity.
Qed.

Lemma word_start_before : forall pre,
  word_start pre = true ->
  match last_char pre with Some a => is_word a | None => false end = false.
Proof.
  intros pre H. unfold word_start in H. destruct (last_char pre); [|reflexivity].
  apply negb_true_iff in H. exact H.
Qed.

Lemma word_end_after : forall post,
  word_end post = true ->
  match post with String a _ => is_word a | EmptyString => false end = false.
Proof.
  intros post H. unfold word_end in H. destruct post; [reflexivity|].
  apply negb_true_iff in H. exact H.
Qed.

End ClassifierFacts.

Module WordFacts.
Import Re ReAccept AcceptFacts ClassifierFacts.

Ltac invert_accepts :=
  repeat match goal with
         | H : exists _, _ |- _ => destruct H
         | H : _ /\ _ |- _ => destruct H
         | H : _ \/ _ |- _ => destruct H
         | H : rest (Cursor _ _ _) = _ |- _ => cbn [rest] in H
         | H : ?s = String _ _ |- _ => is_var s; subst s
         | H : ?c = Cursor _ _ _ |- _ => is_var c; subst c
         | H : ?c = ?d |- _ => is_var c; is_var d; subst c
         | H : char_matches true _ _ = true |- _ =>
             unfold char_matches in H; apply Ascii.eqb_eq in H;
             match type of H with
             | _ = lower_char ?x =>
                 let y := eval vm_compute in (lower_char x) in
                 change (lower_char x) with y in H
             end
         end.

Ltac word_facts :=
  repeat match goal with
         | H : lower_char ?a = _ |- _ =>
             lazymatch goal with
             | W : is_word a = true |- _ => fail
             | _ => assert (is_word a = true)
                      by (apply lower_letter_word; rewrite H; reflexivity)
             end
         end.

Ltac split_tail t :=
  lazymatch t with
  | String ?a ?t' =>
      let r := split_tail t' in
      lazymatch r with (?w, ?p) => constr:((String a w, p)) end
  | ?p => constr:((EmptyString, p))
  end.

Ltac lower_known :=
  cbn [lower str_map];
  repeat match goal with
         | H : lower_char ?a = _ |- context [lower_char ?a] => rewrite H
         end.

Ltac whole_word :=
  unfold word_before, word_after in *; cbn [prev rest] in *;
  repeat match goal with
         | W : is_word ?a = true, H : context [is_word ?a] |- _ =>
             rewrite W in H; cbn [xorb] in H
         end;
  lazymatch goal with
  | |- has_whole_word _ (?pre ++ ?suf) =>
      let r := split_tail suf in
      lazymatch r with
      | (?w, ?p) =>
          exists pre, w, p; split; [reflexivity|]; split; [lower_known; simpl; tauto|];
          split;
          [ unfold word_start; destruct (last_char pre) as [b|]; [|reflexivity];
            destruct (is_word b); [discriminate | reflexivity]
          | unfold word_end; destruct p as [|b p']; [reflexivity|];
            destruct (is_word b); [discriminate | reflexivity] ]
      end
  end.

(** The letters of a word whose lower-case form is known. *)
Ltac letters H :=
  unfold lower in H;
  repeat match type of H with
         | str_map lower_char ?w = _ =>
             destruct w as [|? w]; cbn [str_map] in H;
             [try discriminate H|
              let L := fresh "L" in
              first [ injection H as L H | discriminate H ]]
         end.

Ltac accept_char :=
  match goal with
  | H : lower_char ?a = _ |- char_matches true _ ?a = true =>
      unfold char_matches; rewrite H; reflexivity
  end.

Ltac accept_boundary B1 B2 :=
  unfold word_before, word_after; cbn [prev rest];
  rewrite ?B1, ?B2;
  repeat match goal with
         | W : is_word ?a = true |- context [is_word ?a] => rewrite W
         end;
  reflexivity.

Ltac build B1 B2 :=
  cbn [accepts rounds rest pos prev];
  lazymatch goal with
  | |- exists _, _ => eexists; build B1 B2
  | |- _ /\ _ => split; [build B1 B2 | build B1 B2]
  | |- _ \/ _ => (left; build B1 B2) + (right; build B1 B2)
  | |- char_matches true _ _ = true => accept_char
  | |- xorb _ _ = true => accept_boundary B1 B2
  | |- _ = _ => reflexivity
  end.

Ltac complete_word :=
  lazymatch goal with
  | Hs : word_start ?pre = true, He : word_end ?post = true
    |- exists p s c', (?pre ++ ?w ++ ?post)%string = (p ++ s)%string /\ _ =>
      let B1 := fresh "B" in let B2 := fresh "B" in
      pose proof (word_start_before pre Hs) as B1;
      pose proof (word_end_after post He) as B2;
      exists pre, (w ++ post)%string; eexists; split; [reflexivity|];
      rewrite seek_start; cbn [append]; word_facts; build B1 B2
  end.

Lemma raising_iff : forall s,
  found raising_pattern s = true <-> has_whole_word ["raise"; "raised"; "raising"] s.
Proof.
  intros s. rewrite found_iff.
  remember (Re.compile raising_pattern) as r eqn:E. vm_compute in E. subst r.
  split.
  - intros [pre [suf [c' [-> H]]]]. rewrite seek_start in H.
    cbn [accepts] in H. invert_accepts; word_facts; whole_word.
  - intros [pre [w [post [-> [F [Hs He]]]]]]. cbn [In] in F.
    repeat (destruct F as [F|F]; [symmetry in F; letters F; complete_word|]).
    contradiction.
Qed.

Lemma refinance_iff : forall s,
  found refinance_pattern s = true <-> has_whole_word ["refinance"; "refinanced"] s.
Proof.
  intros s. rewrite found_iff.
  remember (Re.compile refinance_pattern) as r eqn:E. vm_compute in E. subst r.
  split.
  - intros [pre [suf [c' [-> H]]]]. rewrite seek_start in H.
    cbn [accepts] in H. invert_accepts; word_facts; whole_word.
  - intros [pre [w [post [-> [F [Hs He]]]]]]. cbn [In] in F.
    repeat (destruct F as [F|F]; [symmetry in F; letters F; complete_word|]).
    contradiction.
Qed.

Lemma challenge_iff : forall s,
  found challenge_pattern s = true <->
  has_whole_word ["challenge"; "challenged"; "challenging"; "challenges"] s.
Proof.
  intros s. rewrite found_iff.
  remember (Re.compile challenge_pattern) as r eqn:E. vm_compute in E. subst r.
  split.
  - intros [pre [suf [c' [-> H]]]]. rewrite seek_start in H.
    cbn [accepts] in H. invert_accepts; word_facts; whole_word.
  - intros [pre [w [post [-> [F [Hs He]]]]]]. cbn [In] in F.
    repeat (destruct F as [F|F]; [symmetry in F; letters F; complete_word|]).
    contradiction.
Qed.

Ltac joints :=
  repeat match goal with
         | H : rounds _ true ?m _ _, B : (?m <= _)%nat |- _ =>
             cbn [rep_fuel] in B;
             destruct m as [|[|m]]; [| |exfalso; simpl in B; lia];
             cbn [rounds accepts] in H; clear B
         | H : rounds _ false 0 _ _ |- _ => cbn [rounds] in H
         end.

Lemma joint_accepts : forall j n p s,
  is_joint j ->
  exists m, (m <= 1)%nat /\
    rounds (accepts true (RSet false [CChar "-"; CSpace])) true m
      (Cursor n p (j ++ s)) (seek n p j s).
Proof.
  intros j n p s [->|[->|[a [-> Ha]]]].
  - exists 0%nat. split; [lia | reflexivity].
  - exists 1%nat. split; [lia|]. simpl. eexists. split.
    + exists "-"%char, s. split; [reflexivity|]. split; reflexivity.
    + split; [intros _; simpl; lia | reflexivity].
  - exists 1%nat. split; [lia|]. simpl. eexists. split.
    + exists a, s. split; [reflexivity|]. split; [|reflexivity].
      apply joint_set. right. exact Ha.
    + split; [intros _; simpl; lia | reflexivity].
Qed.

Ltac take4 t :=
  lazymatch t with
  | String ?a (String ?b (String ?c (String ?d ?r))) =>
      constr:((String a (String b (String c (String d EmptyString))), r))
  end.

Ltac take_joint t :=
  lazymatch t with
  | String ?a ?r =>
      lazymatch goal with
      | H : set_matches true false _ a = true |- _ => constr:((String a EmptyString, r))
      | _ => constr:((EmptyString, t))
      end
  | _ => constr:((EmptyString, t))
  end.

Ltac joint_ok :=
  lazymatch goal with
  | |- is_joint EmptyString => left; reflexivity
  | H : set_matches true false _ ?a = true |- is_joint (String ?a EmptyString) =>
      destruct (proj1 (joint_set a) H) as [->|?];
      [right; left; reflexivity | right; right; exists a; auto]
  end.

Lemma accepts_char_seq : forall x b n p a s c',
  lower_char a = lower_char x ->
  accepts true b (Cursor (S n) (Some a) s) c' ->
  accepts true (RSeq (RChar x) b) (Cursor n p (String a s)) c'.
Proof.
  intros x b n p a s c' L H. simpl. eexists. split; [|exact H].
  exists a, s. split; [reflexivity|]. split; [|reflexivity].
  unfold char_matches. rewrite L. apply Ascii.eqb_refl.
Qed.

Lemma accepts_joint_seq : forall b n p j s c',
  is_joint j ->
  accepts true b (seek n p j s) c' ->
  accepts true (RSeq (RRep true 0 (Some 1) (RSet false [CChar "-"; CSpace])) b)
    (Cursor n p (j ++ s)) c'.
Proof.
  intros b n p j s c' J H. destruct (joint_accepts j n p s J) as [m [Hm R]].
  cbn [accepts]. eexists. split; [|exact H].
  eexists _, m. split; [reflexivity|]. split; [exact R | exact Hm].
Qed.

Lemma year_over_year_iff : forall s,
  found year_over_year_pattern s = true <-> has_year_over_year s.
Proof.
  intros s. rewrite found_iff.
  remember (Re.compile year_over_year_pattern) as r eqn:E. vm_compute in E. subst r.
  split.
  - intros [pre [suf [c' [-> H]]]]. rewrite seek_start in H.
    cbn [accepts] in H. invert_accepts. do 3 (joints; invert_accepts).
    all: cbn [rest pos prev] in *.
    all: lazymatch goal with
         | |- has_year_over_year (?pre ++ ?suf) =>
             let r1 := take4 suf in
             lazymatch r1 with
             | (?y1, ?t1) =>
                 let r2 := take_joint t1 in
                 lazymatch r2 with
                 | (?j1, ?t2) =>
                     let r3 := take4 t2 in
                     lazymatch r3 with
                     | (?o, ?t3) =>
                         let r4 := take_joint t3 in
                         lazymatch r4 with
                         | (?j2, ?t4) =>
                             let r5 := take4 t4 in
                             lazymatch r5 with
                             | (?y2, ?post) =>
                                 exists pre, y1, j1, o, j2, y2, post;
                                 split; [reflexivity|];
                                 split; [lower_known; reflexivity|];
                                 split; [joint_ok|];
                                 split; [lower_known; reflexivity|];
                                 split; [joint_ok|]; lower_known; reflexivity
                             end
                         end
                     end
                 end
             end
         end.
  - intros [pre [y1 [j1 [o [j2 [y2 [post [-> [Y1 [J1 [O [J2 Y2]]]]]]]]]]]].
    letters Y1. letters O. letters Y2.
    eexists pre, _, _. split; [reflexivity|]. rewrite seek_start. cbn [append].
    do 4 (apply accepts_char_seq; [assumption|]).
    apply accepts_joint_seq; [exact J1|]. rewrite seek_eq. cbn [append].
    do 4 (apply accepts_char_seq; [assumption|]).
    apply accepts_joint_seq; [exact J2|]. rewrite seek_eq. cbn [append].
    do 3 (apply accepts_char_seq; [assumption|]).
    cbn [accepts rest pos]. eexists _, _. split; [reflexivity|].
    split; [|reflexivity]. unfold char_matches.
    match goal with H : lower_char ?a = _ |- context [lower_char ?a] => rewrite H end.
    reflexivity.
Qed.

End WordFacts.

(** X12. The four classifiers that search for a pattern, exactly: a
    sentence of the segmentation is listed under
    [year_over_year_mentions] exactly when it has "year", "over",
    "year" in a row, in any letter case, each two joined by nothing, a
    hyphen or one whitespace character; under [raising_mentions],
    [refinance_mentions] and [challenge_mentions] exactly when one of
    raise, raised, raising (refinance, refinanced; challenge,
    challenged, challenging, challenges) stands in it as a whole word,
    in any letter case. The listed sentences are trimmed and keep the
    order of the segmentation. *)
Theorem X12_pattern_classifiers_exact :
  forall (nlp : string -> list string) (text : string),
  (exists keep : string -> bool,
     (forall s, keep s = true <-> has_year_over_year s) /\
     extract_year_over_year_sentences nlp text
     = map strip (filter keep (nlp (clean_text text)))) /\
  (exists keep : string -> bool,
     (forall s, keep s = true <-> has_whole_word ["raise"; "raised"; "raising"] s) /\
     extract_raising_sentences nlp text
     = map strip (filter keep (nlp (clean_text text)))) /\
  (exists keep : string -> bool,
     (forall s, keep s = true <-> has_whole_word ["refinance"; "refinanced"] s) /\
     extract_refinance_sentences nlp text
     = map strip (filter keep (nlp (clean_text text)))) /\
  (exists keep : string -> bool,
     (forall s, keep s = true <->
        has_whole_word ["challenge"; "challenged"; "challenging"; "challenges"] s) /\
     extract_challenge_sentences nlp text
     = map strip (filter keep (nlp (clean_text text)))).
Proof.
  intros nlp text. split; [|split; [|split]].
  - exists (found year_over_year_pattern).
    split; [apply WordFacts.year_over_year_iff | reflexivity].
  - exists (found raising_pattern). split; [apply WordFacts.raising_iff | reflexivity].
  - exists (found refinance_pattern). split; [apply WordFacts.refinance_iff | reflexivity].
  - exists (found challenge_pattern). split; [apply WordFacts.challenge_iff | reflexivity].
Qed.

(** ** The margin matcher nothing calls *)

Module MarginFacts.
Import Re AnalysisFacts.

Lemma prefix_fits : forall kw t, String.prefix kw t = true -> (String.length kw <= String.length t)%nat.
Proof.
  induction kw as [|k kw IH]; intros t H; simpl; [lia|].
  destruct t as [|c t]; simpl in H; [discriminate H|].
  destruct (ascii_dec k c); [|discriminate H]. specialize (IH t H). simpl. lia.
Qed.

Lemma prefix_long : forall kw t x,
  (String.length kw <= String.length t)%nat ->
  String.prefix kw (t ++ x) = String.prefix kw t.
Proof.
  induction kw as [|k kw IH]; intros t x H; [rewrite !prefix_nil; reflexivity|].
  destruct t as [|c t]; simpl in H; [lia|]. simpl.
  destruct (ascii_dec k c); [|reflexivity]. apply IH. lia.
Qed.

Lemma str_find_fits : forall kw t i0 i,
  str_find kw t i0 = Some i ->
  (String.length kw <= String.length t /\ i0 <= i /\ i - i0 + String.length kw <= String.length t)%nat.
Proof.
  intros kw. induction t as [|c t IH]; intros i0 i H; cbn [str_find] in H.
  - destruct (String.prefix kw EmptyString) eqn:P; [|discriminate H].
    injection H as <-. apply prefix_fits in P. lia.
  - destruct (String.prefix kw (String c t)) eqn:P.
    + injection H as <-. apply prefix_fits in P. lia.
    + destruct (IH _ _ H) as [H1 [H2 H3]]. simpl. lia.
Qed.

Lemma str_find_app : forall kw x t i0 i,
  str_find kw t i0 = Some i -> str_find kw (t ++ x) i0 = Some i.
Proof.
  intros kw x. induction t as [|c t IH]; intros i0 i H.
  - destruct (str_find_fits _ _ _ _ H) as [F _].
    cbn [str_find] in H. destruct (String.prefix kw EmptyString) eqn:P; [|discriminate H].
    destruct kw; [|discriminate P]. cbn [append]. destruct x; cbn [str_find]; rewrite prefix_nil in *; exact H.
  - destruct (str_find_fits _ _ _ _ H) as [F _].
    cbn [str_find append] in H |- *. change (String c (t ++ x)) with (String c t ++ x)%string.
    rewrite (prefix_long kw (String c t) x F).
    destruct (String.prefix kw (String c t)); [exact H|]. apply IH. exact H.
Qed.

Lemma drop_app : forall i t x,
  (i <= String.length t)%nat -> drop i (t ++ x) = (drop i t ++ x)%string.
Proof.
  induction i as [|i IH]; intros t x H; [destruct t; reflexivity|].
  destruct t as [|c t]; simpl in H; [lia|]. simpl. apply IH. lia.
Qed.

Lemma drop_length : forall i t, String.length (drop i t) = (String.length t - i)%nat.
Proof.
  induction i as [|i IH]; intros t; [destruct t; simpl; lia|].
  destruct t as [|c t]; [reflexivity|]. simpl. apply IH.
Qed.

Lemma take_long : forall n u x,
  (n <= String.length u)%nat -> take n (u ++ x) = take n u.
Proof.
  induction n as [|n IH]; intros u x H; [reflexivity|].
  destruct u as [|c u]; simpl in H; [lia|]. simpl. rewrite IH; [reflexivity | lia].
Qed.

Lemma str_find_contains : forall kw t i0 i,
  str_find kw t i0 = Some i -> contains kw t = true.
Proof.
  intros kw. induction t as [|c t IH]; intros i0 i H; cbn [str_find contains] in *.
  - destruct (String.prefix kw EmptyString); [reflexivity | discriminate H].
  - destruct (String.prefix kw (String c t)); [reflexivity|]. apply (IH _ _ H).
Qed.

End MarginFacts.

(** X13. [parse_net_income_margin] looks at two hundred characters and
    no more: once the cleaned, lower-cased text has the keyword "net
    income margin", what stands more than two hundred characters after
    the start of its first occurrence cannot change the result. A value
    is only reported when the keyword is there, and it is never
    negative nor a NaN. *)
Theorem X13_net_income_margin_window :
  (forall (t x : string) (i : nat),
     str_find "net income margin" t 0 = Some i ->
     (i + 200 <= String.length t)%nat ->
     net_income_margin_in (t ++ x) = net_income_margin_in t) /\
  (forall (text : string) (v : float),
     parse_net_income_margin text = Some v ->
     contains "net income margin" (lower (clean_text text)) = true /\
     non_negative v = true).
Proof.
  split.
  - intros t x i F L. unfold net_income_margin_in.
    rewrite (MarginFacts.str_find_app _ x _ _ _ F), F.
    rewrite MarginFacts.drop_app by lia.
    rewrite MarginFacts.take_long; [reflexivity|].
    rewrite MarginFacts.drop_length. lia.
  - intros text v H. unfold parse_net_income_margin, net_income_margin_in in H.
    destruct (str_find _ _ 0) as [i|] eqn:F; [|discriminate H].
    split; [apply (MarginFacts.str_find_contains _ _ _ _ F)|].
    cbv zeta in H. destruct (Re.search false _ _) as [m|] eqn:S; [|discriminate H].
    unfold float_of_group in H. destruct (Re.group m 1) as [g|] eqn:G; [|discriminate H].
    apply (SignFacts.float_of_string_clear _ _) in H; [exact H|].
    apply SignFacts.replace_forall.
    apply (AnalysisFacts.search_group_chars false amount_char 1 _ _ m g S G);
      [discriminate | vm_compute; reflexivity].
Qed.


(** ** Document identity: what always holds *)

Module IdentityFacts.
Import Re ReLang ReLangFacts LitFacts.

Lemma split_char_aux_cons : forall sep s cur,
  exists h tl, split_char_aux sep cur s = h :: tl.
Proof.
  intros sep. induction s as [|c s IH]; intros cur; simpl.
  - eexists _, _. reflexivity.
  - destruct (Ascii.eqb c sep); [eexists _, _; reflexivity | apply IH].
Qed.

Lemma file_year_shape : forall year m,
  Re.match_ false (Re.compile filename_year_pattern) year = Some m ->
  exists w tail, year = (w ++ tail)%string /\ digits_between 4 4 w = true.
Proof.
  intros year m H. unfold match_ in H.
  destruct (match_at_lang false _ _ _ H) as [_ [Hr [Hl _]]].
  simpl rest in Hr. exists (between (start_of year) (m_end m)), (rest (m_end m)).
  split; [exact Hr|].
  remember (Re.compile filename_year_pattern) as r eqn:E. vm_compute in E. subst r.
  apply rep_set_lang in Hl as [[H1 H2] Hp].
  unfold digits_between. rewrite (forallb_str_ext _ _ _ SpokenFacts.set_digit) in Hp.
  rewrite Hp. apply Nat.leb_le in H1, H2. simpl in H2. rewrite H1, H2. reflexivity.
Qed.

Lemma py_not_false : forall x,
  py_not x = false -> exists t, x = Some t /\ t <> EmptyString.
Proof.
  intros [[|c t]|] H; try discriminate H.
  eexists. split; [reflexivity | discriminate].
Qed.

Lemma rev_string_empty : forall s acc,
  rev_string acc s = EmptyString <-> acc = EmptyString /\ s = EmptyString.
Proof.
  induction s as [|c s IH]; intros acc; simpl.
  - tauto.
  - rewrite IH. split; [intros [H _]; discriminate H | intros [_ H]; discriminate H].
Qed.

(** The first part of a split is empty exactly when the text is empty
    or starts with the separator. *)
Lemma split_char_aux_head : forall sep s cur h tl,
  split_char_aux sep cur s = h :: tl ->
  (h = EmptyString <->
   cur = EmptyString /\ (s = EmptyString \/ exists r, s = String sep r)).
Proof.
  intros sep. induction s as [|c s IH]; intros cur h tl H; simpl in H.
  - injection H as <- _. rewrite (rev_string_empty cur EmptyString). intuition.
  - destruct (Ascii.eqb c sep) eqn:E.
    + apply Ascii.eqb_eq in E. subst c. injection H as <- _.
      rewrite (rev_string_empty cur EmptyString).
      split; [intros [_ ->]; split; [reflexivity | right; eexists; reflexivity] | tauto].
    + rewrite (IH _ _ _ H). split; [intros [C _]; discriminate C|].
      intros [_ [C|[r C]]]; [discriminate C|].
      injection C as -> _. rewrite Ascii.eqb_refl in E. discriminate E.
Qed.

Lemma upper_empty : forall s, upper s = EmptyString <-> s = EmptyString.
Proof. intros [|c s]; simpl; split; intros H; try reflexivity; discriminate H. Qed.

End IdentityFacts.

(** X14. Whatever the text and the file name, the ticker of the
    identity a record carries is never unset, but it is the empty
    string exactly when the header does not give the four fields and
    the file name, without its suffix, is empty or starts with an
    underscore; the identity has a year exactly when it has an
    earnings date; and its year, when there is one, starts with four
    digits. *)
Theorem X14_identity_invariants :
  forall (text file_name : string) ticker quarter year earnings_date,
  resolve_identity text file_name = (ticker, quarter, year, earnings_date) ->
  (exists t, ticker = Some t /\
     (t = EmptyString <->
      header_complete text = false /\
      (stem file_name = EmptyString \/ exists r, stem file_name = String "_" r))) /\
  (year = None <-> earnings_date = None) /\
  (forall y, year = Some y ->
     exists w tail, y = (w ++ tail)%string /\ digits_between 4 4 w = true).
Proof.
  intros text file_name ticker quarter year earnings_date H.
  unfold resolve_identity in H. unfold header_complete.
  destruct (extract_ticker_quarter_year_date text) as [[[t q] y] d] eqn:E.
  destruct (py_not t || py_not q || py_not y || py_not d) eqn:P.
  - unfold extract_from_filename in H. cbv zeta in H.
    destruct (IdentityFacts.split_char_aux_cons "_" (stem file_name) EmptyString)
      as [h [tl S]].
    unfold split_char in H. rewrite S in H.
    assert (T : upper h = EmptyString <->
                negb true = false /\
                (stem file_name = EmptyString \/ exists r, stem file_name = String "_" r)).
    { rewrite IdentityFacts.upper_empty, (IdentityFacts.split_char_aux_head _ _ _ _ _ S).
      simpl. tauto. }
    destruct ((4 <=? List.length (h :: tl))%nat &&
              is_some (Re.match_ false (Re.compile filename_year_pattern)
                         (last (h :: tl) EmptyString))) eqn:C.
    + assert (A1 := f_equal (fun x => fst (fst (fst x))) H).
      assert (A3 := f_equal (fun x => snd (fst x)) H).
      assert (A4 := f_equal snd H). cbn [fst snd] in A1, A3, A4. clear H.
      subst ticker year earnings_date.
      split; [eexists; split; [reflexivity | exact T]|]. split; [split; discriminate|].
      intros y0 Hy. apply SignFacts.some_inj in Hy. subst y0.
      apply andb_true_iff in C as [_ C].
      destruct (Re.match_ false _ _) as [m|] eqn:M; [|discriminate C].
      apply (IdentityFacts.file_year_shape _ _ M).
    + assert (A1 := f_equal (fun x => fst (fst (fst x))) H).
      assert (A3 := f_equal (fun x => snd (fst x)) H).
      assert (A4 := f_equal snd H). cbn [fst snd] in A1, A3, A4. clear H.
      subst ticker year earnings_date.
      split; [eexists; split; [reflexivity | exact T]|].
      split; [split; reflexivity|]. discriminate.
  - apply orb_false_iff in P as [P Pd]. apply orb_false_iff in P as [P Py].
    apply orb_false_iff in P as [Pt Pq].
    assert (A1 := f_equal (fun x => fst (fst (fst x))) H).
    assert (A3 := f_equal (fun x => snd (fst x)) H).
    assert (A4 := f_equal snd H). cbn [fst snd] in A1, A3, A4. clear H.
    subst ticker year earnings_date.
    destruct (IdentityFacts.py_not_false _ Pt) as [t0 [-> Ht]].
    destruct (IdentityFacts.py_not_false _ Py) as [y0 [-> _]].
    destruct (IdentityFacts.py_not_false _ Pd) as [d0 [-> _]].
    split.
    { exists t0. split; [reflexivity|]. simpl.
      split; [intros C; contradiction (Ht C) | intros [C _]; discriminate C]. }
    split; [split; discriminate|].
    intros y1 Hy. injection Hy as <-.
    exists y0, EmptyString. rewrite ReLangFacts.append_nil_r. split; [reflexivity|].
    unfold extract_ticker_quarter_year_date in E.
    set (first_lines := join _ _) in E. clearbody first_lines. cbv zeta in E.
    assert (A := f_equal (fun x => snd (fst x)) E). cbn [fst snd] in A.
    destruct (Re.search false (Re.compile quarter_year_pattern) first_lines) as [m|] eqn:S;
      [|discriminate A].
    apply (HeaderFacts.year_shape _ _ _ S A).
Qed.

Lemma X14_identity_invariants_witness :
  (exists t, Some EmptyString = Some t /\
     (t = EmptyString <->
      header_complete "Operator: good morning." = false /\
      (stem "_q1.txt" = EmptyString \/ exists r, stem "_q1.txt" = String "_" r))) /\
  (@None string = None <-> @None string = None) /\
  (forall y, None = Some y ->
     exists w tail, y = (w ++ tail)%string /\ digits_between 4 4 w = true).
Proof.
  apply (X14_identity_invariants "Operator: good morning." "_q1.txt"
           (Some EmptyString) (Some "q1") None None).
  vm_compute. reflexivity.
Defined.

(** ** The minus sign of an EPS literal *)

Module MarkerFacts.
Import Re ReAccept AcceptFacts ClassifierFacts WordFacts.

(** The marker search of the two signed matchers finds a match exactly
    when loss, negative or deficit stands in the text as a whole word,
    in any letter case. *)
Lemma loss_marker_iff : forall t,
  has_loss_marker t = true <-> has_whole_word ["loss"; "negative"; "deficit"] t.
Proof.
  intros t. change (has_loss_marker t) with (found loss_marker_pattern t).
  rewrite found_iff.
  remember (Re.compile loss_marker_pattern) as r eqn:E. vm_compute in E. subst r.
  split.
  - intros [pre [suf [c' [-> H]]]]. rewrite seek_start in H.
    cbn [accepts] in H. invert_accepts; word_facts; whole_word.
  - intros [pre [w [post [-> [F [Hs He]]]]]]. cbn [In] in F.
    repeat (destruct F as [F|F]; [symmetry in F; letters F; complete_word|]).
    contradiction.
Qed.

End MarkerFacts.

Module MinusFacts.
Import Re ReLang AnalysisFacts ReLangFacts FloatFacts SignFacts.

Lemma binary_round_aux_sign : forall p em s m e l,
  binary_round_aux p em s m e l =
  match binary_round_aux p em false m e l with
  | S754_zero _ => S754_zero s
  | S754_infinity _ => S754_infinity s
  | S754_finite _ m' e' => S754_finite s m' e'
  | S754_nan => S754_nan
  end.
Proof.
  intros p em s m e l. unfold binary_round_aux.
  destruct (shr_fexp p em m e l) as [mrs' e'].
  destruct (shr_fexp p em _ e' loc_Exact) as [mrs'' e''].
  destruct (shr_m mrs''); [reflexivity | | reflexivity].
  destruct (Z.leb e'' (em - p)); reflexivity.
Qed.

Lemma abs_opp_nonneg : forall f, non_negative f = true -> abs (- f) = f.
Proof.
  intros f H. apply FloatAxioms.Prim2SF_inj. rewrite FloatAxioms.abs_spec, FloatAxioms.opp_spec.
  unfold non_negative in H.
  destruct (Prim2SF f) as [s|s| |s m e]; simpl in *; try discriminate H;
    destruct s; try discriminate H; reflexivity.
Qed.

Lemma abs_SF2Prim : forall y,
  sf_nonneg y = true ->
  abs (SF2Prim match y with
               | S754_zero _ => S754_zero true
               | S754_infinity _ => S754_infinity true
               | S754_finite _ m e => S754_finite true m e
               | S754_nan => S754_nan
               end) = SF2Prim y.
Proof.
  intros [s|s| |s m e] H; simpl in H; try discriminate H;
    destruct s; try discriminate H.
  - reflexivity.
  - reflexivity.
  - change (SF2Prim (S754_finite true m e)) with (- SF2Prim (S754_finite false m e))%float.
    apply abs_opp_nonneg. apply SF2Prim_nonneg. reflexivity.
Qed.

Lemma abs_nearest_ratio : forall n d,
  abs (PyFloat.nearest_ratio true n d) = PyFloat.nearest_ratio false n d.
Proof.
  intros n d. unfold PyFloat.nearest_ratio.
  pose proof (SFdiv_nonneg PyFloat.prec PyFloat.emax (S754_finite false n 0) d 0 eq_refl) as N.
  unfold SFdiv in *.
  destruct (SFdiv_core_binary _ _ _ _ _ _) as [[mz ez] lz]. cbn [xorb] in *.
  rewrite (binary_round_aux_sign _ _ true). apply abs_SF2Prim. exact N.
Qed.

Lemma abs_of_decimal : forall n e,
  abs (PyFloat.of_decimal true n e) = PyFloat.of_decimal false n e.
Proof.
  intros n e. unfold PyFloat.of_decimal.
  destruct n as [|p|p]; [reflexivity | | reflexivity].
  destruct e; apply abs_nearest_ratio.
Qed.

Lemma amount_not_space : forall c, amount_char c = true -> is_space c = false.
Proof.
  intros [b0 b1 b2 b3 b4 b5 b6 b7] H.
  destruct b0, b1, b2, b3, b4, b5, b6, b7; try discriminate H; reflexivity.
Qed.

Lemma rstrip_amount : forall t, str_forallb amount_char t = true -> rstrip t = t.
Proof.
  induction t as [|c t IH]; intros H; [reflexivity|].
  cbn [str_forallb] in H. apply andb_true_iff in H as [Hc Ht].
  cbn [rstrip]. rewrite (IH Ht).
  destruct t; [rewrite (amount_not_space c Hc)|]; reflexivity.
Qed.

Lemma strip_amount : forall t, str_forallb amount_char t = true -> strip t = t.
Proof.
  intros t H. unfold strip.
  assert (L : lstrip t = t).
  { destruct t as [|c t]; [reflexivity|]. cbn [str_forallb] in H.
    apply andb_true_iff in H as [Hc _]. cbn [lstrip].
    rewrite (amount_not_space c Hc). reflexivity. }
  rewrite L. apply rstrip_amount. exact H.
Qed.

(** Reading a literal with a minus sign in front gives the value read
    without it, negated. *)
Lemma minus_literal : forall t x,
  str_forallb amount_char t = true ->
  Conv.float_of_string (String "-" t) = Some x ->
  Conv.float_of_string t = Some (abs x).
Proof.
  intros t x H F. unfold Conv.float_of_string in *.
  assert (S : strip (String "-" t) = String "-" t).
  { unfold strip. cbn [lstrip]. change (is_space "-") with false. cbv iota.
    cbn [rstrip]. rewrite (rstrip_amount t H). destruct t; reflexivity. }
  rewrite S in F. cbn [Conv.read_sign] in F.
  rewrite (strip_amount t H), (read_sign_amount t H).
  rewrite (amount_not_word _ "nf" "i" H eq_refl) in *.
  rewrite (amount_not_word _ "nfinity" "i" H eq_refl) in *.
  rewrite (amount_not_word _ "an" "n" H eq_refl) in *. cbn [orb] in *.
  destruct (Conv.read_number t) as [[n e]|]; [|discriminate F].
  injection F as <-. rewrite abs_of_decimal. reflexivity.
Qed.

Lemma replace_minus : forall lit,
  replace_char "," "" (String "-" lit) = String "-" (replace_char "," "" lit).
Proof. reflexivity. Qed.

(** What the actual-EPS pattern captures after a minus sign: digits,
    commas and dots. *)
Lemma signed_literal_chars : forall s m lit,
  search true (Re.compile actual_eps_pattern) s = Some m ->
  group m 1 = Some (String "-" lit) ->
  str_forallb amount_char lit = true.
Proof.
  intros s m lit S G.
  destruct (search_lang true _ _ _ S) as [pre [w [post [_ [_ [_ Hg]]]]]].
  specialize (Hg 1%nat _ ltac:(discriminate) G). clear S G.
  remember (Re.compile actual_eps_pattern) as r eqn:E. vm_compute in E. subst r.
  cbn [glang] in Hg.
  repeat match type of Hg with
         | _ \/ _ => destruct Hg as [Hg|Hg]
         | False => contradiction Hg
         end.
  destruct Hg as [_ Hg]. cbn [lang] in Hg.
  destruct Hg as [u [v [Huv [[n [_ [Hn Hu]]] Hv]]]].
  assert (V : str_forallb amount_char v = true).
  { apply (chars_ok_lang true amount_char
             (RRep true 1 None (RSet false [CDigit; CChar ","; CChar "."])) v);
      [vm_compute; reflexivity | exact Hv]. }
  destruct n as [|[|n]]; [| |simpl in Hn; lia].
  - simpl in Hu. subst u. simpl in Huv. subst v. discriminate V.
  - simpl in Hu. destruct Hu as [u1 [v1 [-> [[a [-> _]] ->]]]]. simpl in Huv.
    injection Huv as _ ->. exact V.
Qed.

End MinusFacts.

(** C10 (as amended). When the actual-EPS pattern captures a literal
    written with a leading minus sign and the literal, commas removed,
    parses as a float, the result is the rounded magnitude of the
    literal, which is the value of the literal read without its minus
    sign, negated exactly when loss, negative or deficit stands as a
    whole word, in any letter case, anywhere in the normalized text:
    with none of them the result is positive, so "Actual EPS: -0.25"
    gives 0.25. When the captured literal does not parse, as the
    "-0.25." captured from "Actual EPS: -0.25.", there is no value. *)
Theorem C10_actual_eps_minus_sign_discarded :
  forall (text : string) (m : Re.rmatch) (lit : string),
  Re.search true (Re.compile actual_eps_pattern) (clean_text text) = Some m ->
  Re.group m 1 = Some (String "-" lit) ->
  (forall x : float,
     Conv.float_of_string (replace_char "," "" (String "-" lit)) = Some x ->
     Conv.float_of_string (replace_char "," "" lit) = Some (abs x) /\
     (~ has_whole_word ["loss"; "negative"; "deficit"] (clean_text text) ->
        parse_actual_eps text = Ok (Some (round3 (abs x)))) /\
     (has_whole_word ["loss"; "negative"; "deficit"] (clean_text text) ->
        parse_actual_eps text = Ok (Some (round3 (- abs x))))) /\
  (Conv.float_of_string (replace_char "," "" (String "-" lit)) = None ->
     parse_actual_eps text = Ok None) /\
  parse_actual_eps "Actual EPS: -0.25" = Ok (Some 0.25%float) /\
  parse_actual_eps "Actual EPS: -0.25 after the deficit" = Ok (Some (-0.25)%float) /\
  parse_actual_eps "Actual EPS: -0.25." = Ok None.
Proof.
  intros text m lit S G.
  assert (P : parse_actual_eps text =
              match Conv.float_of_string (replace_char "," "" (String "-" lit)) with
              | Some x =>
                  Ok (Some (round3 (if has_loss_marker (clean_text text)
                                    then (- abs x)%float else abs x)))
              | None => Ok None
              end).
  { unfold parse_actual_eps. cbv zeta. rewrite S. unfold float_of_group. rewrite G.
    destruct (Conv.float_of_string _); [|reflexivity].
    destruct (has_loss_marker (clean_text text)); reflexivity. }
  pose proof (MarkerFacts.loss_marker_iff (clean_text text)) as M.
  split; [|split; [|split; [|split]]].
  - intros x F. split; [|split].
    + apply MinusFacts.minus_literal; [|exact F].
      apply SignFacts.replace_forall.
      apply (MinusFacts.signed_literal_chars _ _ _ S G).
    + intros W. rewrite P, F.
      destruct (has_loss_marker (clean_text text)); [|reflexivity].
      contradiction W. apply M. reflexivity.
    + intros W. rewrite P, F. apply M in W. rewrite W. reflexivity.
  - intros F. rewrite P, F. reflexivity.
  - vm_compute. reflexivity.
  - vm_compute. reflexivity.
  - vm_compute. reflexivity.
Qed.

Lemma C10_actual_eps_minus_sign_witness :
  parse_actual_eps "Actual EPS: -0.30 a year after the deficit"
  = Ok (Some (round3 (- abs (-0.3)))).
Proof.
  assert (S : exists m,
            Re.search true (Re.compile actual_eps_pattern)
              (clean_text "Actual EPS: -0.30 a year after the deficit") = Some m /\
            Re.group m 1 = Some "-0.30").
  { eexists. split; [vm_compute; reflexivity | vm_compute; reflexivity]. }
  destruct S as [m [S G]].
  apply (proj2 (proj2 (proj1 (C10_actual_eps_minus_sign_discarded
                  "Actual EPS: -0.30 a year after the deficit" m "0.30" S G)
               (-0.3)%float ltac:(vm_compute; reflexivity)))).
  exists "Actual EPS: -0.30 a year after the ", "deficit", EmptyString.
  repeat split; try reflexivity. simpl. tauto.
Defined.

(** The claim as it was stated fails when the captured literal does
    not parse: in "Actual EPS: -0.25." the pattern captures "-0.25."
    with the period, no marker word occurs, and the matcher returns no
    value instead of 0.25. *)
Lemma C10_counterexample :
  option_map (fun m => Re.group m 1)
    (Re.search true (Re.compile actual_eps_pattern) (clean_text "Actual EPS: -0.25."))
  = Some (Some "-0.25.") /\
  has_loss_marker (clean_text "Actual EPS: -0.25.") = false /\
  parse_actual_eps "Actual EPS: -0.25." = Ok None.
Proof. split; [|split]; vm_compute; reflexivity. Qed.
(** ** Checks of the embedding on small inputs *)

Example split_ws_ex : split_ws "  three  eighteen " = ["three"; "eighteen"].
Proof. reflexivity. Qed.
Example split_char_ex : split_char "_" "a__b_" = ["a"; ""; "b"; ""].
Proof. reflexivity. Qed.
Example strip_ex : strip "  a b  " = "a b".
Proof. reflexivity. Qed.
Example parse_ex1 :
  Re.parse "a\s+(b|c)?" =
  Some (Re.RSeq (Re.RChar "a")
         (Re.RSeq (Re.RRep true 1 None (Re.RSet false [Re.CSpace]))
            (Re.RRep true 0 (Some 1)
               (Re.RGroup 1 (Re.RAlt (Re.RChar "b") (Re.RChar "c")))))).
Proof. reflexivity. Qed.
Example parse_ex2 :
  Re.parse "[\d,\.-]{7,}?" =
  Some (Re.RRep false 7 None
          (Re.RSet false [Re.CDigit; Re.CChar ","; Re.CChar "."; Re.CChar "-"])).
Proof. reflexivity. Qed.
Example float_of_string_ex1 : Conv.float_of_string "2.5" = Some 2.5%float.
Proof. reflexivity. Qed.
Example float_of_string_ex2 : Conv.float_of_string "-0.25" = Some (-0.25)%float.
Proof. reflexivity. Qed.
Example float_of_string_ex3 : Conv.float_of_string "1.2.3" = None.
Proof. reflexivity. Qed.
Example float_of_string_ex4 : Conv.float_of_string "" = None.
Proof. reflexivity. Qed.
Example float_of_string_ex5 : Conv.float_of_string " 1_0.5e-1 " = Some 1.05%float.
Proof. reflexivity. Qed.
Example float_of_string_ex6 : Conv.float_of_string "0.17." = None.
Proof. reflexivity. Qed.
Example string_of_nat_ex : map Conv.string_of_nat [0; 7; 18; 90] = ["0"; "7"; "18"; "90"].
Proof. reflexivity. Qed.
Example normalize_ex1 : normalize_number (Some "2.5") (Some "billion") = Some 2500%float.
Proof. reflexivity. Qed.
Example normalize_ex2 : normalize_number (Some "1500000") None = Some 1.5%float.
Proof. reflexivity. Qed.
Example normalize_ex3 : normalize_number (Some "500") (Some "thousand") = Some 0.5%float.
Proof. reflexivity. Qed.
Example normalize_ex4 : normalize_number (Some "750") None = Some 750%float.
Proof. reflexivity. Qed.
Example normalize_ex5 : normalize_number (Some "$14,400,000,000") None = Some 14400%float.
Proof. reflexivity. Qed.
Example spoken_ex1 : spoken_to_number "three eighteen" = Some 318%Z.
Proof. vm_compute. reflexivity. Qed.
Example spoken_ex2 : spoken_to_number "four twenty five" = Some 4205%Z.
Proof. vm_compute. reflexivity. Qed.
Example spoken_ex3 : spoken_to_number "One oh 5 hundred" = Some 105%Z.
Proof. vm_compute. reflexivity. Qed.
Example clean_ex1 : clean_text (String "009" " a " ++ String "010" (String "010" "b  c ")) = "a b c".
Proof. reflexivity. Qed.
Example search_ex1 :
  option_map (fun m => map (Re.group m) [0; 1; 2; 3])
    (Re.search true (Re.compile actual_eps_spoken_pattern)
       "actual EPS of seventeen cents, a loss")
  = Some [Some "actual EPS of seventeen cents"; Some "seventeen "; Some "cents"; None].
Proof. vm_compute. reflexivity. Qed.
Example findall_ex1 :
  map (fun m => (Re.group_or_empty m 2, Re.group_or_empty m 3))
    (Re.findall true (Re.compile revenue_pattern)
       "Revenue, as always, matters. Revenue was $200 million.")
  = [(",", ""); ("200", "million")].
Proof. vm_compute. reflexivity. Qed.
Example five_words_ex :
  parse_revenue "revenue a b c d e 7" = Some 7%float /\
  parse_revenue "revenue a b c d e f 7" = None.
Proof. split; vm_compute; reflexivity. Qed.
Example raises_ex :
  extract_metrics (fun t => [t]) "net revenue margin of 1.2.3%" = Raise ValueError.
Proof. vm_compute. reflexivity. Qed.
Example trailing_period_ex : parse_actual_eps "Actual EPS $0.17." = Ok None.
Proof. vm_compute. reflexivity. Qed.
Example stem_ex :
  map stem ["acme_Q3.txt"; "a.b.txt"; ".txt"; "abc."; "abc"]
  = ["acme_Q3"; "a.b"; ".txt"; "abc."; "abc"].
Proof. reflexivity. Qed.
Example filename_ex :
  extract_from_filename "acme_Q3_Oct_24_2024.txt"
  = (Some "ACME", Some "Q3", Some "2024", Some "Oct 24 2024").
Proof. vm_compute. reflexivity. Qed.
Example float_ex1 : (PyFloat.of_Z 17 / 100)%float = 0.17%float.
Proof. reflexivity. Qed.
Example round_ex1 : PyFloat.round 0.0625 3 = 0.062%float.
Proof. reflexivity. Qed.
Example round_ex2 : PyFloat.round 2.6755 3 = 2.675%float.
Proof. reflexivity. Qed.
Example round_ex3 : PyFloat.round (-0.0001) 3 = (-0)%float.
Proof. reflexivity. Qed.
Example round_ex4 : round3 0.00075 = 0.001%float.
Proof. reflexivity. Qed.
Example header_line4_ex :
  extract_ticker_quarter_year_date
    ("Earnings call" ++ String "010" ("Transcript" ++ String "010" ("Operator" ++
     String "010" "Acme Corp (NYSE:ACME) Q3 2024, October 24, 2024")))
  = (None, None, None, None).
Proof. vm_compute. reflexivity. Qed.

Example ends_with_txt_ex :
  map ends_with_txt ["acme_Q3.txt"; ".txt"; "notes.md"; "a.txt.bak"; "A.TXT"]
  = [true; true; false; false; false].
Proof. reflexivity. Qed.
Example str_find_ex :
  map (fun t => str_find "margin" t 0) ["net margin"; "margin, margin"; "marg in"]
  = [Some 4%nat; Some 0%nat; None].
Proof. reflexivity. Qed.
Example net_income_margin_ex :
  map parse_net_income_margin
    ["Net income margin was 12.5% this year"; "Margin of 3%"; "net income margin unchanged"]
  = [Some 12.5%float; None; None].
Proof. vm_compute. reflexivity. Qed.
Example main_ex :
  option_map (map r_file_name)
    (match main (fun t => [t]) (fun _ => Ok tt)
             [("b_Q1.txt", Ok "x"); ("notes.md", Raise OSError); ("a_Q2.txt", Ok "z")] with
     | Ok rs => Some rs
     | Raise _ => None
     end)
  = Some ["b_Q1.txt"; "a_Q2.txt"].
Proof. vm_compute. reflexivity. Qed.
Example main_raises_ex :
  main (fun t => [t]) (fun _ => Ok tt)
    [("a_Q1.txt", Ok "x"); ("b_Q1.txt", Ok "net revenue margin n/a, % of sales");
     ("c_Q1.txt", Raise OSError)]
  = Raise ValueError.
Proof. vm_compute. reflexivity. Qed.
Example main_unreadable_ex :
  main (fun t => [t]) (fun _ => Ok tt)
    [("a_Q1.txt", Ok "x"); ("b_Q1.txt", Raise UnicodeDecodeError); ("c_Q1.txt", Ok "z")]
  = Raise UnicodeDecodeError.
Proof. vm_compute. reflexivity. Qed.
Example main_unwritable_ex :
  main (fun t => [t]) (fun _ => Raise OSError) [("a_Q1.txt", Ok "x")] = Raise OSError.
Proof. vm_compute. reflexivity. Qed.
Example int_of_string_ex :
  map Conv.int_of_string [" 42 "; "-1_000"; "4 2"; repeat_char "7" 4300]
  = [Some 42%Z; Some (-1000)%Z; None; Some (decimal_value (repeat_char "7" 4300))] /\
  Conv.int_of_string (repeat_char "7" 4301) = None.
Proof. split; vm_compute; reflexivity. Qed.
Example nlp_check_ex : nlp_check "Revenue was $5 million." = Ok tt.
Proof. reflexivity. Qed.
